(** * Reset-time scanner: a shallow embedding of the scanning pipeline

    The development follows the backend of the repository:
    - [utils/rateLimiter.js]   (class [RateLimiter]),
    - [database/connection.js] (the [query] wrapper around the pool),
    - [services/apiClient.js]  (class [PnWApiClient]),
    - [services/scanner.js]    (class [NationScanner]),
    with the tables of [database/schema.sql]; and, beside the backend,
    the countdown of [components/ResetTimeDisplay.jsx] and the lookup
    of the bot's [/reset] command.

    Asynchronous methods are written in a state-and-exception monad over
    one [World]: the tables, one clock, the rate limiter, what the
    environment will answer (storage faults, provider responses, how
    exactly timers fire, the time zone of the server) and the trace of
    effects performed so far. *)

From Stdlib Require Import ZArith List String Ascii Bool Lia Sorted ZifyNat.
Import ListNotations.

Open Scope string_scope.
Open Scope list_scope.
Open Scope Z_scope.

(* ================================================================== *)
(** ** JavaScript values used by the code *)

(** A number produced by [parseInt], [Number] or arithmetic on them:
    an integer or [NaN].  JavaScript numbers are doubles; an integer
    stands for itself as long as it lies within [-2^53, 2^53], the range
    in which doubles hold every integer and add, subtract and multiply
    them exactly.  The properties below keep to that range. *)
Inductive jsnum : Type :=
| NaN
| Num (z : Z).

Definition js_mul (a b : jsnum) : jsnum :=
  match a, b with
  | Num x, Num y => Num (x * y)
  | _, _ => NaN
  end.

Definition js_sub (a b : jsnum) : jsnum :=
  match a, b with
  | Num x, Num y => Num (x - y)
  | _, _ => NaN
  end.

(** [a <= b]; any comparison with [NaN] is false. *)
Definition js_le (a b : jsnum) : bool :=
  match a, b with
  | Num x, Num y => x <=? y
  | _, _ => false
  end.

(** [a > b]. *)
Definition js_gt (a b : jsnum) : bool :=
  match a, b with
  | Num x, Num y => y <? x
  | _, _ => false
  end.

(** Truthiness of a number: [NaN] and [0] are falsy. *)
Definition num_truthy (a : jsnum) : bool :=
  match a with
  | Num z => negb (z =? 0)
  | NaN => false
  end.

(** Truthiness of a string: only the empty string is falsy. *)
Definition str_truthy (s : string) : bool :=
  match s with
  | EmptyString => false
  | String _ _ => true
  end.

(* ------------------------------------------------------------------ *)
(** *** Decimal rendering: a template literal [`${n}`] on an integer *)

Definition digit_char (d : Z) : ascii :=
  ascii_of_nat (48 + Z.to_nat d).

(** Digits of a non-negative [n], most significant first, pushed in
    front of [acc]; [fuel] bounds the number of digits. *)
Fixpoint show_digits (fuel : nat) (n : Z) (acc : string) : string :=
  match fuel with
  | O => acc
  | S fuel' =>
      let acc' := String (digit_char (n mod 10)) acc in
      if n <? 10 then acc' else show_digits fuel' (n / 10) acc'
  end.

Definition show_nonneg (n : Z) : string :=
  show_digits (S (Z.to_nat (Z.log2 n))) n "".

Definition show_Z (n : Z) : string :=
  if n <? 0 then String "-" (show_nonneg (- n)) else show_nonneg n.

Definition show_num (a : jsnum) : string :=
  match a with
  | NaN => "NaN"
  | Num z => show_Z z
  end.

(* ------------------------------------------------------------------ *)
(** *** [parseInt] and [Number] on strings *)

(** Strings are sequences of characters below U+0100, as the texts of
    HTTP headers are.  The white space among them, for [parseInt] and
    [Number]: TAB, LF, VT, FF, CR, SP and NBSP. *)
Definition is_space (c : ascii) : bool :=
  let n := nat_of_ascii c in
  ((9 <=? n) && (n <=? 13))%nat || (n =? 32)%nat || (n =? 160)%nat.

Fixpoint trim_start (s : string) : string :=
  match s with
  | String c rest => if is_space c then trim_start rest else s
  | EmptyString => s
  end.

(** Value of [c] as a digit in base [radix] (10 or 16). *)
Definition digit_value (radix : Z) (c : ascii) : option Z :=
  let n := Z.of_nat (nat_of_ascii c) in
  if (48 <=? n) && (n <=? 57) then Some (n - 48)
  else if radix =? 16 then
    if (97 <=? n) && (n <=? 102) then Some (n - 87)
    else if (65 <=? n) && (n <=? 70) then Some (n - 55)
    else None
  else None.

(** Longest prefix of digits, accumulated; [None] when no digit read. *)
Fixpoint read_digits (radix : Z) (s : string) (acc : option Z) : option Z :=
  match s with
  | String c rest =>
      match digit_value radix c with
      | Some d =>
          read_digits radix rest
            (Some (match acc with Some a => a * radix + d | None => d end))
      | None => acc
      end
  | EmptyString => acc
  end.

Definition strip_sign (s : string) : Z * string :=
  match s with
  | String "-" rest => (-1, rest)
  | String "+" rest => (1, rest)
  | _ => (1, s)
  end.

Definition strip_hex_prefix (s : string) : Z * string :=
  match s with
  | String "0" (String "x" rest) => (16, rest)
  | String "0" (String "X" rest) => (16, rest)
  | _ => (10, s)
  end.

(** [parseInt(s)] without a radix argument.  The value is that of the
    digits; a double holds it exactly up to 2^53, and JavaScript rounds
    it beyond. *)
Definition parseInt_string (s : string) : jsnum :=
  let '(sign, s1) := strip_sign (trim_start s) in
  let '(radix, s2) := strip_hex_prefix s1 in
  match read_digits radix s2 None with
  | Some n => Num (sign * n)
  | None => NaN
  end.

(** [parseInt(v)] where [v] may be [undefined]: it is first turned into
    the string ["undefined"], which has no digits. *)
Definition parseInt (v : option string) : jsnum :=
  match v with
  | Some s => parseInt_string s
  | None => NaN
  end.

Fixpoint all_digits (s : string) : bool :=
  match s with
  | String c rest =>
      match digit_value 10 c with
      | Some _ => all_digits rest
      | None => false
      end
  | EmptyString => true
  end.

Fixpoint trim_end (s : string) : string :=
  match s with
  | String c rest =>
      match trim_end rest with
      | EmptyString => if is_space c then EmptyString else String c EmptyString
      | rest' => String c rest'
      end
  | EmptyString => EmptyString
  end.


(** [Number(s)], the coercion applied by [s * 1000] and by
    [map(Number)].  On a [whole_number_text] the value is that of the
    literal, [0] for a blank text.  JavaScript also reads fractions,
    exponents, radix prefixes and [Infinity]; their values are not
    integers in general and have no counterpart in [jsnum], so the
    properties below keep to texts that are whole numbers or that no
    reading of [Number] can turn into a number. *)
Definition to_number (s : string) : jsnum :=
  match trim_end (trim_start s) with
  | EmptyString => Num 0
  | t =>
      let '(sign, body) := strip_sign t in
      if str_truthy body && all_digits body then
        match read_digits 10 body None with
        | Some n => Num (sign * n)
        | None => NaN
        end
      else NaN
  end.

(* ------------------------------------------------------------------ *)
(** *** Dates and time zones *)

Definition msPerDay : Z := 86400000.

(** The time zone of a host, as [Date] consults it; offsets are in
    milliseconds, positive east of Greenwich.
    - [utc_offset t]: the offset in force at the instant [t];
    - [local_offset t]: the offset applied to the local time value [t]
      when it is turned back into an instant (where daylight saving
      repeats or skips an hour, the host decides). *)
Record time_zone : Type := {
  utc_offset : Z -> Z;
  local_offset : Z -> Z
}.

(** A zone whose offset never changes. *)
Definition fixed_zone (tz : Z) : time_zone :=
  {| utc_offset := fun _ => tz; local_offset := fun _ => tz |}.

(** [LocalTime(t)] and [UTC(t)] of the language specification. *)
Definition LocalTime (zone : time_zone) (t : Z) : Z := t + utc_offset zone t.

Definition UTC (zone : time_zone) (t : Z) : Z := t - local_offset zone t.

(** [TimeClip(t)]: a time value further than 8.64e15 ms from the epoch
    is no date. *)
Definition TimeClip (t : Z) : jsnum :=
  if Z.abs t <=? 8640000000000000 then Num t else NaN.

(* ------------------------------------------------------------------ *)
(** *** Timers *)

(** The longest delay of a timer of Node.js, in milliseconds. *)
Definition TIMEOUT_MAX : Z := 2 ^ 31 - 1.

(** The delay that [setTimeout(f, ms)] sets: a delay that is not a
    number from 1 to [TIMEOUT_MAX] is replaced by 1. *)
Definition timer_delay (ms : jsnum) : Z :=
  match ms with
  | Num z => if (1 <=? z) && (z <=? TIMEOUT_MAX) then z else 1
  | NaN => 1
  end.

(** How long a timer of [ms] milliseconds holds its caller, in
    microseconds, when it fires [skew] microseconds off its delay
    (early when [skew] is negative). *)
Definition held_for (ms : jsnum) (skew : Z) : Z :=
  Z.max 0 (timer_delay ms * 1000 + skew).

(* ================================================================== *)
(** ** Data model *)

(** An entity as the provider returns it ([data { id nation_name ... }]).
    [espionage_available] is a nullable GraphQL Boolean; timestamps are
    microseconds since the epoch. *)
Record api_nation : Type := {
  id : Z;
  nation_name : string;
  leader_name : string;
  alliance_id : Z;
  espionage_available : option bool;
  last_active : Z
}.

(** Table [nations] (columns read or written by the scanner). *)
Record nation_row : Type := {
  n_id : Z;
  n_nation_name : string;
  n_leader_name : string;
  n_alliance_id : Z;
  n_last_active : Z;
  n_updated_at : Z
}.

(** Table [scan_history]: [espionage_available BOOLEAN NOT NULL],
    [scanned_at TIMESTAMP DEFAULT CURRENT_TIMESTAMP]. *)
Record scan_row : Type := {
  sh_nation_id : Z;
  sh_espionage_available : bool;
  scanned_at : Z
}.

(** Table [reset_times], [UNIQUE(nation_id)]. *)
Record reset_row : Type := {
  rt_nation_id : Z;
  rt_reset_time : string;
  rt_detected_at : Z
}.

(** Table [error_logs]. *)
Record error_row : Type := {
  error_type : string;
  error_message : string;
  stack_trace : string;
  context : string
}.

Record Database : Type := {
  nations : list nation_row;
  reset_times : list reset_row;
  scan_history : list scan_row;
  error_logs : list error_row
}.

(** The statements the scanner hands to [db.query], with their
    parameters. *)
Inductive sql : Type :=
| SelectNationsToScan
| SelectLastScan (nation_id : Z)
| InsertScanHistory (nation_id : Z) (flag : option bool)
| UpdateNationActivity (new_last_active : Z) (nation_id : Z)
| UpsertResetTime (nation_id : Z) (timeOnly : string) (resetTime : Z)
| InsertErrorLog (type message stackTrace context : string)
| UpsertNation (nation : api_nation).

(** [result.rows] of a statement. *)
Inductive rows : Type :=
| CandidateRows (r : list (Z * string))
| ScanRows (r : list (bool * Z))
| NoRows.

(* ------------------------------------------------------------------ *)
(** *** The provider *)

(** The two GraphQL operations, with their variables. *)
Inductive request_config : Type :=
| FetchNations (first : Z) (after : option string)
| FetchSpecificNations (ids : list Z).

Record paginator_info : Type := {
  hasNextPage : bool;
  endCursor : option string
}.

(** [response.data.data.nations] *)
Record nations_connection : Type := {
  conn_data : option (list api_nation);
  conn_paginatorInfo : option paginator_info
}.

(** [response.data]: the parsed JSON body.  [gql_data = None] is a body
    without a [data] member, [Some None] a [data] without [nations]. *)
Record gql_body : Type := {
  gql_errors : bool;
  gql_data : option (option nations_connection)
}.

Definition headers : Type := list (string * string).

Fixpoint header (h : headers) (name : string) : option string :=
  match h with
  | (k, v) :: rest => if String.eqb k name then Some v else header rest name
  | [] => None
  end.

Record http_response : Type := {
  status : Z;
  resp_headers : headers;
  resp_data : gql_body
}.

(** What one exchange with the provider yields: an HTTP response of
    any status, or no response at all (timeout, connection reset). *)
Inductive net_outcome : Type :=
| Http (r : http_response)
| NetworkError (message : string).

(** Exceptions travelling through the code. *)
Inductive js_error : Type :=
| AxiosError (message : string) (config : request_config)
             (response : option http_response)
| DbError (message : string)
| TypeError (message : string)
| Error (message : string).

Definition error_text (e : js_error) : string :=
  match e with
  | AxiosError m _ _ => m
  | DbError m => m
  | TypeError m => m
  | Error m => m
  end.

(* ------------------------------------------------------------------ *)
(** *** The rate limiter, the logger and the trace of effects *)

(** [class RateLimiter]: [resetTime] is [null] until the first update. *)
Record RateLimiter : Type := {
  remaining : jsnum;
  resetTime : option jsnum;
  limit : jsnum;
  minBuffer : Z
}.

(** [new RateLimiter()] *)
Definition new_RateLimiter : RateLimiter :=
  {| remaining := Num 1000; resetTime := None; limit := Num 1000;
     minBuffer := 10 |}.

Inductive log_level : Type := LError | LWarn | LInfo | LDebug.

(** The second argument of a logger call. *)
Inductive log_meta : Type :=
| NoMeta
| MetaError (e : js_error)
| MetaQuery (text : sql) (error : option string)
| MetaRateLimit (remaining resetTime limit : jsnum)
| MetaBatch (batch : list Z) (error : string)
| MetaPage (offset : jsnum) (limit : Z) (error : string).

(** Effects, in the order the program performs them. *)
Inductive event : Type :=
| EvLog (level : log_level) (message : string) (meta : log_meta)
| EvQuery (text : sql) (executed : bool)
| EvPost (config : request_config)
| EvExchange (config : request_config) (outcome : net_outcome)
| EvSleep (ms : jsnum).

(** Everything the program can read or change.
    - [clock]: microseconds since the epoch; [Date.now()] is
      [clock / 1000] and the database stamps rows with [clock].
    - [db_faults]: for each coming statement, whether the pool rejects
      it before it runs (connection loss, timeout); none once the list
      is used up.
    - [net_script]: what each coming exchange with the provider yields;
      once used up the provider no longer answers.
    - [timers]: for each coming timer, how far off its delay it fires,
      in microseconds (the event loop may run a timer late, and up to
      about a millisecond early); on time once the list is used up.
    - [server_zone]: the time zone of the host the scanner runs on.
    - [trace]: the effects performed so far, oldest first. *)
Record World : Type := {
  db : Database;
  clock : Z;
  db_faults : list bool;
  net_script : list net_outcome;
  timers : list Z;
  server_zone : time_zone;
  rateLimiter : RateLimiter;
  trace : list event
}.

Definition set_db (d : Database) (w : World) : World :=
  {| db := d; clock := clock w; db_faults := db_faults w;
     net_script := net_script w; timers := timers w;
     server_zone := server_zone w; rateLimiter := rateLimiter w;
     trace := trace w |}.

Definition set_clock (c : Z) (w : World) : World :=
  {| db := db w; clock := c; db_faults := db_faults w;
     net_script := net_script w; timers := timers w;
     server_zone := server_zone w; rateLimiter := rateLimiter w;
     trace := trace w |}.

Definition set_db_faults (f : list bool) (w : World) : World :=
  {| db := db w; clock := clock w; db_faults := f;
     net_script := net_script w; timers := timers w;
     server_zone := server_zone w; rateLimiter := rateLimiter w;
     trace := trace w |}.

Definition set_net_script (s : list net_outcome) (w : World) : World :=
  {| db := db w; clock := clock w; db_faults := db_faults w;
     net_script := s; timers := timers w; server_zone := server_zone w;
     rateLimiter := rateLimiter w; trace := trace w |}.

Definition set_timers (t : list Z) (w : World) : World :=
  {| db := db w; clock := clock w; db_faults := db_faults w;
     net_script := net_script w; timers := t; server_zone := server_zone w;
     rateLimiter := rateLimiter w; trace := trace w |}.

Definition set_server_zone (zone : time_zone) (w : World) : World :=
  {| db := db w; clock := clock w; db_faults := db_faults w;
     net_script := net_script w; timers := timers w; server_zone := zone;
     rateLimiter := rateLimiter w; trace := trace w |}.

Definition set_rateLimiter (r : RateLimiter) (w : World) : World :=
  {| db := db w; clock := clock w; db_faults := db_faults w;
     net_script := net_script w; timers := timers w;
     server_zone := server_zone w; rateLimiter := r; trace := trace w |}.

Definition emit (e : event) (w : World) : World :=
  {| db := db w; clock := clock w; db_faults := db_faults w;
     net_script := net_script w; timers := timers w;
     server_zone := server_zone w; rateLimiter := rateLimiter w;
     trace := trace w ++ [e] |}.

(* ================================================================== *)
(** ** The monad of asynchronous methods *)

Inductive result (A : Type) : Type :=
| Ok (a : A)
| Throw (e : js_error).
Arguments Ok {A} a.
Arguments Throw {A} e.

Definition M (A : Type) : Type := World -> result A * World.

Definition ret {A : Type} (a : A) : M A := fun w => (Ok a, w).

Definition throw {A : Type} (e : js_error) : M A := fun w => (Throw e, w).

Definition bind {A B : Type} (m : M A) (f : A -> M B) : M B :=
  fun w =>
    match m w with
    | (Ok a, w') => f a w'
    | (Throw e, w') => (Throw e, w')
    end.

Notation "x <- c1 ;; c2" := (bind c1 (fun x => c2))
  (at level 61, c1 at next level, right associativity).
Notation "c1 ;; c2" := (bind c1 (fun _ => c2))
  (at level 61, right associativity).

(** [try { body } catch (error) { handler }] *)
Definition try_catch {A : Type} (body : M A) (handler : js_error -> M A)
  : M A :=
  fun w =>
    match body w with
    | (Ok a, w') => (Ok a, w')
    | (Throw e, w') => handler e w'
    end.

(** [for (const x of xs) { body }]: an exception leaving [body] leaves
    the loop. *)
Fixpoint for_of {A : Type} (xs : list A) (body : A -> M unit) : M unit :=
  match xs with
  | [] => ret tt
  | x :: rest => body x ;; for_of rest body
  end.

(** The same loop around a local that the body updates. *)
Fixpoint for_of_acc {A S : Type} (xs : list A) (s : S)
         (body : A -> S -> M S) : M S :=
  match xs with
  | [] => ret s
  | x :: rest => s' <- body x s ;; for_of_acc rest s' body
  end.

Definition run_world {A : Type} (m : M A) (w : World) : World := snd (m w).
Definition run_result {A : Type} (m : M A) (w : World) : result A :=
  fst (m w).

(** [Date.now()], milliseconds. *)
Definition Date_now : M Z := fun w => (Ok (clock w / 1000), w).

(** [sleep(ms)]: [new Promise(resolve => setTimeout(resolve, ms))].
    The caller resumes when the timer fires: after the delay that Node
    sets for [ms], give or take what the next entry of [timers] says.
    The time taken by computation itself is not counted. *)
Definition sleep (ms : jsnum) : M unit :=
  fun w =>
    (Ok tt,
     set_clock (clock w + held_for ms (hd 0 (timers w)))
       (set_timers (tl (timers w)) (emit (EvSleep ms) w))).

Definition logger (level : log_level) (message : string) (meta : log_meta)
  : M unit :=
  fun w => (Ok tt, emit (EvLog level message meta) w).

(* ================================================================== *)
(** ** utils/rateLimiter.js *)

(** [update(rateLimitInfo)] *)
Definition RateLimiter_update (info_remaining info_reset info_limit : jsnum)
  : M unit :=
  fun w =>
    let r := rateLimiter w in
    let r' := {| remaining := info_remaining;
                 resetTime := Some (js_mul info_reset (Num 1000));
                 limit := info_limit;
                 minBuffer := minBuffer r |} in
    logger LDebug "Rate limit updated"
      (MetaRateLimit info_remaining (js_mul info_reset (Num 1000)) info_limit)
      (set_rateLimiter r' w).

(** [this.resetTime] used as a condition: [null], [NaN] and [0] are
    falsy. *)
Definition resetTime_truthy (t : option jsnum) : bool :=
  match t with
  | Some n => num_truthy n
  | None => false
  end.

(** [Math.ceil(x / 1000)] on an integer [x]. *)
Definition ceil_div_1000 (x : Z) : Z := - ((- x) / 1000).

(** [waitIfNeeded()] *)
Definition waitIfNeeded : M unit :=
  fun w =>
    let this := rateLimiter w in
    if js_le (remaining this) (Num (minBuffer this))
       && resetTime_truthy (resetTime this)
    then
      (now <- Date_now ;;
       let waitTime :=
         js_sub (match resetTime this with Some t => t | None => NaN end)
                (Num now) in
       if js_gt waitTime (Num 0) then
         logger LInfo
           ("Rate limit buffer reached. Waiting "
              ++ match waitTime with
                 | Num x => show_Z (ceil_div_1000 x)
                 | NaN => "NaN"
                 end ++ "s") NoMeta ;;
         sleep waitTime
       else ret tt) w
    else ret tt w.

(** [canMakeRequest()] *)
Definition canMakeRequest (this : RateLimiter) : bool :=
  js_gt (remaining this) (Num (minBuffer this)).

(* ================================================================== *)
(** ** The database behind [pool.query] *)

Definition has_nation (i : Z) (d : Database) : bool :=
  existsb (fun n => n_id n =? i) (nations d).

Definition has_reset (i : Z) (d : Database) : bool :=
  existsb (fun r => rt_nation_id r =? i) (reset_times d).

(** [INTERVAL '7 days'] in microseconds. *)
Definition seven_days : Z := 7 * 86400 * 1000000.

(** [LEFT JOIN reset_times rt ON n.id = rt.nation_id WHERE rt.id IS NULL
    AND n.last_active > NOW() - INTERVAL '7 days'] *)
Definition is_candidate (now : Z) (d : Database) (n : nation_row) : bool :=
  negb (has_reset (n_id n) d) && (now - seven_days <? n_last_active n).

Fixpoint insert_desc (n : nation_row) (l : list nation_row)
  : list nation_row :=
  match l with
  | [] => [n]
  | m :: rest =>
      if n_last_active m <=? n_last_active n then n :: l
      else m :: insert_desc n rest
  end.

(** [ORDER BY n.last_active DESC]; rows of equal activity keep their
    stored order (SQL leaves their order open). *)
Definition order_by_last_active_desc (l : list nation_row)
  : list nation_row :=
  fold_right insert_desc [] l.

Definition select_nations_to_scan (now : Z) (d : Database)
  : list (Z * string) :=
  map (fun n => (n_id n, n_nation_name n))
      (firstn 5000
         (order_by_last_active_desc (filter (is_candidate now d) (nations d)))).

(** [WHERE nation_id = $1 ORDER BY scanned_at DESC LIMIT 1]: the row of
    the entity with the greatest [scanned_at] ([best] so far); of rows
    with the same stamp the one stored first is kept. *)
Fixpoint latest_scan (i : Z) (h : list scan_row) (best : option scan_row)
  : option scan_row :=
  match h with
  | [] => best
  | r :: rest =>
      latest_scan i rest
        (if sh_nation_id r =? i then
           match best with
           | Some b => if scanned_at b <? scanned_at r then Some r else best
           | None => Some r
           end
         else best)
  end.

Definition select_last_scan (i : Z) (d : Database) : list (bool * Z) :=
  match latest_scan i (scan_history d) None with
  | Some r => [(sh_espionage_available r, scanned_at r)]
  | None => []
  end.

(** [INSERT INTO reset_times ... ON CONFLICT (nation_id) DO UPDATE SET
    reset_time = $2, detected_at = $3] *)
Fixpoint upsert_reset_time (row : reset_row) (table : list reset_row)
  : list reset_row :=
  match table with
  | [] => [row]
  | r :: rest =>
      if rt_nation_id r =? rt_nation_id row then
        {| rt_nation_id := rt_nation_id r;
           rt_reset_time := rt_reset_time row;
           rt_detected_at := rt_detected_at row |} :: rest
      else r :: upsert_reset_time row rest
  end.

Definition nation_row_of (now : Z) (n : api_nation) : nation_row :=
  {| n_id := id n; n_nation_name := nation_name n;
     n_leader_name := leader_name n; n_alliance_id := alliance_id n;
     n_last_active := last_active n; n_updated_at := now |}.

(** [INSERT INTO nations ... ON CONFLICT (id) DO UPDATE SET ...]; the
    trigger [update_nations_updated_at] stamps an updated row. *)
Fixpoint upsert_nation (now : Z) (n : api_nation) (table : list nation_row)
  : list nation_row :=
  match table with
  | [] => [nation_row_of now n]
  | r :: rest =>
      if n_id r =? id n then nation_row_of now n :: rest
      else r :: upsert_nation now n rest
  end.

(** [UPDATE nations SET last_active = $1, updated_at = NOW()
    WHERE id = $2] *)
Definition update_nation_activity (now la i : Z) (table : list nation_row)
  : list nation_row :=
  map (fun r =>
         if n_id r =? i then
           {| n_id := n_id r; n_nation_name := n_nation_name r;
              n_leader_name := n_leader_name r;
              n_alliance_id := n_alliance_id r;
              n_last_active := la; n_updated_at := now |}
         else r) table.

Definition with_nations (t : list nation_row) (d : Database) : Database :=
  {| nations := t; reset_times := reset_times d;
     scan_history := scan_history d; error_logs := error_logs d |}.

Definition with_reset_times (t : list reset_row) (d : Database) : Database :=
  {| nations := nations d; reset_times := t;
     scan_history := scan_history d; error_logs := error_logs d |}.

Definition with_scan_history (t : list scan_row) (d : Database) : Database :=
  {| nations := nations d; reset_times := reset_times d;
     scan_history := t; error_logs := error_logs d |}.

Definition with_error_logs (t : list error_row) (d : Database) : Database :=
  {| nations := nations d; reset_times := reset_times d;
     scan_history := scan_history d; error_logs := t |}.

(** One statement executed at server time [now]: its rows and the new
    tables, or [None] when a constraint of the schema refuses it
    ([NOT NULL], [FOREIGN KEY ... REFERENCES nations(id)]). *)
Definition exec_sql (now : Z) (text : sql) (d : Database)
  : option (rows * Database) :=
  match text with
  | SelectNationsToScan =>
      Some (CandidateRows (select_nations_to_scan now d), d)
  | SelectLastScan i => Some (ScanRows (select_last_scan i d), d)
  | InsertScanHistory i flag =>
      match flag with
      | Some b =>
          if has_nation i d then
            Some (NoRows,
                  with_scan_history
                    (scan_history d ++
                       [{| sh_nation_id := i; sh_espionage_available := b;
                           scanned_at := now |}]) d)
          else None
      | None => None
      end
  | UpdateNationActivity la i =>
      Some (NoRows, with_nations (update_nation_activity now la i (nations d)) d)
  | UpsertResetTime i timeOnly resetTime =>
      if has_nation i d then
        Some (NoRows,
              with_reset_times
                (upsert_reset_time
                   {| rt_nation_id := i; rt_reset_time := timeOnly;
                      rt_detected_at := resetTime |} (reset_times d)) d)
      else None
  | InsertErrorLog ty msg st ctx =>
      Some (NoRows,
            with_error_logs
              (error_logs d ++
                 [{| error_type := ty; error_message := msg;
                     stack_trace := st; context := ctx |}]) d)
  | UpsertNation n =>
      Some (NoRows, with_nations (upsert_nation now n (nations d)) d)
  end.

(* ================================================================== *)
(** ** database/connection.js *)

(** [this.pool.query(text, params)]: the statement is rejected by the
    pool (next entry of [db_faults]), refused by a constraint, or
    executed.  Either way one microsecond of server time goes by, so no
    two statements carry the same [CURRENT_TIMESTAMP]. *)
Definition pool_query (text : sql) : M rows :=
  fun w =>
    let rejected := hd false (db_faults w) in
    let w1 := set_clock (clock w + 1) (set_db_faults (tl (db_faults w)) w) in
    if rejected then
      (Throw (DbError "connection terminated"), emit (EvQuery text false) w1)
    else
      match exec_sql (clock w) text (db w) with
      | Some (r, d') => (Ok r, emit (EvQuery text true) (set_db d' w1))
      | None =>
          (Throw (DbError "violates constraint"), emit (EvQuery text false) w1)
      end.

(** [async query(text, params)] *)
Definition db_query (text : sql) : M rows :=
  try_catch
    (res <- pool_query text ;;
     logger LDebug "Executed query" (MetaQuery text None) ;;
     ret res)
    (fun error =>
       logger LError "Database query error"
         (MetaQuery text (Some (error_text error))) ;;
       throw error).

Definition candidate_rows (r : rows) : list (Z * string) :=
  match r with
  | CandidateRows l => l
  | _ => []
  end.

Definition scan_rows (r : rows) : list (bool * Z) :=
  match r with
  | ScanRows l => l
  | _ => []
  end.

(* ================================================================== *)
(** ** Node's [Buffer] with the ['base64'] encoding, and [split] *)

Definition b64_alphabet : string :=
  "ABCDEFGHIJKLMNOPQRSTUVWXYZabcdefghijklmnopqrstuvwxyz0123456789+/".

Definition b64_char (n : nat) : ascii :=
  match String.get n b64_alphabet with
  | Some c => c
  | None => "="%char
  end.

(** [Buffer.from(s).toString('base64')] on the bytes of [s]. *)
Fixpoint base64_encode (s : string) : string :=
  match s with
  | String a (String b (String c rest)) =>
      let x := nat_of_ascii a in
      let y := nat_of_ascii b in
      let z := nat_of_ascii c in
      String (b64_char (x / 4))
        (String (b64_char ((x mod 4) * 16 + y / 16))
           (String (b64_char ((y mod 16) * 4 + z / 64))
              (String (b64_char (z mod 64)) (base64_encode rest))))
  | String a (String b EmptyString) =>
      let x := nat_of_ascii a in
      let y := nat_of_ascii b in
      String (b64_char (x / 4))
        (String (b64_char ((x mod 4) * 16 + y / 16))
           (String (b64_char ((y mod 16) * 4)) "="))
  | String a EmptyString =>
      let x := nat_of_ascii a in
      String (b64_char (x / 4)) (String (b64_char ((x mod 4) * 16)) "==")
  | EmptyString => EmptyString
  end%nat.

(** Value of a character of the alphabet; the decoder also takes the
    URL-safe [-] and [_]. *)
Definition b64_value (c : ascii) : option nat :=
  let n := nat_of_ascii c in
  (if (65 <=? n) && (n <=? 90) then Some (n - 65)
   else if (97 <=? n) && (n <=? 122) then Some (n - 71)
   else if (48 <=? n) && (n <=? 57) then Some (n + 4)
   else if (n =? 43) || (n =? 45) then Some 62
   else if (n =? 47) || (n =? 95) then Some 63
   else None)%nat.

(** The decoder skips characters outside the alphabet and stops at the
    first [=]. *)
Fixpoint b64_sextets (s : string) : list nat :=
  match s with
  | String c rest =>
      if Ascii.eqb c "=" then []
      else match b64_value c with
           | Some v => v :: b64_sextets rest
           | None => b64_sextets rest
           end
  | EmptyString => []
  end.

Fixpoint b64_bytes (l : list nat) : string :=
  match l with
  | s1 :: s2 :: s3 :: s4 :: rest =>
      String (ascii_of_nat (s1 * 4 + s2 / 16))
        (String (ascii_of_nat ((s2 mod 16) * 16 + s3 / 4))
           (String (ascii_of_nat ((s3 mod 4) * 64 + s4)) (b64_bytes rest)))
  | [s1; s2; s3] =>
      String (ascii_of_nat (s1 * 4 + s2 / 16))
        (String (ascii_of_nat ((s2 mod 16) * 16 + s3 / 4)) EmptyString)
  | [s1; s2] => String (ascii_of_nat (s1 * 4 + s2 / 16)) EmptyString
  | _ => EmptyString
  end%nat.

(** [Buffer.from(s, 'base64').toString()]: the decoded bytes.  The
    UTF-8 decoding of [toString] returns bytes below 0x80 as they are
    ([ascii_text] below); it turns other bytes into characters that
    strings here do not hold. *)
Definition base64_decode (s : string) : string := b64_bytes (b64_sextets s).

(** [s.split(sep)] for a one-character separator. *)
Fixpoint split_on (sep : ascii) (s : string) : list string :=
  match s with
  | String c rest =>
      if Ascii.eqb c sep then EmptyString :: split_on sep rest
      else match split_on sep rest with
           | h :: t => String c h :: t
           | [] => [String c EmptyString]
           end
  | EmptyString => [EmptyString]
  end.

(* ================================================================== *)
(** ** services/apiClient.js *)

(** A header used as a condition: absent and empty are falsy. *)
Definition header_truthy (v : option string) : bool :=
  match v with
  | Some s => str_truthy s
  | None => false
  end.

(** [handleRateLimitHeaders(response)] *)
Definition handleRateLimitHeaders (response : http_response)
  : M http_response :=
  let h := resp_headers response in
  (if header_truthy (header h "x-ratelimit-remaining") then
     RateLimiter_update (parseInt (header h "x-ratelimit-remaining"))
                        (parseInt (header h "x-ratelimit-reset"))
                        (parseInt (header h "x-ratelimit-limit"))
   else ret tt) ;;
  ret response.

(** [error.response.headers['x-ratelimit-resetafter'] || 60]: the header
    text, or the number 60. *)
Definition retryAfter_of (h : headers) : string + Z :=
  match header h "x-ratelimit-resetafter" with
  | Some s => if str_truthy s then inl s else inr 60
  | None => inr 60
  end.

Definition retryAfter_text (r : string + Z) : string :=
  match r with
  | inl s => s
  | inr z => show_Z z
  end.

(** [retryAfter * 1000] *)
Definition retryAfter_ms (r : string + Z) : jsnum :=
  js_mul (match r with inl s => to_number s | inr z => Num z end) (Num 1000).

(** [handleApiError(error)], the rejection interceptor.  [request]
    stands for [this.axiosInstance.request]. *)
Definition handleApiError (request : request_config -> M http_response)
           (error : js_error) : M http_response :=
  match error with
  | AxiosError _ config (Some response) =>
      if status response =? 429 then
        let retryAfter := retryAfter_of (resp_headers response) in
        logger LWarn
          ("Rate limited. Waiting " ++ retryAfter_text retryAfter ++ " seconds")
          NoMeta ;;
        sleep (retryAfter_ms retryAfter) ;;
        request config
      else throw error
  | _ => throw error
  end.

(** The transport: the request goes out and the next entry of
    [net_script] comes back; a provider that has stopped answering
    gives no response. *)
Definition adapter (config : request_config) : M net_outcome :=
  fun w =>
    match net_script w with
    | o :: later =>
        (Ok o, emit (EvExchange config o) (set_net_script later w))
    | [] =>
        let o := NetworkError "timeout of 30000ms exceeded" in
        (Ok o, emit (EvExchange config o) w)
    end.

(** axios settles a response with a 2xx status as fulfilled. *)
Definition validateStatus (s : Z) : bool := (200 <=? s) && (s <? 300).

(** [axiosInstance.request(config)] with the two response interceptors
    installed by the constructor.  The request issued from inside
    [handleApiError] runs through the same interceptors; [retries]
    bounds how many times that can happen and is set by
    [axiosInstance_request] to the number of answers the provider still
    has, each retry using one up. *)
Fixpoint axios_request (retries : nat) (config : request_config)
  : M http_response :=
  outcome <- adapter config ;;
  let again :=
    match retries with
    | S n => axios_request n
    | O => fun _ => throw (Error "unreachable")
    end in
  match outcome with
  | Http r =>
      if validateStatus (status r) then handleRateLimitHeaders r
      else
        handleApiError again
          (AxiosError ("Request failed with status code " ++ show_Z (status r))
                      config (Some r))
  | NetworkError m => handleApiError again (AxiosError m config None)
  end.

Definition axiosInstance_request (config : request_config)
  : M http_response :=
  fun w => axios_request (List.length (net_script w)) config w.

(** [axiosInstance.post(url, { query, variables })] *)
Definition axiosInstance_post (config : request_config) : M http_response :=
  fun w => axiosInstance_request config (emit (EvPost config) w).

(** [variables.after] built by [fetchNationsBatch] from its [offset]. *)
Definition after_of_offset (offset : jsnum) : option string :=
  if js_gt offset (Num 0)
  then Some (base64_encode ("arrayconnection:" ++ show_num offset))
  else None.

(** [fetchNationsBatch(offset = 0, limit = 500)]; the value returned is
    [response.data.data.nations], possibly [undefined]. *)
Definition fetchNationsBatch (offset : jsnum) (limit : Z)
  : M (option nations_connection) :=
  try_catch
    (waitIfNeeded ;;
     response <- axiosInstance_post
                   (FetchNations limit (after_of_offset offset)) ;;
     if gql_errors (resp_data response) then
       logger LError "GraphQL errors" NoMeta ;;
       throw (Error "GraphQL query failed")
     else
       match gql_data (resp_data response) with
       | Some connection => ret connection
       | None =>
           throw (TypeError
                    "Cannot read properties of undefined (reading 'nations')")
       end)
    (fun error =>
       logger LError "Failed to fetch nations batch"
         (MetaPage offset limit (error_text error)) ;;
       throw error).

Definition batchSize : nat := 100.

(** [for (let i = 0; i < nationIds.length; i += batchSize)
       batches.push(nationIds.slice(i, i + batchSize))];
    [steps] bounds the number of iterations. *)
Fixpoint make_batches_from (steps : nat) (i : nat) (nationIds : list Z)
  : list (list Z) :=
  match steps with
  | O => []
  | S steps' =>
      if (i <? List.length nationIds)%nat then
        firstn batchSize (skipn i nationIds)
          :: make_batches_from steps' (i + batchSize) nationIds
      else []
  end.

Definition make_batches (nationIds : list Z) : list (list Z) :=
  make_batches_from (List.length nationIds) 0 nationIds.

(** The body of the loop over [batches]; [results] is the array built
    so far. *)
Definition fetch_batch (batch : list Z) (results : list api_nation)
  : M (list api_nation) :=
  try_catch
    (waitIfNeeded ;;
     response <- axiosInstance_post (FetchSpecificNations batch) ;;
     match gql_data (resp_data response) with
     | Some (Some connection) =>
         match conn_data connection with
         | Some data => ret (results ++ data)
         | None => ret results
         end
     | _ => ret results
     end)
    (fun error =>
       logger LError "Failed to fetch specific nations"
         (MetaBatch (firstn 5 batch) (error_text error)) ;;
       ret results).

(** [fetchSpecificNations(nationIds)] *)
Definition fetchSpecificNations (nationIds : list Z) : M (list api_nation) :=
  for_of_acc (make_batches nationIds) [] fetch_batch.

(* ================================================================== *)
(** ** services/scanner.js *)

Definition pad2 (n : Z) : string :=
  if n <? 10 then "0" ++ show_Z n else show_Z n.

(** [HH:MM:SS] of the local time value [ms] (milliseconds). *)
Definition timeOnly_of (ms : Z) : string :=
  pad2 ((ms / 3600000) mod 24) ++ ":" ++ pad2 ((ms / 60000) mod 60)
    ++ ":" ++ pad2 ((ms / 1000) mod 60).

(** [resetTime.toTimeString().split(' ')[0]] for the instant [ms] on
    the host of [w]: the time of day in the server's zone. *)
Definition timeOnly_at (w : World) (ms : Z) : string :=
  timeOnly_of (LocalTime (server_zone w) ms).

(** [recordResetTime(nationId)] *)
Definition recordResetTime (nationId : Z) : M unit :=
  fun w =>
    (resetTime <- Date_now ;;
     let timeOnly := timeOnly_at w resetTime in
     try_catch
       (db_query (UpsertResetTime nationId timeOnly resetTime) ;;
        logger LInfo
          ("Reset time detected for nation " ++ show_Z nationId ++ ": "
             ++ timeOnly) NoMeta)
       (fun error =>
          logger LError
            ("Failed to record reset time for nation " ++ show_Z nationId)
            (MetaError error))) w.

(** The condition guarding [recordResetTime] in [processResults]. *)
Definition reset_detected (lastScan : list (bool * Z)) (nation : api_nation)
  : bool :=
  match lastScan with
  | (prior, _) :: _ =>
      negb prior && match espionage_available nation with
                    | Some b => b
                    | None => false
                    end
  | [] => false
  end.

(** The [try] block of [processResults] for one [nation]. *)
Definition process_nation (nation : api_nation) : M unit :=
  lastScan <- db_query (SelectLastScan (id nation)) ;;
  db_query (InsertScanHistory (id nation) (espionage_available nation)) ;;
  (if reset_detected (scan_rows lastScan) nation
   then recordResetTime (id nation)
   else ret tt) ;;
  db_query (UpdateNationActivity (last_active nation) (id nation)) ;;
  ret tt.

(** One iteration of the loop of [processResults]: the [try] block and
    its [catch]. *)
Definition process_entry (nation : api_nation) : M unit :=
  try_catch (process_nation nation)
    (fun error =>
       logger LError
         ("Failed to process nation " ++ show_Z (id nation))
         (MetaError error)).

(** [processResults(apiResults)] *)
Definition processResults (apiResults : list api_nation) : M unit :=
  for_of apiResults process_entry.

(** [getNationsToScan()] *)
Definition getNationsToScan : M (list (Z * string)) :=
  result <- db_query SelectNationsToScan ;;
  ret (candidate_rows result).

(** [error.stack], frames left out. *)
Definition error_stack (e : js_error) : string := "Error: " ++ error_text e.

(** [logError(type, message, stackTrace, context = {})] *)
Definition logError (type message stackTrace : string) : M unit :=
  try_catch
    (db_query (InsertErrorLog type message stackTrace "{}") ;; ret tt)
    (fun err => logger LError "Failed to log error to database" (MetaError err)).

(** [performScan()] *)
Definition performScan : M unit :=
  startTime <- Date_now ;;
  logger LInfo "Starting scan cycle" NoMeta ;;
  try_catch
    (nationsToScan <- getNationsToScan ;;
     match nationsToScan with
     | [] => logger LInfo "No nations to scan" NoMeta
     | _ :: _ =>
         logger LInfo
           ("Scanning " ++ show_Z (Z.of_nat (List.length nationsToScan))
              ++ " nations") NoMeta ;;
         let nationIds := map fst nationsToScan in
         apiResults <- fetchSpecificNations nationIds ;;
         processResults apiResults ;;
         now <- Date_now ;;
         logger LInfo
           ("Scan completed in " ++ show_Z (now - startTime) ++ "ms") NoMeta
     end)
    (fun error =>
       logger LError "Scan cycle failed" (MetaError error) ;;
       logError "SCAN_CYCLE_ERROR" (error_text error) (error_stack error)).

(** [cursor ? parseInt(Buffer.from(cursor, 'base64').toString()
                         .split(':')[1]) : 0] *)
Definition cursor_offset (cursor : option string) : jsnum :=
  match cursor with
  | Some c =>
      if str_truthy c then
        parseInt (nth_error (split_on ":" (base64_decode c)) 1)
      else Num 0
  | None => Num 0
  end.

(** What [initializeNations] does at the end, whatever ended the loop. *)
Definition initialization_complete (totalNations : Z) : M unit :=
  logger LInfo
    ("Nation initialization complete. Total: " ++ show_Z totalNations) NoMeta.

(** The [try] block of the loop of [initializeNations] up to the
    import of the page, with the [catch]: the entities stored and the
    response, or nothing after a failure. *)
Definition import_page (cursor : option string)
  : M (option (list api_nation * option nations_connection)) :=
  try_catch
    (response <- fetchNationsBatch (cursor_offset cursor) 500 ;;
     data <- match response with
             | Some connection =>
                 match conn_data connection with
                 | Some d => ret d
                 | None => throw (TypeError "response.data is not iterable")
                 end
             | None =>
                 throw (TypeError
                   "Cannot read properties of undefined (reading 'data')")
             end ;;
     for_of data (fun nation => db_query (UpsertNation nation) ;; ret tt) ;;
     ret (Some (data, response)))
    (fun error =>
       logger LError "Failed to initialize nations" (MetaError error) ;;
       ret None).

(** The [while (hasMore)] loop of [initializeNations], entered with
    [hasMore] true.  Inside the [try], [totalNations] is updated after
    the page is stored and before [response.paginatorInfo] is read, so
    the page is imported in a first step ([import_page]) and the
    paginator read in a second one; a failure of either ends the loop
    the same way.  [pages] bounds the number of iterations. *)
Fixpoint initializeNations_loop (pages : nat) (cursor : option string)
         (totalNations : Z) : M unit :=
  match pages with
  | O => initialization_complete totalNations
  | S pages' =>
      imported <- import_page cursor ;;
      match imported with
      | None => initialization_complete totalNations
      | Some (data, response) =>
          let totalNations' := totalNations + Z.of_nat (List.length data) in
          match match response with
                | Some connection => conn_paginatorInfo connection
                | None => None
                end with
          | None =>
              logger LError "Failed to initialize nations"
                (MetaError
                   (TypeError
                      "Cannot read properties of undefined (reading 'hasNextPage')")) ;;
              initialization_complete totalNations'
          | Some paginatorInfo =>
              logger LInfo
                ("Initialized " ++ show_Z totalNations' ++ " nations") NoMeta ;;
              if hasNextPage paginatorInfo
              then initializeNations_loop pages' (endCursor paginatorInfo)
                     totalNations'
              else initialization_complete totalNations'
          end
      end
  end.

(** [initializeNations()]: every further iteration needs one more
    answer from the provider. *)
Definition initializeNations : M unit :=
  fun w =>
    (logger LInfo "Initializing nations database" NoMeta ;;
     initializeNations_loop (S (List.length (net_script w))) None 0) w.

(* ================================================================== *)
(** ** Reading the trace and the tables *)

(** Requests put on the wire, in order. *)
Definition exchanges_of (evs : list event) : list request_config :=
  flat_map (fun e => match e with EvExchange c _ => [c] | _ => [] end) evs.

(** Calls of [axiosInstance.post], in order. *)
Definition posts_of (evs : list event) : list request_config :=
  flat_map (fun e => match e with EvPost c => [c] | _ => [] end) evs.

(** Delays slept, in order. *)
Definition sleeps_of (evs : list event) : list jsnum :=
  flat_map (fun e => match e with EvSleep ms => [ms] | _ => [] end) evs.

(** Statements handed to the pool, in order. *)
Definition queries_of (evs : list event) : list sql :=
  flat_map (fun e => match e with EvQuery q _ => [q] | _ => [] end) evs.

(** Entities whose latest scan was looked up, in order. *)
Definition last_scan_lookups (evs : list event) : list Z :=
  flat_map (fun e => match e with
                     | EvQuery (SelectLastScan i) _ => [i]
                     | _ => []
                     end) evs.

(** Calls of [logger.error], in order. *)
Definition errors_logged (evs : list event) : list (string * log_meta) :=
  flat_map (fun e => match e with
                     | EvLog LError m meta => [(m, meta)]
                     | _ => []
                     end) evs.

(** A statement that writes to a table. *)
Definition is_write (q : sql) : bool :=
  match q with
  | SelectNationsToScan | SelectLastScan _ => false
  | _ => true
  end.

(** No coming statement is rejected by the pool. *)
Definition fault_free (w : World) : bool := forallb negb (db_faults w).

(** The rows of [h], each stamped later than the one before and all
    before [now]. *)
Fixpoint ascending_below (h : list scan_row) (now : Z) : bool :=
  match h with
  | [] => true
  | r :: rest =>
      match rest with
      | [] => scanned_at r <? now
      | r' :: _ => (scanned_at r <? scanned_at r') && ascending_below rest now
      end
  end.

(** The history was written by statements of distinct server times, all
    in the past. *)
Definition chronological (w : World) : bool :=
  ascending_below (scan_history (db w)) (clock w).

Fixpoint insert_by_stamp (r : scan_row) (l : list scan_row)
  : list scan_row :=
  match l with
  | [] => [r]
  | x :: rest =>
      if scanned_at r <=? scanned_at x then r :: l
      else x :: insert_by_stamp r rest
  end.

(** The observations of entity [i], ordered by timestamp (rows of equal
    stamp in their stored order). *)
Definition scan_sequence (i : Z) (d : Database) : list scan_row :=
  fold_right insert_by_stamp []
    (filter (fun r => sh_nation_id r =? i) (scan_history d)).

(** Two neighbours of the sequence with flags false then true. *)
Fixpoint false_then_true (l : list scan_row) : bool :=
  match l with
  | a :: rest =>
      match rest with
      | b :: _ =>
          (negb (sh_espionage_available a) && sh_espionage_available b)
          || false_then_true rest
      | [] => false
      end
  | [] => false
  end.

Definition has_transition (i : Z) (d : Database) : bool :=
  false_then_true (scan_sequence i d).

(** The last row of a sequence. *)
Fixpoint last_row (l : list scan_row) : option scan_row :=
  match l with
  | [] => None
  | r :: rest =>
      match rest with
      | [] => Some r
      | _ :: _ => last_row rest
      end
  end.

(** [a] was stamped before [b]. *)
Definition earlier (a b : scan_row) : Prop := scanned_at a < scanned_at b.

(** The reset records of entity [i]. *)
Definition reset_records_of (i : Z) (d : Database) : list reset_row :=
  filter (fun r => rt_nation_id r =? i) (reset_times d).

(** What the next exchange yields in [w]. *)
Definition next_outcome (script : list net_outcome) : net_outcome :=
  hd (NetworkError "timeout of 30000ms exceeded") script.

(** Total of the delays, in milliseconds, that Node sets for the given
    sleeps. *)
Definition total_delay (delays : list jsnum) : Z :=
  fold_right (fun ms acc => timer_delay ms + acc) 0 delays.

(** No coming timer fires early. *)
Definition timers_not_early (w : World) : Prop :=
  Forall (fun skew => 0 <= skew) (timers w).

(** The delay slept on a throttling response. *)
Definition throttle_delay (r : http_response) : jsnum :=
  retryAfter_ms (retryAfter_of (resp_headers r)).



(** [response.data.data?.nations?.data], or nothing. *)
Definition entities_of (response : http_response) : list api_nation :=
  match gql_data (resp_data response) with
  | Some (Some connection) =>
      match conn_data connection with
      | Some data => data
      | None => []
      end
  | _ => []
  end.

(** A throttling answer, which the client retries. *)
Definition throttling (o : net_outcome) : bool :=
  match o with
  | Http r => status r =? 429
  | NetworkError _ => false
  end.

(** The outcome that settles the next request against [script]: the
    first one that is not a throttling answer (no response once the
    script is used up), with what is left of the script after it. *)
Fixpoint settle (script : list net_outcome)
  : net_outcome * list net_outcome :=
  match script with
  | o :: later => if throttling o then settle later else (o, later)
  | [] => (NetworkError "timeout of 30000ms exceeded", [])
  end.

(** The outcomes that settle [n] requests made one after the other. *)
Fixpoint settlements (n : nat) (script : list net_outcome)
  : list net_outcome :=
  match n with
  | O => []
  | S n' => fst (settle script) :: settlements n' (snd (settle script))
  end.

(** How a request for [config] settled by [o] ends: axios fulfils a 2xx
    response and rejects everything else. *)
Definition settled (config : request_config) (o : net_outcome)
  : result http_response :=
  match o with
  | Http r =>
      if validateStatus (status r) then Ok r
      else Throw (AxiosError
                    ("Request failed with status code " ++ show_Z (status r))
                    config (Some r))
  | NetworkError m => Throw (AxiosError m config None)
  end.

(** What a batch whose request is settled by [o] adds to the result of
    [fetchSpecificNations], and to the error log. *)
Definition batch_entities (o : net_outcome) : list api_nation :=
  match o with
  | Http r => if validateStatus (status r) then entities_of r else []
  | NetworkError _ => []
  end.

Definition batch_errors (batch : list Z) (o : net_outcome)
  : list (string * log_meta) :=
  match settled (FetchSpecificNations batch) o with
  | Ok _ => []
  | Throw e =>
      [("Failed to fetch specific nations",
        MetaBatch (firstn 5 batch) (error_text e))]
  end.

(** Every reset record is backed by a false-then-true pair of
    neighbouring observations. *)
Definition resets_justified (d : Database) : Prop :=
  forall i, has_reset i d = true -> has_transition i d = true.

(** An entity has a reset record exactly when its sequence has such a
    pair. *)
Definition resets_exact (d : Database) : Prop :=
  forall i, has_reset i d = has_transition i d.

(** At most one reset record per entity. *)
Definition resets_unique (d : Database) : Prop :=
  forall i, (List.length (reset_records_of i d) <= 1)%nat.

(** What the page request built from a stored cursor carries as
    [after]. *)
Definition replayed_token (cursor : option string) : option string :=
  after_of_offset (cursor_offset cursor).

(** Every character of [s] is below U+0080. *)
Fixpoint ascii_text (s : string) : bool :=
  match s with
  | String c rest => (nat_of_ascii c <? 128)%nat && ascii_text rest
  | EmptyString => true
  end.

(** The cursors whose reading by the loop is followed exactly: the
    decoded bytes are ASCII, so that [toString] returns them as they
    are, and the offset read is one that a double holds exactly. *)
Definition cursor_in_range (cursor : option string) : Prop :=
  match cursor with
  | Some c =>
      ascii_text (base64_decode c) = true
      /\ match cursor_offset cursor with
         | Num n => Z.abs n < 2 ^ 53
         | NaN => True
         end
  | None => True
  end.

(** [s] is made of [k] decimal digits whose value is [v]. *)
Definition reads_as (s : string) (k v : Z) : Prop :=
  0 <= k /\ all_digits s = true
  /\ forall a, read_digits 10 s (Some a) = Some (a * 10 ^ k + v).

(** What a statement yields in [w] and the tables it leaves. *)
Definition query_outcome (text : sql) (w : World) : result rows * Database :=
  if hd false (db_faults w) then
    (Throw (DbError "connection terminated"), db w)
  else
    match exec_sql (clock w) text (db w) with
    | Some (r, d') => (Ok r, d')
    | None => (Throw (DbError "violates constraint"), db w)
    end.

(** What [db.query] adds to the trace. *)
Definition query_events (text : sql) (w : World) : list event :=
  match fst (query_outcome text w) with
  | Ok _ =>
      [EvQuery text true;
       EvLog LDebug "Executed query" (MetaQuery text None)]
  | Throw e =>
      [EvQuery text false;
       EvLog LError "Database query error"
         (MetaQuery text (Some (error_text e)))]
  end.

(** [w1] is [w] one statement later, with tables [d] and [evs] more in
    the trace. *)
Definition after_statement (w w1 : World) (d : Database) (evs : list event)
  : Prop :=
  db w1 = d /\ clock w1 = clock w + 1 /\ db_faults w1 = tl (db_faults w)
  /\ net_script w1 = net_script w /\ rateLimiter w1 = rateLimiter w
  /\ trace w1 = trace w ++ evs.

(** A world with the given tables, clock and environment, timers that
    fire on time, a server on UTC, a freshly constructed rate limiter
    and nothing done yet. *)
Definition world_of (d : Database) (now : Z) (faults : list bool)
           (script : list net_outcome) : World :=
  {| db := d; clock := now; db_faults := faults; net_script := script;
     timers := []; server_zone := fixed_zone 0;
     rateLimiter := new_RateLimiter; trace := [] |}.

Definition empty_database : Database :=
  {| nations := []; reset_times := []; scan_history := []; error_logs := [] |}.

(* ================================================================== *)
(** ** Worlds used in examples *)

(** A limiter with 5 requests left whose window resets 30 seconds after
    the clock reading 1 000 000 ms. *)
Definition world_near_limit : World :=
  set_rateLimiter
    {| remaining := Num 5; resetTime := Some (Num 1030000);
       limit := Num 1000; minBuffer := 10 |}
    (world_of empty_database 1000000000 [] []).

(** The same limiter, its window resetting 2^31 ms after the clock
    reading. *)
Definition world_far_reset : World :=
  set_rateLimiter
    {| remaining := Num 5; resetTime := Some (Num (1000000 + 2147483648));
       limit := Num 1000; minBuffer := 10 |}
    (world_of empty_database 1000000000 [] []).

(** A body carrying the entities [data] and no paginator. *)
Definition body_of (data : list api_nation) : gql_body :=
  {| gql_errors := false;
     gql_data := Some (Some {| conn_data := Some data;
                               conn_paginatorInfo := None |}) |}.


(** A successful answer without rate-limit headers. *)
Definition ok_response (data : list api_nation) : http_response :=
  {| status := 200; resp_headers := []; resp_data := body_of data |}.


(** An entity of the provider with flag [flag]. *)
Definition nation_of (i : Z) (flag : bool) : api_nation :=
  {| id := i; nation_name := "nation " ++ show_Z i; leader_name := "";
     alliance_id := 0; espionage_available := Some flag; last_active := 0 |}.

(** The ids 1 .. 250. *)
Definition ids_250 : list Z := map Z.of_nat (seq 1 250).

(** The provider serves the first request, drops the second and serves
    the third. *)
Definition world_middle_batch_fails : World :=
  world_of empty_database 0 []
    [Http (ok_response (map (fun i => nation_of i true)
                            (firstn 100 ids_250)));
     NetworkError "socket hang up";
     Http (ok_response (map (fun i => nation_of i true)
                            (skipn 200 ids_250)))].

Definition known_nation (i : Z) : nation_row :=
  {| n_id := i; n_nation_name := "nation " ++ show_Z i; n_leader_name := "";
     n_alliance_id := 0; n_last_active := 0; n_updated_at := 0 |}.

(** Entities 555 and 556 are known; 555 was last seen, at time 10, with
    its flag down; no reset is recorded. *)
Definition db_flag_down : Database :=
  {| nations := [known_nation 555; known_nation 556];
     reset_times := [];
     scan_history := [{| sh_nation_id := 555;
                         sh_espionage_available := false;
                         scanned_at := 10 |}];
     error_logs := [] |}.

(** The pool rejects the second statement to come. *)
Definition world_insert_rejected : World :=
  world_of db_flag_down 1000 [false; true] [].

(** The pool rejects the third statement to come. *)
Definition world_upsert_rejected : World :=
  world_of db_flag_down 1000 [false; false; true; false] [].

(** Nothing is rejected. *)
Definition world_flag_down : World := world_of db_flag_down 1000 [] [].

(** The same tables on a server five hours behind UTC, at 22:13:20
    UTC. *)
Definition world_behind_utc : World :=
  set_server_zone (fixed_zone (-18000000))
    (world_of db_flag_down 80000000000 [] []).

(** A page of the catalogue with rate-limit headers. *)
Definition page_response (data : list api_nation) (more : bool)
           (cursor : option string) : http_response :=
  {| status := 200;
     resp_headers := [("x-ratelimit-remaining", "900");
                      ("x-ratelimit-reset", "1700000000");
                      ("x-ratelimit-limit", "1000")];
     resp_data :=
       {| gql_errors := false;
          gql_data :=
            Some (Some {| conn_data := Some data;
                          conn_paginatorInfo :=
                            Some {| hasNextPage := more;
                                    endCursor := cursor |} |}) |} |}.

(** The provider hands out the cursor [Y3Vyc29yOjUwMA==] (the base64 of
    [cursor:500]) with the first of two pages. *)
Definition world_other_cursor : World :=
  world_of empty_database 0 []
    [Http (page_response [nation_of 1 true] true (Some "Y3Vyc29yOjUwMA=="));
     Http (page_response [nation_of 2 true] false None)].

(* ================================================================== *)
(** ** More JavaScript arithmetic *)

(** [Math.floor(a / d)] for a positive integer [d]. *)
Definition js_floor_div (a : jsnum) (d : Z) : jsnum :=
  match a with
  | Num x => Num (x / d)
  | NaN => NaN
  end.

(** [a % d]: the remainder has the sign of [a]. *)
Definition js_rem (a : jsnum) (d : Z) : jsnum :=
  match a with
  | Num x => Num (Z.rem x d)
  | NaN => NaN
  end.

(* ================================================================== *)
(** ** components/ResetTimeDisplay.jsx *)

(** [parts.map(Number)[k]]; a part that is missing is [undefined],
    which [setHours] reads as [NaN]. *)
Definition part_number (parts : list string) (k : nat) : jsnum :=
  match nth_error parts k with
  | Some s => to_number s
  | None => NaN
  end.

(** [d.setHours(h, m, s, 0)] on a date of time value [t], in the zone
    of the browser: [MakeDate(Day(LocalTime(t)), MakeTime(h, m, s, 0))]
    turned back into an instant, the time value of [h:m:s.000] on the
    local day of [t]. *)
Definition setHours (zone : time_zone) (t : Z) (h m s : jsnum) : jsnum :=
  match h, m, s with
  | Num h, Num m, Num s =>
      TimeClip (UTC zone (LocalTime zone t / msPerDay * msPerDay
                          + (h * 3600000 + m * 60000 + s * 1000 + 0)))
  | _, _, _ => NaN
  end.

(** [d.setDate(d.getDate() + 1)]: the same local time of day on the
    next local day; an invalid date stays invalid. *)
Definition setDate_next (zone : time_zone) (d : jsnum) : jsnum :=
  match d with
  | Num t => TimeClip (UTC zone (LocalTime zone t + msPerDay))
  | NaN => NaN
  end.

(** [calculateTimeUntilReset(resetTime)] in a browser of time zone
    [zone]; [now] and [today] are the readings of the two [new Date()],
    [None] is [null]. *)
Definition calculateTimeUntilReset (zone : time_zone) (now today : Z)
           (resetTime : option string) : option string :=
  match resetTime with
  | None => None
  | Some text =>
      if negb (str_truthy text) then None
      else
        let parts := split_on ":" text in
        let hours := part_number parts 0 in
        let minutes := part_number parts 1 in
        let seconds := part_number parts 2 in
        let resetToday := setHours zone today hours minutes seconds in
        let targetReset :=
          if js_gt (Num now) resetToday
          then setDate_next zone resetToday
          else resetToday in
        let timeDiff := js_sub targetReset (Num now) in
        let hoursLeft := js_floor_div timeDiff (1000 * 60 * 60) in
        let minutesLeft :=
          js_floor_div (js_rem timeDiff (1000 * 60 * 60)) (1000 * 60) in
        Some (show_num hoursLeft ++ "h " ++ show_num minutesLeft ++ "m")%string
  end.

(** The zone keeps the offset [tz] over the local days [D] and [D + 1]:
    for every local time value [L] on them, and at the instant that is
    [L] under that offset. *)
Definition steady_zone (zone : time_zone) (tz D : Z) : Prop :=
  forall L, D * msPerDay <= L < (D + 2) * msPerDay ->
            utc_offset zone (L - tz) = tz /\ local_offset zone L = tz.

(** New York around the end of daylight saving time in 2023: four hours
    behind UTC until 2023-11-05 06:00 UTC, five hours from then on.  The
    local hour from 01:00 to 02:00 of that day occurs twice and is read
    as its first occurrence. *)
Definition new_york_2023 : time_zone :=
  {| utc_offset := fun t =>
       if t <? 1699164000000 then -14400000 else -18000000;
     local_offset := fun t =>
       if t <? 1699164000000 - 14400000 then -14400000 else -18000000 |}.

(** The time of day, in milliseconds, of the second that the local time
    value [ms] falls in. *)
Definition time_of_day (ms : Z) : Z := (ms / 1000) mod 86400 * 1000.

(* ================================================================== *)
(** ** services/scanner.js: starting and stopping *)

(** The fields of a [NationScanner] next to its client; [scanInterval]
    is [null] or the timer set by [setInterval], kept as its period in
    milliseconds. *)
Record NationScanner : Type := {
  isScanning : bool;
  scanInterval : option Z
}.

(** [new NationScanner()] *)
Definition new_NationScanner : NationScanner :=
  {| isScanning := false; scanInterval := None |}.

(** [start()]: the outcome, the scanner as the call leaves it, and the
    world.  The timer is registered; what it does when it fires is not
    part of the call. *)
Definition start (this : NationScanner) (w : World)
  : result unit * NationScanner * World :=
  if isScanning this then
    (Ok tt, this, emit (EvLog LWarn "Scanner already running" NoMeta) w)
  else
    let scanning := {| isScanning := true;
                       scanInterval := scanInterval this |} in
    match performScan
            (emit (EvLog LInfo "Starting nation scanner" NoMeta) w) with
    | (Ok _, w') =>
        (Ok tt,
         {| isScanning := true; scanInterval := Some (60 * 60 * 1000) |}, w')
    | (Throw e, w') => (Throw e, scanning, w')
    end.

(** [stop()] *)
Definition stop (this : NationScanner) (w : World)
  : result unit * NationScanner * World :=
  let cleared :=
    match scanInterval this with
    | Some _ => {| isScanning := isScanning this; scanInterval := None |}
    | None => this
    end in
  (Ok tt, {| isScanning := false; scanInterval := scanInterval cleared |},
   emit (EvLog LInfo "Scanner stopped" NoMeta) w).

(** Calls made on a scanner. *)
Inductive scanner_call : Type := CallStart | CallStop.

(** The calls of [calls] made one after the other, each awaited. *)
Fixpoint run_calls (calls : list scanner_call) (this : NationScanner)
         (w : World) : NationScanner * World :=
  match calls with
  | [] => (this, w)
  | c :: rest =>
      let '(_, this', w') :=
        match c with
        | CallStart => start this w
        | CallStop => stop this w
        end in
      run_calls rest this' w'
  end.

(** The timer is set exactly when the scanner says it is scanning. *)
Definition timer_matches_flag (this : NationScanner) : bool :=
  Bool.eqb (isScanning this)
           (match scanInterval this with Some _ => true | None => false end).

(* ================================================================== *)
(** ** The bot's [/reset] command ([handleResetCommand]) *)

(** [/^\d+$/.test(s)] *)
Definition digits_only (s : string) : bool := str_truthy s && all_digits s.

(** How the command looks a nation up: [WHERE n.id = $1] with a number,
    or [WHERE n.nation_name ILIKE $1] with a pattern. *)
Inductive reset_lookup : Type :=
| LookupById (id : jsnum)
| LookupByName (pattern : string).

(** The statement and parameter chosen for the text typed by the
    user. *)
Definition reset_command_lookup (nationInput : string) : reset_lookup :=
  if digits_only nationInput
  then LookupById (parseInt_string nationInput)
  else LookupByName ("%" ++ nationInput ++ "%").

(* ================================================================== *)
(** ** Relations between the world before and after a call *)

(** [m] takes every world to one related to it by [R]. *)
Definition preserves {A : Type} (R : World -> World -> Prop) (m : M A)
  : Prop :=
  forall w, R w (run_world m w).

(** The provider side of [w'] is that of [w]: same script, same
    limiter, and nothing posted, sent or slept in between. *)
Definition provider_untouched (w w' : World) : Prop :=
  net_script w' = net_script w /\ rateLimiter w' = rateLimiter w
  /\ posts_of (trace w') = posts_of (trace w)
  /\ exchanges_of (trace w') = exchanges_of (trace w)
  /\ sleeps_of (trace w') = sleeps_of (trace w).

(** The storage side of [w'] is that of [w]: same tables, same faults
    to come, no statement issued in between. *)
Definition storage_untouched (w w' : World) : Prop :=
  db w' = db w /\ db_faults w' = db_faults w
  /\ queries_of (trace w') = queries_of (trace w).

(** No call of [logger.error] between [w] and [w']. *)
Definition no_error_logged (w w' : World) : Prop :=
  errors_logged (trace w') = errors_logged (trace w).

(** The tables of [w'] still hold what those of [w] held: every entity
    with a reset record has one, the history is extended at its end, and
    the nations are the same ones, in the same order. *)
Definition keeps_scan_data (w w' : World) : Prop :=
  (forall i, has_reset i (db w) = true -> has_reset i (db w') = true)
  /\ (exists added, scan_history (db w') = scan_history (db w) ++ added)
  /\ map n_id (nations (db w')) = map n_id (nations (db w)).

(** The statements of a scan cycle. *)
Definition scan_statement (q : sql) : bool :=
  match q with
  | UpsertNation _ => false
  | _ => true
  end.

(** The statements that leave [error_logs] alone. *)
Definition not_error_log (q : sql) : bool :=
  match q with
  | InsertErrorLog _ _ _ _ => false
  | _ => true
  end.

(** Nothing was added to [error_logs] between [w] and [w'], and no
    statement tried to. *)
Definition error_logs_untouched (w w' : World) : Prop :=
  error_logs (db w') = error_logs (db w)
  /\ exists evs, trace w' = trace w ++ evs
                 /\ forallb not_error_log (queries_of evs) = true.

(** The statement of the bootstrap, and the reads. *)
Definition bootstrap_statement (q : sql) : bool :=
  match q with
  | UpsertNation _ | SelectNationsToScan | SelectLastScan _ => true
  | _ => false
  end.

(** Between [w] and [w'] only the table of nations changed, no nation
    was dropped, and ids that were distinct still are. *)
Definition only_nations_grew (w w' : World) : Prop :=
  reset_times (db w') = reset_times (db w)
  /\ scan_history (db w') = scan_history (db w)
  /\ error_logs (db w') = error_logs (db w)
  /\ (forall j, has_nation j (db w) = true -> has_nation j (db w') = true)
  /\ (NoDup (map n_id (nations (db w))) ->
      NoDup (map n_id (nations (db w')))).

(* ================================================================== *)
(** ** More readings of the tables and the trace *)

(** [a] was active at least as recently as [b]. *)
Definition at_least_as_active (a b : nation_row) : Prop :=
  n_last_active b <= n_last_active a.

(** The rows behind [select_nations_to_scan]. *)
Definition rows_to_scan (now : Z) (d : Database) : list nation_row :=
  firstn 5000
    (order_by_last_active_desc (filter (is_candidate now d) (nations d))).

(** The world in which [performScan] has its candidates, the candidate
    statement being executed. *)
Definition candidates_read (w : World) : World :=
  emit (EvLog LDebug "Executed query" (MetaQuery SelectNationsToScan None))
    (emit (EvQuery SelectNationsToScan true)
       (set_clock (clock w + 1)
          (set_db_faults (tl (db_faults w))
             (emit (EvLog LInfo "Starting scan cycle" NoMeta) w)))).

(** The table of nations after the entities of [data] are upserted one
    statement after the other, the first at server time [now]. *)
Fixpoint upsert_all (now : Z) (data : list api_nation)
         (table : list nation_row) : list nation_row :=
  match data with
  | [] => table
  | n :: rest => upsert_all (now + 1) rest (upsert_nation now n table)
  end.


(* ================================================================== *)
(** ** More worlds used in examples *)

(** Nothing stored, nothing to come, the clock at the epoch. *)
Definition world_at_epoch : World := world_of empty_database 0 [] [].

(** A response announcing 5 requests left until the window resets at
    second 1 700 000 000. *)
Definition near_limit_response : http_response :=
  {| status := 200;
     resp_headers := [("x-ratelimit-remaining", "5");
                      ("x-ratelimit-reset", "1700000000");
                      ("x-ratelimit-limit", "1000")];
     resp_data := body_of [] |}.

(** Nothing stored, nothing to come, the clock 30 seconds before
    second 1 700 000 000. *)
Definition world_before_reset : World :=
  world_of empty_database 1699999970000000 [] [].

(** A 200 response whose body carries GraphQL errors and no data. *)
Definition graphql_error_response : http_response :=
  {| status := 200; resp_headers := [];
     resp_data := {| gql_errors := true; gql_data := None |} |}.

(** The provider answers with GraphQL errors. *)
Definition world_graphql_errors : World :=
  world_of empty_database 0 [] [Http graphql_error_response].

(** The provider does not answer the first request. *)
Definition world_no_answer : World :=
  world_of empty_database 0 [] [NetworkError "socket hang up"].

(** The pool rejects the first statement to come. *)
Definition world_first_rejected : World :=
  world_of db_flag_down 1000 [true] [].

(** The catalogue has one page, of two entities. *)
Definition world_single_page : World :=
  world_of empty_database 0 [] 
    [Http (page_response [nation_of 1 true; nation_of 2 false] false None)].


(* ================================================================== *)
(** * Properties *)

(** ** Running the primitives *)

Lemma bind_run {A B : Type} (m : M A) (f : A -> M B) (w : World) :
  bind m f w =
  match m w with
  | (Ok a, w') => f a w'
  | (Throw e, w') => (Throw e, w')
  end.
Proof. reflexivity. Qed.

Lemma try_catch_run {A : Type} (body : M A) (handler : js_error -> M A)
      (w : World) :
  try_catch body handler w =
  match body w with
  | (Ok a, w') => (Ok a, w')
  | (Throw e, w') => handler e w'
  end.
Proof. reflexivity. Qed.

(** What [db.query] does, spelled out on the world. *)
Lemma db_query_run (text : sql) (w : World) :
  db_query text w =
  let w1 := set_clock (clock w + 1) (set_db_faults (tl (db_faults w)) w) in
  if hd false (db_faults w) then
    (Throw (DbError "connection terminated"),
     emit (EvLog LError "Database query error"
             (MetaQuery text (Some "connection terminated")))
       (emit (EvQuery text false) w1))
  else
    match exec_sql (clock w) text (db w) with
    | Some (r, d') =>
        (Ok r, emit (EvLog LDebug "Executed query" (MetaQuery text None))
                 (emit (EvQuery text true) (set_db d' w1)))
    | None =>
        (Throw (DbError "violates constraint"),
         emit (EvLog LError "Database query error"
                 (MetaQuery text (Some "violates constraint")))
           (emit (EvQuery text false) w1))
    end.
Proof.
  unfold db_query, try_catch, bind, pool_query. cbn zeta.
  destruct (hd false (db_faults w)); [reflexivity|].
  destruct (exec_sql (clock w) text (db w)) as [[r d']|]; reflexivity.
Qed.

(* ------------------------------------------------------------------ *)
(** ** Decimal numerals *)

Lemma digit_char_value (d : Z) :
  0 <= d < 10 ->
  digit_value 10 (digit_char d) = Some d
  /\ is_space (digit_char d) = false
  /\ Ascii.eqb (digit_char d) ":" = false
  /\ Ascii.eqb (digit_char d) "-" = false
  /\ Ascii.eqb (digit_char d) "+" = false
  /\ Ascii.eqb (digit_char d) "x" = false
  /\ Ascii.eqb (digit_char d) "X" = false.
Proof.
  intros H.
  assert (E : d = 0 \/ d = 1 \/ d = 2 \/ d = 3 \/ d = 4 \/ d = 5 \/ d = 6
              \/ d = 7 \/ d = 8 \/ d = 9) by lia.
  repeat (destruct E as [->|E]; [repeat split|]). subst d. repeat split.
Qed.

Lemma reads_as_empty : reads_as "" 0 0.
Proof. repeat split; try lia. intros a. cbn. f_equal. lia. Qed.

Lemma reads_as_digit (s : string) (k v d : Z) :
  reads_as s k v -> 0 <= d < 10 ->
  reads_as (String (digit_char d) s) (k + 1) (d * 10 ^ k + v).
Proof.
  intros (Hk & Hall & Hread) Hd.
  destruct (digit_char_value d Hd) as (Hv & _).
  repeat split; [lia| |].
  - cbn [all_digits]. rewrite Hv. exact Hall.
  - intros a. cbn [read_digits]. rewrite Hv, Hread. f_equal.
    rewrite Z.pow_add_r by lia. lia.
Qed.

Lemma show_digits_reads (fuel : nat) :
  forall (n : Z) (acc : string) (k v : Z),
    reads_as acc k v -> 0 <= n < 10 ^ Z.of_nat fuel -> (1 <= fuel)%nat ->
    exists k', reads_as (show_digits fuel n acc) k' (n * 10 ^ k + v)
               /\ show_digits fuel n acc <> "".
Proof.
  induction fuel as [|fuel IH]; intros n acc k v Hacc Hn Hfuel; [lia|].
  cbn [show_digits].
  destruct (Z.ltb_spec n 10) as [Hlt|Hge].
  - exists (k + 1). rewrite Z.mod_small by lia.
    split; [apply reads_as_digit; [assumption|lia]|discriminate].
  - assert (Hq : 0 <= n / 10 < 10 ^ Z.of_nat fuel).
    { rewrite Nat2Z.inj_succ, Z.pow_succ_r in Hn by lia.
      split; [apply Z.div_pos; lia|apply Z.div_lt_upper_bound; lia]. }
    assert (Hf : (1 <= fuel)%nat).
    { destruct fuel; [|lia]. cbn in Hq.
      assert (1 <= n / 10) by (apply Z.div_le_lower_bound; lia). lia. }
    destruct (IH (n / 10) (String (digit_char (n mod 10)) acc) (k + 1)
                 (n mod 10 * 10 ^ k + v)) as (k' & Hr & Hne);
      [apply reads_as_digit; [assumption|apply Z.mod_pos_bound; lia]
      |assumption|assumption|].
    exists k'. split; [|exact Hne].
    replace (n * 10 ^ k + v)
      with (n / 10 * 10 ^ (k + 1) + (n mod 10 * 10 ^ k + v)); [exact Hr|].
    destruct Hacc as (Hk & _).
    rewrite Z.pow_add_r by lia.
    pose proof (Z.div_mod n 10 ltac:(lia)) as E. nia.
Qed.

Lemma show_nonneg_reads (n : Z) :
  0 <= n ->
  exists k, reads_as (show_nonneg n) k n /\ show_nonneg n <> "".
Proof.
  intros Hn. unfold show_nonneg.
  destruct (show_digits_reads (S (Z.to_nat (Z.log2 n))) n "" 0 0 reads_as_empty)
    as (k & Hr & Hne); [|lia|].
  - split; [assumption|].
    destruct (Z.eq_dec n 0) as [->|Hpos]; [cbn; lia|].
    rewrite Nat2Z.inj_succ, Z2Nat.id by apply Z.log2_nonneg.
    pose proof (Z.log2_spec n ltac:(lia)) as [_ Hlog].
    apply (Z.lt_le_trans _ _ _ Hlog).
    apply Z.pow_le_mono_l. lia.
  - exists k. rewrite Z.mul_1_r, Z.add_0_r in Hr. split; assumption.
Qed.


(** A numeral has no sign, space, prefix or colon to trip over. *)
Lemma all_digits_plain (s : string) :
  all_digits s = true -> s <> "" ->
  trim_start s = s /\ strip_sign s = (1, s) /\ strip_hex_prefix s = (10, s)
  /\ split_on ":" s = [s].
Proof.
  intros Hall Hne.
  assert (Hsplit : forall t, all_digits t = true -> split_on ":" t = [t]).
  { induction t as [|c t IHt]; [reflexivity|]. cbn [all_digits split_on].
    destruct (digit_value 10 c) as [d|] eqn:Hd; [|discriminate].
    intros Ht. rewrite (IHt Ht).
    replace (Ascii.eqb c ":") with false; [reflexivity|].
    symmetry. apply Ascii.eqb_neq. intros ->. discriminate Hd. }
  assert (Hplain : forall c d, digit_value 10 c = Some d ->
            is_space c = false /\ Ascii.eqb c "-" = false
            /\ Ascii.eqb c "+" = false /\ Ascii.eqb c "x" = false
            /\ Ascii.eqb c "X" = false).
  { intros c d Hd.
    destruct c as [[|] [|] [|] [|] [|] [|] [|] [|]];
      try discriminate Hd; repeat split. }
  destruct s as [|c s]; [congruence|]. cbn [all_digits] in Hall.
  destruct (digit_value 10 c) as [d|] eqn:Hd; [|discriminate].
  destruct (Hplain c d Hd) as (Hsp & Hminus & Hplus & _).
  split; [|split; [|split]].
  - cbn [trim_start]. rewrite Hsp. reflexivity.
  - destruct c as [[|] [|] [|] [|] [|] [|] [|] [|]];
      try reflexivity; discriminate.
  - destruct s as [|c' s].
    + destruct c as [[|] [|] [|] [|] [|] [|] [|] [|]]; reflexivity.
    + cbn [all_digits] in Hall.
      destruct (digit_value 10 c') as [d'|] eqn:Hd'; [|discriminate].
      destruct (Hplain c' d' Hd') as (_ & _ & _ & Hx & HX).
      destruct c as [[|] [|] [|] [|] [|] [|] [|] [|]]; try reflexivity;
        destruct c' as [[|] [|] [|] [|] [|] [|] [|] [|]];
        try reflexivity; discriminate.
  - apply Hsplit. cbn [all_digits]. rewrite Hd. exact Hall.
Qed.

(** [parseInt] reads a rendered non-negative integer back. *)
Lemma parseInt_show_Z (n : Z) :
  0 <= n -> parseInt_string (show_Z n) = Num n.
Proof.
  intros Hn. unfold show_Z.
  destruct (Z.ltb_spec n 0); [lia|].
  destruct (show_nonneg_reads n Hn) as (k & (Hk & Hall & Hread) & Hne).
  destruct (all_digits_plain _ Hall Hne) as (Ht & Hs & Hx & _).
  unfold parseInt_string. rewrite Ht, Hs, Hx.
  destruct (show_nonneg n) as [|c s] eqn:E; [congruence|].
  specialize (Hread 0). cbn [read_digits all_digits] in *.
  destruct (digit_value 10 c) as [d|]; [|discriminate].
  replace (0 * 10 + d) with d in Hread by lia.
  rewrite Hread. f_equal. lia.
Qed.


Lemma show_Z_truthy (n : Z) : 0 <= n -> str_truthy (show_Z n) = true.
Proof.
  intros Hn. unfold show_Z. destruct (Z.ltb_spec n 0); [lia|].
  destruct (show_nonneg_reads n Hn) as (k & _ & Hne).
  destruct (show_nonneg n); [congruence|reflexivity].
Qed.




(* ------------------------------------------------------------------ *)
(** ** The rate limiter *)

(** What [waitIfNeeded] does when it has to wait: one log line and one
    sleep of [resetTime - now] milliseconds. *)
Lemma waitIfNeeded_waits (w : World) (r t : Z) :
  remaining (rateLimiter w) = Num r ->
  resetTime (rateLimiter w) = Some (Num t) ->
  r <= minBuffer (rateLimiter w) -> t <> 0 -> 0 < t - clock w / 1000 ->
  waitIfNeeded w
  = (Ok tt,
     set_clock (clock w + held_for (Num (t - clock w / 1000)) (hd 0 (timers w)))
       (set_timers (tl (timers w))
          (emit (EvSleep (Num (t - clock w / 1000)))
             (emit (EvLog LInfo
                      ("Rate limit buffer reached. Waiting "
                         ++ show_Z (ceil_div_1000 (t - clock w / 1000)) ++ "s")
                      NoMeta) w)))).
Proof.
  intros Hr Ht Hle Hne Hpos. unfold waitIfNeeded. rewrite Hr, Ht.
  cbn [js_le resetTime_truthy num_truthy].
  destruct (Z.leb_spec r (minBuffer (rateLimiter w))); [|lia].
  destruct (Z.eqb_spec t 0); [contradiction|]. cbn [negb andb].
  rewrite bind_run. cbn [Date_now js_sub js_gt].
  destruct (Z.ltb_spec 0 (t - clock w / 1000)); [|lia].
  rewrite bind_run. reflexivity.
Qed.

(** What it does otherwise: nothing. *)
Lemma waitIfNeeded_returns (w : World) :
  js_le (remaining (rateLimiter w)) (Num (minBuffer (rateLimiter w))) = false
  \/ resetTime_truthy (resetTime (rateLimiter w)) = false
  \/ (exists t, resetTime (rateLimiter w) = Some (Num t)
                 /\ t - clock w / 1000 <= 0) ->
  waitIfNeeded w = (Ok tt, w).
Proof.
  unfold waitIfNeeded. intros [H|[H|(t & Ht & Hpast)]].
  - rewrite H. reflexivity.
  - rewrite H, andb_false_r. reflexivity.
  - destruct (js_le _ _ && _); [|reflexivity].
    rewrite bind_run, Ht. cbn [Date_now js_sub js_gt].
    destruct (Z.ltb_spec 0 (t - clock w / 1000)); [lia|reflexivity].
Qed.

(** C5, as the code has it.  [waitIfNeeded] returns normally.  When
    [remaining] is at most the buffer (10 after construction, never
    changed by [update]) and [resetTime] is a number later than now, it
    sets one timer of [resetTime - now] milliseconds and resumes when
    the timer fires.  A wait of at most [TIMEOUT_MAX] (2^31 - 1 ms,
    about 24.8 days) holds the caller that long, give or take the skew
    of the timer, so until [resetTime] when the timer is not early; a
    longer wait is cut by Node's timer to 1 ms.  When [resetTime] is
    not ahead, when [remaining] is above the buffer or [resetTime] is
    unknown, the world is left as it was, whatever [remaining] is.
    With 5 requests left and a reset 30 seconds ahead the call returns
    30 seconds later, give or take the skew. *)
Theorem waitIfNeeded_blocks_until_reset (w : World) (Hepoch : 0 <= clock w) :
  let this := rateLimiter w in
  let now := clock w / 1000 in
  let skew := hd 0 (timers w) in
  let w' := run_world waitIfNeeded w in
  run_result waitIfNeeded w = Ok tt
  /\ minBuffer new_RateLimiter = 10
  /\ (forall a b c,
        minBuffer (rateLimiter (run_world (RateLimiter_update a b c) w))
        = minBuffer this)
  /\ (forall r t,
        remaining this = Num r -> resetTime this = Some (Num t) ->
        r <= minBuffer this -> 0 < t - now ->
        sleeps_of (trace w') = sleeps_of (trace w) ++ [Num (t - now)]
        /\ (t - now <= TIMEOUT_MAX ->
            clock w' = clock w + Z.max 0 ((t - now) * 1000 + skew)
            /\ (0 <= skew -> t <= clock w' / 1000))
        /\ (TIMEOUT_MAX < t - now ->
            clock w' = clock w + Z.max 0 (1000 + skew)))
  /\ (forall r t,
        remaining this = Num r -> resetTime this = Some (Num t) ->
        r <= minBuffer this -> t - now <= 0 -> w' = w)
  /\ (js_le (remaining this) (Num (minBuffer this)) = false
      \/ resetTime this = None \/ resetTime this = Some NaN ->
      w' = w)
  /\ (remaining this = Num 0 -> resetTime this = None -> w' = w)
  /\ (remaining this = Num 5 -> minBuffer this = 10 ->
      resetTime this = Some (Num (now + 30000)) ->
      clock w' - clock w = Z.max 0 (30000000 + skew)
      /\ (0 <= skew -> now + 30000 <= clock w' / 1000)).
Proof.
  intros this now skew w'.
  assert (Hnow : 0 <= now) by (apply Z.div_pos; lia).
  assert (Hgen : forall r t,
        remaining this = Num r -> resetTime this = Some (Num t) ->
        r <= minBuffer this -> 0 < t - now ->
        sleeps_of (trace w') = sleeps_of (trace w) ++ [Num (t - now)]
        /\ (t - now <= TIMEOUT_MAX ->
            clock w' = clock w + Z.max 0 ((t - now) * 1000 + skew)
            /\ (0 <= skew -> t <= clock w' / 1000))
        /\ (TIMEOUT_MAX < t - now ->
            clock w' = clock w + Z.max 0 (1000 + skew))).
  { intros r t Hr Ht Hle Hpos. subst w' this now skew. unfold run_world.
    rewrite (waitIfNeeded_waits w r t Hr Ht Hle) by lia.
    cbn [snd clock set_clock trace set_timers emit].
    unfold held_for, timer_delay.
    split; [|split].
    - unfold sleeps_of. rewrite !flat_map_app. cbn.
      rewrite app_nil_r. reflexivity.
    - intros Hfit.
      destruct (Z.leb_spec 1 (t - clock w / 1000)); [|lia].
      destruct (Z.leb_spec (t - clock w / 1000) TIMEOUT_MAX); [|lia].
      cbn [andb]. split; [reflexivity|]. intros Hskew.
      apply Z.div_le_lower_bound; [lia|].
      pose proof (Z.mul_div_le (clock w) 1000 ltac:(lia)). lia.
    - intros Hlong.
      destruct (Z.leb_spec (t - clock w / 1000) TIMEOUT_MAX); [lia|].
      rewrite andb_false_r. reflexivity. }
  assert (Hskip : js_le (remaining this) (Num (minBuffer this)) = false
      \/ resetTime this = None \/ resetTime this = Some NaN -> w' = w).
  { subst w' this. unfold run_world. intros H.
    rewrite waitIfNeeded_returns; [reflexivity|].
    destruct H as [H|[H|H]]; [left; exact H|right; left..];
      rewrite H; reflexivity. }
  split; [|split; [reflexivity|split; [reflexivity|split;
    [exact Hgen|split; [|split; [exact Hskip|split]]]]]].
  - subst this. unfold run_result, waitIfNeeded.
    destruct (js_le _ _ && _); [|reflexivity].
    unfold bind, Date_now. cbn.
    destruct (js_gt _ _); reflexivity.
  - intros r t Hr Ht Hle Hpast. subst w' this now. unfold run_world.
    rewrite waitIfNeeded_returns; [reflexivity|].
    right; right. exists t. split; assumption.
  - intros _ Hnone. apply Hskip. right; left; exact Hnone.
  - intros Hr Hb Ht.
    destruct (Hgen 5 (now + 30000) Hr Ht ltac:(lia) ltac:(lia))
      as (_ & Hfit & _).
    replace (now + 30000 - now) with 30000 in Hfit by lia.
    destruct (Hfit ltac:(unfold TIMEOUT_MAX; lia)) as [Hc Hlate].
    split; [lia|exact Hlate].
Qed.

Lemma waitIfNeeded_blocks_until_reset_witness :
  1030000 <= clock (run_world waitIfNeeded world_near_limit) / 1000.
Proof.
  destruct (waitIfNeeded_blocks_until_reset world_near_limit)
    as (_ & _ & _ & _ & _ & _ & _ & H).
  - vm_compute. discriminate.
  - apply H; reflexivity.
Defined.

(** The claim's [max(0, resetAt - now)] fails for long waits: with 5
    requests left and a reset 2^31 ms ahead, the timer is asked for
    2 147 483 648 ms and the call returns one millisecond later. *)
Lemma waitIfNeeded_cut_short :
  remaining (rateLimiter world_far_reset) = Num 5
  /\ minBuffer (rateLimiter world_far_reset) = 10
  /\ resetTime (rateLimiter world_far_reset)
     = Some (Num (1000000 + 2147483648))
  /\ clock world_far_reset / 1000 = 1000000
  /\ sleeps_of (trace (run_world waitIfNeeded world_far_reset))
     = [Num 2147483648]
  /\ clock (run_world waitIfNeeded world_far_reset) / 1000 = 1000001.
Proof. repeat split. Qed.

(* ------------------------------------------------------------------ *)
(** ** Projections of a trace *)

Lemma exchanges_of_app (a b : list event) :
  exchanges_of (a ++ b) = exchanges_of a ++ exchanges_of b.
Proof. apply flat_map_app. Qed.

Lemma posts_of_app (a b : list event) :
  posts_of (a ++ b) = posts_of a ++ posts_of b.
Proof. apply flat_map_app. Qed.

Lemma sleeps_of_app (a b : list event) :
  sleeps_of (a ++ b) = sleeps_of a ++ sleeps_of b.
Proof. apply flat_map_app. Qed.

Lemma queries_of_app (a b : list event) :
  queries_of (a ++ b) = queries_of a ++ queries_of b.
Proof. apply flat_map_app. Qed.

Lemma last_scan_lookups_app (a b : list event) :
  last_scan_lookups (a ++ b) = last_scan_lookups a ++ last_scan_lookups b.
Proof. apply flat_map_app. Qed.

Lemma errors_logged_app (a b : list event) :
  errors_logged (a ++ b) = errors_logged a ++ errors_logged b.
Proof. apply flat_map_app. Qed.

(* ------------------------------------------------------------------ *)
(** ** Fetching by ids: the empty list *)

(** C10. [fetchSpecificNations] on an empty id list builds no batch and
    returns an empty result in an unchanged world: no request is posted
    or put on the wire and nothing is slept. *)
Theorem fetchSpecificNations_empty (w : World) :
  let w' := run_world (fetchSpecificNations []) w in
  make_batches [] = []
  /\ run_result (fetchSpecificNations []) w = Ok []
  /\ w' = w
  /\ posts_of (trace w') = posts_of (trace w)
  /\ exchanges_of (trace w') = exchanges_of (trace w)
  /\ sleeps_of (trace w') = sleeps_of (trace w)
  /\ net_script w' = net_script w.
Proof.
  cbv zeta. repeat split; reflexivity.
Qed.

(* ------------------------------------------------------------------ *)
(** ** A scan cycle without candidates *)

(** C8. When the candidate statement is executed and selects no row,
    [performScan] returns after two log lines around that one read: the
    tables, the provider script and the limiter are untouched, no
    writing statement is issued and no request is posted or sent. *)
Theorem performScan_no_candidates (w : World)
        (Haccepted : hd false (db_faults w) = false)
        (Hempty : select_nations_to_scan (clock w) (db w) = []) :
  let w' := run_world performScan w in
  run_result performScan w = Ok tt
  /\ db w' = db w
  /\ net_script w' = net_script w
  /\ rateLimiter w' = rateLimiter w
  /\ trace w' =
     trace w ++
       [EvLog LInfo "Starting scan cycle" NoMeta;
        EvQuery SelectNationsToScan true;
        EvLog LDebug "Executed query" (MetaQuery SelectNationsToScan None);
        EvLog LInfo "No nations to scan" NoMeta]
  /\ filter is_write (queries_of (trace w')) =
     filter is_write (queries_of (trace w))
  /\ posts_of (trace w') = posts_of (trace w)
  /\ exchanges_of (trace w') = exchanges_of (trace w).
Proof.
  cbv zeta.
  assert (Hrun : performScan w =
    (Ok tt,
     emit (EvLog LInfo "No nations to scan" NoMeta)
       (emit (EvLog LDebug "Executed query" (MetaQuery SelectNationsToScan None))
          (emit (EvQuery SelectNationsToScan true)
             (set_db (db w)
                (set_clock (clock w + 1)
                   (set_db_faults (tl (db_faults w))
                      (emit (EvLog LInfo "Starting scan cycle" NoMeta) w)))))))).
  { unfold performScan, getNationsToScan.
    rewrite bind_run. cbn [Date_now].
    rewrite bind_run. cbn [logger].
    rewrite try_catch_run, bind_run, bind_run, db_query_run.
    cbn [db_faults emit clock db exec_sql]. rewrite Haccepted, Hempty.
    reflexivity. }
  unfold run_result, run_world. rewrite Hrun. cbn.
  repeat split.
  - rewrite <- !app_assoc. reflexivity.
  - rewrite <- !app_assoc, queries_of_app, filter_app, app_nil_r. reflexivity.
  - rewrite <- !app_assoc, posts_of_app, app_nil_r. reflexivity.
  - rewrite <- !app_assoc, exchanges_of_app, app_nil_r. reflexivity.
Qed.

Lemma performScan_no_candidates_witness :
  db (run_world performScan (world_of empty_database 0 [] []))
  = empty_database.
Proof.
  destruct (performScan_no_candidates (world_of empty_database 0 [] []))
    as (_ & H & _); [reflexivity | reflexivity | exact H].
Defined.

(* ------------------------------------------------------------------ *)
(** ** Requests and throttling *)

(** One attempt of [axiosInstance.request]. *)
Lemma axios_request_step (n : nat) (config : request_config) (w : World) :
  axios_request n config w =
  let o := next_outcome (net_script w) in
  let w1 := emit (EvExchange config o) (set_net_script (tl (net_script w)) w) in
  match o with
  | Http r =>
      if validateStatus (status r) then handleRateLimitHeaders r w1
      else
        handleApiError
          (match n with
           | S n' => axios_request n'
           | O => fun _ => throw (Error "unreachable")
           end)
          (AxiosError ("Request failed with status code " ++ show_Z (status r))
                      config (Some r)) w1
  | NetworkError m => (Throw (AxiosError m config None), w1)
  end.
Proof.
  destruct n; cbn [axios_request]; rewrite bind_run; unfold adapter;
    destruct w as [d c f s tm z rl tr]; destruct s as [|[r|m] later];
    try reflexivity; cbn; destruct (validateStatus (status r)); reflexivity.
Qed.

(** The fulfilled interceptor only touches the limiter and the log. *)
Lemma handleRateLimitHeaders_run (r : http_response) (w : World) :
  exists evs,
    run_result (handleRateLimitHeaders r) w = Ok r
    /\ trace (run_world (handleRateLimitHeaders r) w) = trace w ++ evs
    /\ exchanges_of evs = [] /\ sleeps_of evs = [] /\ posts_of evs = []
    /\ queries_of evs = [] /\ errors_logged evs = []
    /\ net_script (run_world (handleRateLimitHeaders r) w) = net_script w
    /\ clock (run_world (handleRateLimitHeaders r) w) = clock w
    /\ db (run_world (handleRateLimitHeaders r) w) = db w
    /\ db_faults (run_world (handleRateLimitHeaders r) w) = db_faults w
    /\ timers (run_world (handleRateLimitHeaders r) w) = timers w.
Proof.
  unfold handleRateLimitHeaders, run_result, run_world.
  destruct (header_truthy (header (resp_headers r) "x-ratelimit-remaining")).
  - eexists [_]. cbn. repeat split.
  - exists []. cbn. rewrite app_nil_r. repeat split.
Qed.

(** The bound on retries set by [axiosInstance_request] is never
    reached: any larger bound gives the same run. *)
Lemma axios_request_bound (n : nat) :
  forall (config : request_config) (w : World),
    (List.length (net_script w) <= n)%nat ->
    axios_request n config w
    = axios_request (List.length (net_script w)) config w.
Proof.
  induction n as [|n IH]; intros config w Hn.
  - replace (List.length (net_script w)) with O by lia. reflexivity.
  - rewrite !axios_request_step. cbv zeta.
    destruct (net_script w) as [|o later] eqn:Hs; [reflexivity|].
    cbn [next_outcome hd tl List.length] in *.
    destruct o as [r|m]; [|reflexivity].
    destruct (validateStatus (status r)); [reflexivity|].
    unfold handleApiError.
    destruct (status r =? 429); [|reflexivity].
    rewrite !bind_run. cbn [logger]. rewrite !bind_run. cbn [sleep].
    rewrite (IH config) by (cbn; lia). reflexivity.
Qed.

Lemma timers_not_early_tl (w : World) (t : list Z) :
  timers_not_early w -> t = tl (timers w) -> Forall (fun skew => 0 <= skew) t.
Proof.
  unfold timers_not_early. intros H ->.
  destruct (timers w); [constructor|]. inversion H; assumption.
Qed.

Lemma timers_not_early_hd (w : World) :
  timers_not_early w -> 0 <= hd 0 (timers w).
Proof.
  unfold timers_not_early. intros H.
  destruct (timers w); [cbn; lia|]. inversion H; assumption.
Qed.

(** A timer that is not early holds its caller for the delay set. *)
Lemma held_for_not_early (ms : jsnum) (skew : Z) :
  0 <= skew -> timer_delay ms * 1000 <= held_for ms skew.
Proof. unfold held_for. lia. Qed.

(** A run of [axios_request] against a provider that throttles
    [rs] times in a row before anything else. *)
Lemma axios_request_throttled (rs : list http_response) :
  forall (n : nat) (config : request_config) (tail : list net_outcome)
         (w : World),
    Forall (fun r => status r = 429) rs ->
    (forall r, next_outcome tail = Http r -> status r <> 429) ->
    net_script w = map Http rs ++ tail ->
    (List.length rs <= n)%nat ->
    exists evs,
      trace (run_world (axios_request n config) w) = trace w ++ evs
      /\ exchanges_of evs = repeat config (S (List.length rs))
      /\ sleeps_of evs = map throttle_delay rs
      /\ posts_of evs = [] /\ queries_of evs = []
      /\ net_script (run_world (axios_request n config) w) = tl tail
      /\ (timers_not_early w ->
          clock w + 1000 * total_delay (map throttle_delay rs)
          <= clock (run_world (axios_request n config) w))
      /\ db (run_world (axios_request n config) w) = db w
      /\ db_faults (run_world (axios_request n config) w) = db_faults w
      /\ run_result (axios_request n config) w =
         match next_outcome tail with
         | Http r =>
             if validateStatus (status r) then Ok r
             else Throw (AxiosError
                           ("Request failed with status code "
                              ++ show_Z (status r)) config (Some r))
         | NetworkError m => Throw (AxiosError m config None)
         end
      /\ timers (run_world (axios_request n config) w)
         = skipn (List.length rs) (timers w)
      /\ errors_logged evs = [].
Proof.
  induction rs as [|r rs IH]; intros n config tail w Hall Htail Hs Hn.
  - cbn [map app] in Hs. unfold run_world, run_result.
    rewrite axios_request_step. cbv zeta. rewrite Hs.
    destruct (next_outcome tail) as [r|m] eqn:Ho.
    + destruct (validateStatus (status r)) eqn:Hv.
      * destruct (handleRateLimitHeaders_run r
          (emit (EvExchange config (Http r)) (set_net_script (tl tail) w)))
          as (evs & Hr & Ht & He & Hsl & Hp & Hq & Herr & Hns & Hc & Hd & Hf
              & Htm).
        unfold run_world, run_result in *.
        exists (EvExchange config (Http r) :: evs).
        rewrite Ht, Hns, Hc, Hd, Hf, Hr, Htm. cbn.
        rewrite <- app_assoc. cbn.
        unfold exchanges_of, sleeps_of, posts_of, queries_of, errors_logged
          in *.
        cbn. rewrite He, Hsl, Hp, Hq, Herr. repeat split; lia.
      * unfold handleApiError.
        destruct (Z.eqb_spec (status r) 429) as [E|E];
          [exfalso; exact (Htail r eq_refl E)|].
        exists [EvExchange config (Http r)]. cbn. repeat split; lia.
    + exists [EvExchange config (NetworkError m)]. cbn. repeat split; lia.
  - destruct n as [|n]; [cbn in Hn; lia|].
    inversion Hall as [|? ? H429 Hall']; subst.
    cbn [map app] in Hs. unfold run_world, run_result.
    rewrite axios_request_step. cbv zeta. rewrite Hs.
    cbn [next_outcome hd tl].
    assert (Hv : validateStatus (status r) = false)
      by (unfold validateStatus; rewrite H429; reflexivity).
    rewrite Hv. unfold handleApiError. rewrite H429. cbn [Z.eqb Pos.eqb].
    rewrite !bind_run. cbn [logger]. rewrite bind_run. cbn [sleep].
    match goal with |- context [axios_request n config ?w2] =>
      remember w2 as w3 eqn:Hw3
    end.
    assert (Htr3 : trace w3 = trace w ++ [EvExchange config (Http r);
       EvLog LWarn ("Rate limited. Waiting "
                      ++ retryAfter_text (retryAfter_of (resp_headers r))
                      ++ " seconds") NoMeta;
       EvSleep (throttle_delay r)])
      by (subst w3; cbn; rewrite <- !app_assoc; reflexivity).
    assert (Hc3 : clock w3
                  = clock w + held_for (throttle_delay r) (hd 0 (timers w)))
      by (subst w3; reflexivity).
    assert (Hd3 : db w3 = db w) by (subst w3; reflexivity).
    assert (Hf3 : db_faults w3 = db_faults w) by (subst w3; reflexivity).
    assert (Hs3 : net_script w3 = map Http rs ++ tail)
      by (subst w3; reflexivity).
    assert (Htm3 : timers w3 = tl (timers w)) by (subst w3; reflexivity).
    clear Hw3.
    destruct (IH n config tail w3 Hall' Htail Hs3) as
        (evs & Ht & He & Hsl & Hp & Hq & Hns & Hc & Hd & Hf & Hr & Htm
         & Herr);
      [cbn in Hn; lia |].
    unfold run_world, run_result in *.
    exists ([EvExchange config (Http r);
       EvLog LWarn ("Rate limited. Waiting "
                      ++ retryAfter_text (retryAfter_of (resp_headers r))
                      ++ " seconds") NoMeta;
       EvSleep (throttle_delay r)] ++ evs).
    rewrite Ht, Hns, Hd, Hf, Hr, Htr3, Hd3, Hf3, Htm, Htm3.
    rewrite exchanges_of_app, sleeps_of_app, posts_of_app, queries_of_app,
      errors_logged_app.
    rewrite He, Hsl, Hp, Hq, Herr, <- app_assoc.
    cbn [map total_delay fold_right List.length].
    repeat split; try reflexivity.
    + intros Hearly.
      fold (total_delay (map throttle_delay rs)).
      pose proof (held_for_not_early (throttle_delay r) _
                    (timers_not_early_hd w Hearly)) as Hheld.
      assert (Hearly3 : timers_not_early w3)
        by (exact (timers_not_early_tl w _ Hearly Htm3)).
      specialize (Hc Hearly3). lia.
    + destruct (timers w); [|reflexivity].
      cbn [tl]. rewrite !skipn_nil. reflexivity.
Qed.







(* ------------------------------------------------------------------ *)
(** ** Batches *)

Lemma make_batches_from_concat (l : list Z) (steps : nat) :
  forall i : nat,
    (List.length l - i <= steps)%nat ->
    List.concat (make_batches_from steps i l) = skipn i l.
Proof.
  induction steps as [|steps IH]; intros i Hfuel; cbn [make_batches_from].
  - rewrite skipn_all2 by lia. reflexivity.
  - destruct (Nat.ltb_spec i (List.length l)) as [Hlt|Hge].
    + cbn [List.concat]. rewrite IH by (unfold batchSize; lia).
      rewrite Nat.add_comm, <- skipn_skipn. apply firstn_skipn.
    + rewrite skipn_all2 by lia. reflexivity.
Qed.

Lemma make_batches_from_sizes (l : list Z) (steps : nat) :
  forall i : nat,
    Forall (fun b => (0 < List.length b <= batchSize)%nat)
           (make_batches_from steps i l)
    /\ Forall (fun b => List.length b = batchSize)
              (removelast (make_batches_from steps i l)).
Proof.
  induction steps as [|steps IH]; intros i; cbn [make_batches_from].
  - split; constructor.
  - destruct (Nat.ltb_spec i (List.length l)) as [Hlt|Hge];
      [|split; constructor].
    destruct (IH (i + batchSize)%nat) as [IH1 IH2].
    assert (Hlen : List.length (firstn batchSize (skipn i l))
                   = Nat.min batchSize (List.length l - i))
      by (rewrite length_firstn, length_skipn; reflexivity).
    split.
    + constructor; [|exact IH1]. rewrite Hlen. unfold batchSize. lia.
    + destruct (make_batches_from steps (i + batchSize) l) as [|b rest] eqn:Hm.
      * constructor.
      * cbn [removelast]. constructor; [|exact IH2].
        rewrite Hlen.
        destruct steps as [|steps']; [discriminate Hm|].
        cbn [make_batches_from] in Hm.
        destruct (Nat.ltb_spec (i + batchSize) (List.length l));
          [|discriminate Hm].
        unfold batchSize in *. lia.
Qed.

Lemma concat_disjoint (L : list (list Z)) :
  NoDup (List.concat L) ->
  forall b1 b2 x, In b1 L -> In b2 L -> In x b1 -> In x b2 -> b1 = b2.
Proof.
  induction L as [|b L IH]; intros Hnd b1 b2 x H1 H2 Hx1 Hx2; [contradiction|].
  cbn [List.concat] in Hnd.
  assert (Hdisj : forall y, In y b -> ~ In y (List.concat L)).
  { intros y Hy Hc. clear - Hnd Hy Hc.
    induction b as [|a b IHb]; [contradiction|].
    cbn in Hnd. inversion Hnd as [|? ? Hna Hnd']; subst.
    destruct Hy as [->|Hy].
    - apply Hna. apply in_or_app. right; exact Hc.
    - exact (IHb Hnd' Hy). }
  assert (Hnd' : NoDup (List.concat L)) by (apply NoDup_app_remove_l in Hnd; exact Hnd).
  destruct H1 as [<-|H1], H2 as [<-|H2].
  - reflexivity.
  - exfalso. apply (Hdisj x Hx1). apply in_concat. exists b2. split; assumption.
  - exfalso. apply (Hdisj x Hx2). apply in_concat. exists b1. split; assumption.
  - exact (IH Hnd' b1 b2 x H1 H2 Hx1 Hx2).
Qed.

(* ------------------------------------------------------------------ *)
(** ** Runs of the client *)

(** Any script starts with some throttling answers followed by
    something else. *)
Lemma script_split (s : list net_outcome) :
  exists rs tail,
    s = map Http rs ++ tail
    /\ Forall (fun r => status r = 429) rs
    /\ (forall r, next_outcome tail = Http r -> status r <> 429).
Proof.
  induction s as [|o s (rs & tail & Hs & Hall & Htail)].
  - exists [], []. repeat split; [constructor | discriminate].
  - destruct o as [r|m].
    + destruct (Z.eq_dec (status r) 429) as [E|E].
      * exists (r :: rs), tail. subst s. repeat split; [constructor|]; assumption.
      * exists [], (Http r :: s). repeat split; [constructor|].
        intros r' H. injection H as <-. exact E.
    + exists [], (NetworkError m :: s). repeat split; [constructor|discriminate].
Qed.

Lemma waitIfNeeded_run (w : World) :
  exists evs,
    run_result waitIfNeeded w = Ok tt
    /\ trace (run_world waitIfNeeded w) = trace w ++ evs
    /\ posts_of evs = [] /\ exchanges_of evs = [] /\ queries_of evs = []
    /\ errors_logged evs = []
    /\ net_script (run_world waitIfNeeded w) = net_script w
    /\ db (run_world waitIfNeeded w) = db w
    /\ db_faults (run_world waitIfNeeded w) = db_faults w.
Proof.
  unfold run_result, run_world, waitIfNeeded.
  destruct (js_le _ _ && _).
  - rewrite bind_run. cbn [Date_now]. destruct (js_gt _ _).
    + eexists [_; _]. cbn. rewrite <- app_assoc. repeat split.
    + exists []. cbn. rewrite app_nil_r. repeat split.
  - exists []. cbn. rewrite app_nil_r. repeat split.
Qed.

(** A posted request: one call, some exchanges, no statement; a
    response returned has used up an answer of the provider. *)
Lemma axiosInstance_post_run (config : request_config) (w : World) :
  exists evs,
    trace (run_world (axiosInstance_post config) w) = trace w ++ evs
    /\ posts_of evs = [config] /\ queries_of evs = []
    /\ db (run_world (axiosInstance_post config) w) = db w
    /\ db_faults (run_world (axiosInstance_post config) w) = db_faults w
    /\ (List.length (net_script (run_world (axiosInstance_post config) w))
        <= List.length (net_script w))%nat
    /\ (forall r, run_result (axiosInstance_post config) w = Ok r ->
        (List.length (net_script (run_world (axiosInstance_post config) w))
         < List.length (net_script w))%nat).
Proof.
  unfold axiosInstance_post, axiosInstance_request, run_world, run_result.
  destruct (script_split (net_script w)) as (rs & tail & Hs & Hall & Htail).
  destruct (axios_request_throttled rs (List.length (net_script w)) config
              tail (emit (EvPost config) w) Hall Htail Hs)
    as (evs & Ht & _ & _ & Hp & Hq & Hns & _ & Hd & Hf & Hr & _).
  { rewrite Hs, length_app, length_map. lia. }
  unfold run_world, run_result in *. cbn [net_script emit] in *.
  exists (EvPost config :: evs).
  rewrite Ht, Hd, Hf, Hns, Hr. cbn [trace emit db db_faults].
  rewrite <- app_assoc. cbn [app].
  change (EvPost config :: evs) with ([EvPost config] ++ evs).
  rewrite posts_of_app, queries_of_app, Hp, Hq.
  assert (Hlen : List.length (net_script w)
                 = (List.length rs + List.length tail)%nat)
    by (rewrite Hs, length_app, length_map; reflexivity).
  repeat split; try reflexivity.
  - rewrite Hlen. destruct tail; cbn; lia.
  - intros r Hok. rewrite Hlen. destruct tail as [|o tail]; [discriminate Hok|].
    cbn. lia.
Qed.

(** The entities a response adds to [results]. *)
Lemma fetch_batch_outcome (batch : list Z) (results : list api_nation)
      (w : World) :
  fetch_batch batch results w =
  match (waitIfNeeded ;; axiosInstance_post (FetchSpecificNations batch)) w with
  | (Ok response, w1) =>
      (Ok (results ++ entities_of response), w1)
  | (Throw error, w1) =>
      (Ok results,
       emit (EvLog LError "Failed to fetch specific nations"
               (MetaBatch (firstn 5 batch) (error_text error))) w1)
  end.
Proof.
  unfold fetch_batch. rewrite try_catch_run, !bind_run.
  destruct (waitIfNeeded w) as [[[]|e] w0]; [|reflexivity].
  rewrite !bind_run.
  destruct (axiosInstance_post (FetchSpecificNations batch) w0)
    as [[response|e] w1]; [|reflexivity].
  unfold entities_of.
  destruct (gql_data (resp_data response)) as [[connection|]|];
    [destruct (conn_data connection)|..]; cbn; rewrite ?app_nil_r; reflexivity.
Qed.

Lemma fetch_batch_run (batch : list Z) (results : list api_nation)
      (w : World) :
  exists evs res,
    fetch_batch batch results w = (Ok res, run_world (fetch_batch batch results) w)
    /\ trace (run_world (fetch_batch batch results) w) = trace w ++ evs
    /\ posts_of evs = [FetchSpecificNations batch]
    /\ queries_of evs = []
    /\ db (run_world (fetch_batch batch results) w) = db w
    /\ db_faults (run_world (fetch_batch batch results) w) = db_faults w.
Proof.
  unfold run_world. rewrite fetch_batch_outcome, bind_run.
  destruct (waitIfNeeded_run w)
    as (e1 & Hr1 & Ht1 & Hp1 & _ & Hq1 & _ & _ & Hd1 & Hf1).
  unfold run_result, run_world in *.
  destruct (waitIfNeeded w) as [[[]|e] w0]; [|discriminate Hr1].
  cbn [fst snd] in *.
  destruct (axiosInstance_post_run (FetchSpecificNations batch) w0)
    as (e2 & Ht2 & Hp2 & Hq2 & Hd2 & Hf2 & _).
  unfold run_result, run_world in *.
  destruct (axiosInstance_post (FetchSpecificNations batch) w0)
    as [[response|e] w1]; cbn [fst snd] in *.
  - exists (e1 ++ e2). eexists. split; [reflexivity|].
    rewrite Ht2, Ht1, Hd2, Hd1, Hf2, Hf1, app_assoc, posts_of_app,
      queries_of_app, Hp1, Hp2, Hq1, Hq2. repeat split.
  - exists (e1 ++ e2 ++ [EvLog LError "Failed to fetch specific nations"
                           (MetaBatch (firstn 5 batch) (error_text e))]).
    eexists. split; [reflexivity|]. cbn [trace emit db db_faults].
    rewrite Ht2, Ht1, Hd2, Hd1, Hf2, Hf1, !posts_of_app, !queries_of_app,
      Hp1, Hp2, Hq1, Hq2, !app_assoc. repeat split.
Qed.

(** The loop over the batches posts each of them, in order, and ends
    normally. *)
Lemma fetch_batches_run (batches : list (list Z)) :
  forall (results : list api_nation) (w : World),
  exists evs res,
    for_of_acc batches results fetch_batch w
    = (Ok res, run_world (for_of_acc batches results fetch_batch) w)
    /\ trace (run_world (for_of_acc batches results fetch_batch) w)
       = trace w ++ evs
    /\ posts_of evs = map FetchSpecificNations batches
    /\ queries_of evs = []
    /\ db (run_world (for_of_acc batches results fetch_batch) w) = db w
    /\ db_faults (run_world (for_of_acc batches results fetch_batch) w)
       = db_faults w.
Proof.
  induction batches as [|b rest IH]; intros results w.
  - exists [], results. cbn. rewrite app_nil_r. repeat split.
  - unfold run_world. cbn [for_of_acc]. rewrite bind_run.
    destruct (fetch_batch_run b results w)
      as (e1 & r1 & Hrun & Ht1 & Hp1 & Hq1 & Hd1 & Hf1).
    rewrite Hrun.
    destruct (IH r1 (run_world (fetch_batch b results) w))
      as (e2 & r2 & Hrun2 & Ht2 & Hp2 & Hq2 & Hd2 & Hf2).
    rewrite Hrun2. cbn [snd].
    exists (e1 ++ e2), r2. split; [reflexivity|].
    rewrite Ht2, Ht1, Hd2, Hd1, Hf2, Hf1, posts_of_app, queries_of_app,
      Hp1, Hp2, Hq1, Hq2, app_assoc. repeat split.
Qed.

(** What settles a request against a script that starts with some
    throttling answers. *)
Lemma settle_split (rs : list http_response) (tail : list net_outcome) :
  Forall (fun r => status r = 429) rs ->
  (forall r, next_outcome tail = Http r -> status r <> 429) ->
  settle (map Http rs ++ tail) = (next_outcome tail, tl tail).
Proof.
  intros Hall Htail. induction Hall as [|r rs H429 _ IH].
  - destruct tail as [|[r|m] t]; try reflexivity.
    cbn [map app settle throttling next_outcome hd tl].
    destruct (Z.eqb_spec (status r) 429) as [E|E]; [|reflexivity].
    exfalso. exact (Htail r eq_refl E).
  - cbn [map app settle throttling]. rewrite H429. exact IH.
Qed.

(** The wait and the request of a batch: the request ends the way its
    settling outcome says, whatever throttling comes first. *)
Lemma guarded_post_settles (config : request_config) (w : World) :
  exists w1 evs,
    (waitIfNeeded ;; axiosInstance_post config) w
    = (settled config (fst (settle (net_script w))), w1)
    /\ net_script w1 = snd (settle (net_script w))
    /\ trace w1 = trace w ++ evs
    /\ posts_of evs = [config] /\ errors_logged evs = [].
Proof.
  rewrite bind_run.
  destruct (waitIfNeeded_run w)
    as (e1 & Hr1 & Ht1 & Hp1 & _ & _ & He1 & Hn1 & _).
  unfold run_world, run_result in *.
  destruct (waitIfNeeded w) as [[[]|e] w0]; [|discriminate Hr1].
  cbn [fst snd] in *.
  unfold axiosInstance_post, axiosInstance_request.
  destruct (script_split (net_script w0)) as (rs & tail & Hs & Hall & Htail).
  destruct (axios_request_throttled rs (List.length (net_script w0)) config
              tail (emit (EvPost config) w0) Hall Htail Hs)
    as (evs & Ht & _ & _ & Hp & _ & Hns & _ & _ & _ & Hr & _ & Herr).
  { rewrite Hs, length_app, length_map. lia. }
  unfold run_world, run_result in *. cbn [net_script emit trace] in *.
  destruct (axios_request _ config (emit (EvPost config) w0)) as [res w1].
  cbn [fst snd] in *. subst res.
  rewrite <- Hn1, Hs, (settle_split rs tail Hall Htail). cbn [fst snd].
  exists w1, (e1 ++ EvPost config :: evs).
  split; [unfold settled; destruct (next_outcome tail); reflexivity|].
  split; [exact Hns|].
  rewrite Ht, Ht1, <- !app_assoc. cbn [app].
  change (EvPost config :: evs) with ([EvPost config] ++ evs).
  rewrite !posts_of_app, !errors_logged_app, Hp1, He1, Hp, Herr.
  repeat split.
Qed.

(** The loop over the batches, in closed form. *)
Lemma fetch_batches_settle (batches : list (list Z)) :
  forall (results : list api_nation) (w : World),
    let outcomes := settlements (List.length batches) (net_script w) in
    let w' := run_world (for_of_acc batches results fetch_batch) w in
    run_result (for_of_acc batches results fetch_batch) w
    = Ok (results ++ flat_map batch_entities outcomes)
    /\ posts_of (trace w')
       = posts_of (trace w) ++ map FetchSpecificNations batches
    /\ errors_logged (trace w')
       = errors_logged (trace w)
           ++ flat_map (fun bo => batch_errors (fst bo) (snd bo))
                (combine batches outcomes).
Proof.
  induction batches as [|b rest IH]; intros results w; cbv zeta.
  - cbn. rewrite !app_nil_r. repeat split.
  - unfold run_world, run_result. cbn [for_of_acc]. rewrite bind_run.
    rewrite fetch_batch_outcome.
    destruct (guarded_post_settles (FetchSpecificNations b) w)
      as (w1 & evs & Hrun & Hns & Ht & Hp & He).
    rewrite Hrun.
    cbn [List.length settlements combine flat_map map fst snd].
    unfold batch_errors at 1.
    destruct (fst (settle (net_script w))) as [r|m] eqn:Ho;
      cbn [settled batch_entities];
      [destruct (validateStatus (status r))|].
    + specialize (IH (results ++ entities_of r) w1). cbv zeta in IH.
      unfold run_world, run_result in IH.
      destruct IH as (Hres & Hposts & Herrs).
      rewrite Hres, Hposts, Herrs, Hns, Ht, posts_of_app, errors_logged_app,
        Hp, He, app_nil_r, <- !app_assoc.
      repeat split.
    + match goal with |- context [for_of_acc rest results fetch_batch ?w2] =>
        specialize (IH results w2) end.
      cbv zeta in IH. unfold run_world, run_result in IH.
      destruct IH as (Hres & Hposts & Herrs).
      rewrite Hres, Hposts, Herrs. cbn [net_script trace emit].
      rewrite Hns, Ht, !posts_of_app, !errors_logged_app, Hp, He, app_nil_r,
        <- !app_assoc.
      repeat split.
    + match goal with |- context [for_of_acc rest results fetch_batch ?w2] =>
        specialize (IH results w2) end.
      cbv zeta in IH. unfold run_world, run_result in IH.
      destruct IH as (Hres & Hposts & Herrs).
      rewrite Hres, Hposts, Herrs. cbn [net_script trace emit].
      rewrite Hns, Ht, !posts_of_app, !errors_logged_app, Hp, He, app_nil_r,
        <- !app_assoc.
      repeat split.
Qed.

(** C4. [fetchSpecificNations] cuts the id list into consecutive batches
    of at most 100 ids (all but the last of exactly 100) and posts one
    request per batch, in order, whatever happens to the others; it
    never throws.  What it returns is, batch after batch, the entities
    of the response that settled the batch's request when that response
    is a 2xx, and nothing for a batch whose request failed (any other
    response, or none); each failed batch is logged once, with its
    first five ids and the error message.  When the ids are distinct
    the logged prefix belongs to one batch only. *)
Theorem fetchSpecificNations_batches_independent
        (nationIds : list Z) (w : World) :
  let batches := make_batches nationIds in
  let outcomes := settlements (List.length batches) (net_script w) in
  let w' := run_world (fetchSpecificNations nationIds) w in
  List.concat batches = nationIds
  /\ Forall (fun b => (0 < List.length b <= 100)%nat) batches
  /\ Forall (fun b => List.length b = 100%nat) (removelast batches)
  /\ run_result (fetchSpecificNations nationIds) w
     = Ok (flat_map batch_entities outcomes)
  /\ posts_of (trace w')
     = posts_of (trace w) ++ map FetchSpecificNations batches
  /\ errors_logged (trace w')
     = errors_logged (trace w)
         ++ flat_map (fun bo => batch_errors (fst bo) (snd bo))
              (combine batches outcomes)
  /\ (NoDup nationIds ->
      forall b1 b2, In b1 batches -> In b2 batches ->
                    firstn 5 b1 = firstn 5 b2 -> b1 = b2).
Proof.
  cbv zeta.
  assert (Hcat : List.concat (make_batches nationIds) = nationIds).
  { unfold make_batches. rewrite make_batches_from_concat by lia.
    reflexivity. }
  destruct (make_batches_from_sizes nationIds (List.length nationIds) 0)
    as [Hsz Hfull].
  split; [exact Hcat|]. split; [exact Hsz|]. split; [exact Hfull|].
  destruct (fetch_batches_settle (make_batches nationIds) [] w)
    as (Hres & Hposts & Herrs).
  split; [exact Hres|]. split; [exact Hposts|]. split; [exact Herrs|].
  intros Hnd b1 b2 H1 H2 H5.
  rewrite <- Hcat in Hnd.
  pose proof (proj1 (Forall_forall _ _) Hsz b1 H1) as L1.
  pose proof (proj1 (Forall_forall _ _) Hsz b2 H2) as L2.
  destruct b1 as [|x b1]; [cbn in L1; lia|].
  destruct b2 as [|y b2]; [cbn in L2; lia|].
  cbn [firstn] in H5. injection H5 as -> _.
  apply (concat_disjoint _ Hnd _ _ y H1 H2); left; reflexivity.
Qed.

Lemma ids_distinct (a n : nat) : NoDup (map Z.of_nat (seq a n)).
Proof.
  revert a. induction n as [|n IH]; intros a; cbn [seq map]; constructor.
  - rewrite in_map_iff. intros (k & Hk & Hin). apply in_seq in Hin. lia.
  - apply IH.
Qed.

Lemma fetchSpecificNations_batches_independent_witness :
  nth 1 (make_batches ids_250) [] = firstn 100 (skipn 100 ids_250).
Proof.
  destruct (fetchSpecificNations_batches_independent ids_250
              world_middle_batch_fails)
    as (_ & _ & _ & _ & _ & _ & H).
  apply (H (ids_distinct 1 250)).
  - vm_compute. right. left. reflexivity.
  - vm_compute. right. left. reflexivity.
  - reflexivity.
Defined.

(** The scenario of 250 ids: batches of 100, 100 and 50; the middle
    request gets no response; the entities of the first and third
    batches are returned and one error is logged, with the first five
    ids of the middle batch. *)
Example fetchSpecificNations_250_middle_fails :
  map (@List.length Z) (make_batches ids_250) = [100; 100; 50]%nat
  /\ run_result (fetchSpecificNations ids_250) world_middle_batch_fails
     = Ok (map (fun i => nation_of i true)
               (firstn 100 ids_250 ++ skipn 200 ids_250))
  /\ errors_logged
       (trace (run_world (fetchSpecificNations ids_250)
                 world_middle_batch_fails))
     = [("Failed to fetch specific nations",
         MetaBatch [101; 102; 103; 104; 105] "socket hang up")]
  /\ posts_of
       (trace (run_world (fetchSpecificNations ids_250)
                 world_middle_batch_fails))
     = map FetchSpecificNations (make_batches ids_250).
Proof. vm_compute. repeat split. Qed.

(* ------------------------------------------------------------------ *)
(** ** Statements *)

Lemma db_query_spec (text : sql) (w : World) :
  exists w1,
    db_query text w = (fst (query_outcome text w), w1)
    /\ after_statement w w1 (snd (query_outcome text w)) (query_events text w).
Proof.
  rewrite db_query_run. unfold query_events, query_outcome, after_statement.
  cbv zeta.
  destruct (hd false (db_faults w)).
  - eexists. split; [reflexivity|]. cbn. rewrite <- app_assoc.
    repeat split.
  - destruct (exec_sql (clock w) text (db w)) as [[r d']|];
      (eexists; split; [reflexivity|]; cbn; rewrite <- app_assoc;
       repeat split).
Qed.


Lemma has_nation_update (now la i j : Z) (d : Database) :
  has_nation j (with_nations (update_nation_activity now la i (nations d)) d)
  = has_nation j d.
Proof.
  unfold has_nation, update_nation_activity. cbn [nations with_nations].
  induction (nations d) as [|r t IH]; [reflexivity|].
  cbn [map existsb]. rewrite IH. destruct (n_id r =? i); reflexivity.
Qed.


(** A statement leaves the timers and the zone of the server alone. *)
Lemma db_query_env (text : sql) (w : World) :
  server_zone (run_world (db_query text) w) = server_zone w
  /\ timers (run_world (db_query text) w) = timers w.
Proof.
  unfold run_world. rewrite db_query_run.
  destruct (hd false (db_faults w)); [split; reflexivity|].
  destruct (exec_sql (clock w) text (db w)) as [[r d']|]; split; reflexivity.
Qed.

(** [recordResetTime] never throws; it runs one statement. *)
Lemma recordResetTime_spec (i : Z) (w : World) :
  let ms := clock w / 1000 in
  let text := UpsertResetTime i (timeOnly_at w ms) ms in
  exists w1 tail,
    recordResetTime i w = (Ok tt, w1)
    /\ after_statement w w1 (snd (query_outcome text w))
         (query_events text w ++ [tail])
    /\ tail =
       match fst (query_outcome text w) with
       | Ok _ =>
           EvLog LInfo ("Reset time detected for nation " ++ show_Z i ++ ": "
                          ++ timeOnly_at w ms) NoMeta
       | Throw e =>
           EvLog LError ("Failed to record reset time for nation " ++ show_Z i)
             (MetaError e)
       end.
Proof.
  cbv zeta. unfold recordResetTime. rewrite bind_run. cbn [Date_now].
  rewrite try_catch_run, bind_run.
  destruct (db_query_spec
              (UpsertResetTime i (timeOnly_at w (clock w / 1000)) (clock w / 1000)) w)
    as (w1 & Hrun & Hd & Hc & Hf & Hn & Hr & Ht).
  rewrite Hrun.
  destruct (fst (query_outcome _ w)) as [r|e];
    (eexists; eexists; split; [reflexivity|]; split; [|reflexivity];
     unfold after_statement; cbn; rewrite Ht, <- app_assoc; repeat split; assumption).
Qed.

Lemma last_scan_lookups_query (text : sql) (w : World) :
  last_scan_lookups (query_events text w) =
  match text with
  | SelectLastScan i => [i]
  | _ => []
  end.
Proof.
  unfold query_events.
  destruct (fst (query_outcome text w)); destruct text; reflexivity.
Qed.

Lemma fault_in_tail (k : nat) (f : list bool) :
  hd false (skipn k f) = true -> forallb negb f = false.
Proof.
  revert f. induction k as [|k IH]; intros [|x f]; cbn; try discriminate.
  - intros ->. reflexivity.
  - intros H. rewrite (IH f H). apply andb_false_r.
Qed.

(** One iteration of [processResults]: it ends normally after one to
    four statements, the first of which looks up the latest scan of the
    entity; either no row was added, or the observation was appended
    and, when a reset was detected and its statement executed, the
    reset record upserted. *)
Lemma process_entry_spec (n : api_nation) (w : World) :
  let i := id n in
  exists w' evs (k : nat),
    process_entry n w = (Ok tt, w')
    /\ trace w' = trace w ++ evs
    /\ last_scan_lookups evs = [i]
    /\ (1 <= k <= 4)%nat
    /\ clock w' = clock w + Z.of_nat k
    /\ db_faults w' = skipn k (db_faults w)
    /\ net_script w' = net_script w
    /\ rateLimiter w' = rateLimiter w
    /\ (forall j, has_nation j (db w') = has_nation j (db w))
    /\ ((scan_history (db w') = scan_history (db w)
         /\ reset_times (db w') = reset_times (db w)
         /\ (fault_free w = false \/ espionage_available n = None
             \/ has_nation i (db w) = false))
        \/ exists b,
            espionage_available n = Some b
            /\ has_nation i (db w) = true
            /\ (3 <= k)%nat
            /\ scan_history (db w') =
               scan_history (db w) ++
                 [{| sh_nation_id := i; sh_espionage_available := b;
                     scanned_at := clock w + 1 |}]
            /\ ((reset_times (db w') = reset_times (db w)
                 /\ (reset_detected (select_last_scan i (db w)) n = true ->
                     fault_free w = false))
                \/ (reset_detected (select_last_scan i (db w)) n = true
                    /\ reset_times (db w') =
                       upsert_reset_time
                         {| rt_nation_id := i;
                            rt_reset_time := timeOnly_at w ((clock w + 2) / 1000);
                            rt_detected_at := (clock w + 2) / 1000 |}
                         (reset_times (db w))))).
Proof.
  cbv zeta. unfold process_entry, process_nation.
  rewrite try_catch_run, bind_run.
  (* the latest scan *)
  destruct (db_query_spec (SelectLastScan (id n)) w)
    as (w1 & Hrun1 & Hd1 & Hc1 & Hf1 & Hn1 & Hr1 & Ht1).
  pose proof (proj1 (db_query_env (SelectLastScan (id n)) w)) as Hz1.
  unfold run_world in Hz1. rewrite Hrun1 in Hz1 |- *. cbn [snd] in Hz1.
  pose proof (last_scan_lookups_query (SelectLastScan (id n)) w) as Hl1.
  unfold query_outcome in Hrun1, Hd1 |- *.
  destruct (hd false (db_faults w)) eqn:F1; cbn [fst snd exec_sql] in *.
  { eexists; eexists; exists 1%nat. split; [reflexivity|].
    cbn [logger trace emit clock db db_faults net_script rateLimiter].
    rewrite Ht1, <- app_assoc, Hd1, Hc1, Hf1.
    split; [reflexivity|]. rewrite last_scan_lookups_app, Hl1.
    repeat split; auto; try lia. left. repeat split. left.
    unfold fault_free. apply (fault_in_tail 0). exact F1. }
  (* the new row *)
  rewrite bind_run.
  destruct (db_query_spec
              (InsertScanHistory (id n) (espionage_available n)) w1)
    as (w2 & Hrun2 & Hd2 & Hc2 & Hf2 & Hn2 & Hr2 & Ht2).
  pose proof (proj1 (db_query_env
                (InsertScanHistory (id n) (espionage_available n)) w1)) as Hz2.
  unfold run_world in Hz2. rewrite Hrun2 in Hz2 |- *. cbn [snd] in Hz2.
  rewrite Hz1 in Hz2.
  pose proof (last_scan_lookups_query
                (InsertScanHistory (id n) (espionage_available n)) w1) as Hl2.
  unfold query_outcome in Hrun2, Hd2 |- *. rewrite Hf1, Hc1, Hd1 in *.
  assert (Hk2 : tl (tl (db_faults w)) = skipn 2 (db_faults w))
    by (destruct (db_faults w) as [|? [|? ?]]; reflexivity).
  assert (Hstop2 : forall e w',
    logger LError ("Failed to process nation " ++ show_Z (id n)) (MetaError e) w2
      = (Ok tt, w') ->
    db w2 = db w ->
    exists evs, trace w' = trace w ++ evs /\ last_scan_lookups evs = [id n]
      /\ clock w' = clock w + Z.of_nat 2
      /\ db_faults w' = skipn 2 (db_faults w)
      /\ net_script w' = net_script w /\ rateLimiter w' = rateLimiter w
      /\ db w' = db w).
  { intros e w' Hw' Hdb. injection Hw' as <-.
    cbn [trace emit clock db db_faults net_script rateLimiter].
    rewrite Ht2, Ht1, <- !app_assoc, Hc2, Hf2, Hn2, Hr2, Hk2.
    eexists. split; [reflexivity|].
    rewrite !last_scan_lookups_app, Hl1, Hl2.
    repeat split; auto; lia. }
  destruct (hd false (tl (db_faults w))) eqn:F2; cbn [fst snd] in *.
  { edestruct Hstop2 as (evs & H1 & H2 & H3 & H4 & H5 & H6 & H7);
      [reflexivity|exact Hd2|].
    eexists; exists evs, 2%nat. split; [reflexivity|].
    rewrite H7. repeat split; auto; try lia. left. repeat split. left.
    unfold fault_free. apply (fault_in_tail 1). exact F2. }
  cbn [exec_sql] in *.
  destruct (espionage_available n) as [b|] eqn:Hflag; cbn [fst snd] in *.
  2:{ edestruct Hstop2 as (evs & H1 & H2 & H3 & H4 & H5 & H6 & H7);
        [reflexivity|exact Hd2|].
      eexists; exists evs, 2%nat. split; [reflexivity|].
      rewrite H7. repeat split; auto; try lia. left. repeat split.
      right; left; reflexivity. }
  destruct (has_nation (id n) (db w)) eqn:Hnat; cbn [fst snd] in *.
  2:{ edestruct Hstop2 as (evs & H1 & H2 & H3 & H4 & H5 & H6 & H7);
        [reflexivity|exact Hd2|].
      eexists; exists evs, 2%nat. split; [reflexivity|].
      rewrite H7. repeat split; auto; try lia. left. repeat split.
      right; right; reflexivity. }
  clear Hstop2.
  rewrite bind_run. cbn [scan_rows].
  (* the reset record *)
  assert (Hmid : exists w3 evs3 (k3 : nat),
    (if reset_detected (select_last_scan (id n) (db w)) n
     then recordResetTime (id n) else ret tt) w2 = (Ok tt, w3)
    /\ trace w3 = trace w2 ++ evs3 /\ last_scan_lookups evs3 = []
    /\ (k3 <= 1)%nat /\ clock w3 = clock w2 + Z.of_nat k3
    /\ db_faults w3 = skipn k3 (db_faults w2)
    /\ net_script w3 = net_script w2 /\ rateLimiter w3 = rateLimiter w2
    /\ nations (db w3) = nations (db w) 
    /\ scan_history (db w3) = scan_history (db w2)
    /\ ((reset_times (db w3) = reset_times (db w)
         /\ (reset_detected (select_last_scan (id n) (db w)) n = true ->
             fault_free w = false))
        \/ (reset_detected (select_last_scan (id n) (db w)) n = true
            /\ reset_times (db w3) =
               upsert_reset_time
                 {| rt_nation_id := id n;
                    rt_reset_time := timeOnly_at w ((clock w + 2) / 1000);
                    rt_detected_at := (clock w + 2) / 1000 |}
                 (reset_times (db w))))).
  { destruct (reset_detected (select_last_scan (id n) (db w)) n) eqn:Hdet.
    - destruct (recordResetTime_spec (id n) w2)
        as (w3 & tail & Hrun3 & (Hd3 & Hc3 & Hf3 & Hn3 & Hr3 & Ht3) & Htail).
      pose proof (last_scan_lookups_query
        (UpsertResetTime (id n) (timeOnly_at w2 (clock w2 / 1000))
           (clock w2 / 1000)) w2) as Hl3.
      cbv zeta in *.
      exists w3; eexists; exists 1%nat. split; [exact Hrun3|].
      split; [exact Ht3|]. rewrite last_scan_lookups_app, Hl3.
      split; [subst tail; destruct (fst _); reflexivity|].
      split; [lia|]. split; [exact Hc3|]. split; [exact Hf3|].
      split; [exact Hn3|]. split; [exact Hr3|].
      rewrite Hd3. unfold query_outcome, timeOnly_at. rewrite Hf2, Hz2.
      replace (clock w2) with (clock w + 2) by lia.
      destruct (hd false (tl (tl (db_faults w)))) eqn:F3; cbn [snd].
      + rewrite Hd2. repeat split. left. split; [reflexivity|].
        intros _. unfold fault_free. apply (fault_in_tail 2). rewrite <- Hk2. exact F3.
      + cbn [exec_sql]. rewrite Hd2.
        replace (has_nation (id n) (with_scan_history _ (db w))) with true
          by (symmetry; exact Hnat).
        cbn. repeat split. right. split; reflexivity.
    - exists w2, [], 0%nat. rewrite app_nil_r, Z.add_0_r, Hd2.
      repeat split; try reflexivity; try lia.
      left. split; [reflexivity|discriminate]. }
  destruct Hmid as (w3 & evs3 & k3 & Hrun3 & Ht3 & Hl3 & Hk3 & Hc3 & Hf3
                    & Hn3 & Hr3 & Hnat3 & Hsh3 & Hreset).
  rewrite Hrun3, bind_run.
  (* the entity *)
  destruct (db_query_spec
              (UpdateNationActivity (last_active n) (id n)) w3)
    as (w4 & Hrun4 & Hd4 & Hc4 & Hf4 & Hn4 & Hr4 & Ht4).
  rewrite Hrun4.
  pose proof (last_scan_lookups_query
                (UpdateNationActivity (last_active n) (id n)) w3) as Hl4.
  assert (Hdb4 : forall j, has_nation j (db w4) = has_nation j (db w)).
  { intros j. rewrite Hd4. unfold query_outcome.
    destruct (hd false (db_faults w3)); cbn [snd exec_sql].
    - unfold has_nation. rewrite Hnat3. reflexivity.
    - rewrite has_nation_update. unfold has_nation. rewrite Hnat3.
      reflexivity. }
  assert (Hsh4 : scan_history (db w4) = scan_history (db w3)
                 /\ reset_times (db w4) = reset_times (db w3)).
  { rewrite Hd4. unfold query_outcome.
    destruct (hd false (db_faults w3)); cbn; split; reflexivity. }
  destruct Hsh4 as [Hsh4 Hrt4].
  assert (Hk4 : db_faults w4 = skipn (3 + k3) (db_faults w)).
  { rewrite Hf4, Hf3, Hf2.
    destruct k3 as [|[|k3]]; [| |lia];
      destruct (db_faults w) as [|? [|? [|? [|? ?]]]]; reflexivity. }
  assert (Htr4 : trace w4 = trace w ++
            (query_events (SelectLastScan (id n)) w
               ++ query_events (InsertScanHistory (id n) (Some b)) w1
               ++ evs3
               ++ query_events
                    (UpdateNationActivity (last_active n) (id n)) w3))
    by (rewrite Ht4, Ht3, Ht2, Ht1, <- !app_assoc; reflexivity).
  assert (Hlk4 : last_scan_lookups
            (query_events (SelectLastScan (id n)) w
               ++ query_events (InsertScanHistory (id n) (Some b)) w1
               ++ evs3
               ++ query_events
                    (UpdateNationActivity (last_active n) (id n)) w3)
            = [id n])
    by (rewrite !last_scan_lookups_app, Hl1, Hl2, Hl3, Hl4; reflexivity).
  assert (Htab : (scan_history (db w4) = scan_history (db w)
         /\ reset_times (db w4) = reset_times (db w)
         /\ (fault_free w = false \/ Some b = None \/ true = false))
        \/ exists b0,
            Some b = Some b0
            /\ true = true
            /\ (3 <= 3 + k3)%nat
            /\ scan_history (db w4) =
               scan_history (db w) ++
                 [{| sh_nation_id := id n; sh_espionage_available := b0;
                     scanned_at := clock w + 1 |}]
            /\ ((reset_times (db w4) = reset_times (db w)
                 /\ (reset_detected (select_last_scan (id n) (db w)) n = true ->
                     fault_free w = false))
                \/ (reset_detected (select_last_scan (id n) (db w)) n = true
                    /\ reset_times (db w4) =
                       upsert_reset_time
                         {| rt_nation_id := id n;
                            rt_reset_time := timeOnly_at w ((clock w + 2) / 1000);
                            rt_detected_at := (clock w + 2) / 1000 |}
                         (reset_times (db w))))).
  { right. exists b. split; [reflexivity|]. split; [reflexivity|].
    split; [lia|].
    rewrite Hsh4, Hsh3, Hd2, Hrt4. split; [reflexivity|]. exact Hreset. }
  destruct (fst (query_outcome (UpdateNationActivity (last_active n) (id n)) w3))
    as [r|e].
  - exists w4; eexists; exists (3 + k3)%nat.
    split; [reflexivity|]. split; [exact Htr4|]. split; [exact Hlk4|].
    repeat split; auto; try lia; congruence.
  - eexists; eexists; exists (3 + k3)%nat.
    split; [reflexivity|].
    cbn [logger trace emit clock db db_faults net_script rateLimiter].
    rewrite Htr4, <- app_assoc. split; [reflexivity|].
    rewrite last_scan_lookups_app, Hlk4.
    repeat split; auto; try lia; congruence.
Qed.

(* ------------------------------------------------------------------ *)
(** ** The loop over the fetched entities *)

Lemma skipn_skipn_faults (a b : nat) (f : list bool) :
  skipn a (skipn b f) = skipn (b + a) f.
Proof. rewrite skipn_skipn. f_equal. lia. Qed.

(** [processResults] ends normally, having looked up every entity of
    the batch in order. *)
Lemma processResults_run (apiResults : list api_nation) :
  forall w : World,
  exists w' evs (k : nat),
    processResults apiResults w = (Ok tt, w')
    /\ trace w' = trace w ++ evs
    /\ last_scan_lookups evs = map id apiResults
    /\ clock w' = clock w + Z.of_nat k
    /\ db_faults w' = skipn k (db_faults w)
    /\ net_script w' = net_script w
    /\ rateLimiter w' = rateLimiter w.
Proof.
  induction apiResults as [|n rest IH]; intros w.
  - exists w, [], 0%nat. cbn. rewrite app_nil_r, Z.add_0_r. repeat split.
  - destruct (process_entry_spec n w)
      as (w1 & e1 & k1 & Hrun & Ht & Hl & _ & Hc & Hf & Hn & Hr & _).
    destruct (IH w1) as (w2 & e2 & k2 & Hrun2 & Ht2 & Hl2 & Hc2 & Hf2 & Hn2 & Hr2).
    exists w2, (e1 ++ e2), (k1 + k2)%nat.
    unfold processResults in *. cbn [for_of]. rewrite bind_run, Hrun, Hrun2.
    rewrite Ht2, Ht, Hc2, Hc, Hf2, Hf, Hn2, Hn, Hr2, Hr, last_scan_lookups_app,
      Hl, Hl2, app_assoc, skipn_skipn_faults.
    repeat split. lia.
Qed.

(** C7. [processResults] never throws and looks up every fetched
    entity, in order, whatever fails on the way.  When the processing
    of an entity throws (a rejected or refused statement), the error is
    logged for that entity and the loop goes on with the remaining
    entities from the world the failure left; when it does not, the
    loop simply goes on. *)
Theorem processResults_isolates_entities
        (apiResults : list api_nation) (w : World) :
  (exists evs,
      processResults apiResults w
      = (Ok tt, run_world (processResults apiResults) w)
      /\ trace (run_world (processResults apiResults) w) = trace w ++ evs
      /\ last_scan_lookups evs = map id apiResults)
  /\ (forall nation rest w0 e w1,
        process_nation nation w0 = (Throw e, w1) ->
        processResults (nation :: rest) w0
        = processResults rest
            (emit (EvLog LError
                     ("Failed to process nation " ++ show_Z (id nation))
                     (MetaError e)) w1))
  /\ (forall nation rest w0 w1,
        process_nation nation w0 = (Ok tt, w1) ->
        processResults (nation :: rest) w0 = processResults rest w1).
Proof.
  split; [|split].
  - destruct (processResults_run apiResults w)
      as (w' & evs & k & Hrun & Ht & Hl & _).
    exists evs. unfold run_world. rewrite Hrun. auto.
  - intros nation rest w0 e w1 H. unfold processResults. cbn [for_of].
    rewrite bind_run. unfold process_entry at 1.
    rewrite try_catch_run, H. reflexivity.
  - intros nation rest w0 w1 H. unfold processResults. cbn [for_of].
    rewrite bind_run. unfold process_entry at 1.
    rewrite try_catch_run, H. reflexivity.
Qed.

Lemma processResults_isolates_entities_witness :
  processResults [nation_of 555 true; nation_of 556 false]
    world_insert_rejected
  = processResults [nation_of 556 false]
      (emit (EvLog LError "Failed to process nation 555"
               (MetaError (DbError "connection terminated")))
         (run_world (process_nation (nation_of 555 true))
            world_insert_rejected)).
Proof.
  destruct (processResults_isolates_entities [] world_insert_rejected)
    as (_ & H & _).
  apply (H (nation_of 555 true) [nation_of 556 false] world_insert_rejected
           (DbError "connection terminated")).
  reflexivity.
Defined.

(** A rejected write for one entity: the entity after it is still
    processed, and its observation stored. *)
Example processResults_survives_write_failure :
  let w' := run_world (processResults [nation_of 555 true; nation_of 556 false])
              world_insert_rejected in
  queries_of (trace w') =
    [SelectLastScan 555; InsertScanHistory 555 (Some true);
     SelectLastScan 556; InsertScanHistory 556 (Some false);
     UpdateNationActivity 0 556]
  /\ map fst (errors_logged (trace w')) =
     ["Database query error"; "Failed to process nation 555"]
  /\ scan_history (db w') =
     [{| sh_nation_id := 555; sh_espionage_available := false;
         scanned_at := 10 |};
      {| sh_nation_id := 556; sh_espionage_available := false;
         scanned_at := 1003 |}].
Proof. vm_compute. repeat split. Qed.

(* ------------------------------------------------------------------ *)
(** ** A reset record that cannot be written *)

(** C9. [recordResetTime] returns normally in every world.  When the
    latest scan of a known entity has the flag down, the provider
    reports it up, and the pool rejects the third statement (the
    upsert) only: the try block of [processResults] ends normally, the
    observation is appended, no reset record is written, the failure is
    logged inside [recordResetTime], and the update of the entity is
    issued and executed. *)
Theorem recordResetTime_swallows_storage_failure
        (nation : api_nation) (w : World) (prior : scan_row)
        (later : list bool)
        (Hflag : espionage_available nation = Some true)
        (Hknown : has_nation (id nation) (db w) = true)
        (Hprior : latest_scan (id nation) (scan_history (db w)) None
                  = Some prior)
        (Hdown : sh_espionage_available prior = false)
        (Hfaults : db_faults w = false :: false :: true :: false :: later) :
  let i := id nation in
  let ms := (clock w + 2) / 1000 in
  let upsert := UpsertResetTime i (timeOnly_at w ms) ms in
  let w' := run_world (process_nation nation) w in
  (forall j w0, run_result (recordResetTime j) w0 = Ok tt)
  /\ run_result (process_nation nation) w = Ok tt
  /\ scan_history (db w') =
     scan_history (db w) ++
       [{| sh_nation_id := i; sh_espionage_available := true;
           scanned_at := clock w + 1 |}]
  /\ reset_times (db w') = reset_times (db w)
  /\ nations (db w') =
     update_nation_activity (clock w + 3) (last_active nation) i
       (nations (db w))
  /\ trace w' =
     trace w ++
       [EvQuery (SelectLastScan i) true;
        EvLog LDebug "Executed query" (MetaQuery (SelectLastScan i) None);
        EvQuery (InsertScanHistory i (Some true)) true;
        EvLog LDebug "Executed query"
          (MetaQuery (InsertScanHistory i (Some true)) None);
        EvQuery upsert false;
        EvLog LError "Database query error"
          (MetaQuery upsert (Some "connection terminated"));
        EvLog LError ("Failed to record reset time for nation " ++ show_Z i)
          (MetaError (DbError "connection terminated"));
        EvQuery (UpdateNationActivity (last_active nation) i) true;
        EvLog LDebug "Executed query"
          (MetaQuery (UpdateNationActivity (last_active nation) i) None)].
Proof.
  cbv zeta. split.
  { intros j w0. destruct (recordResetTime_spec j w0) as (w1 & t & H & _).
    unfold run_result. rewrite H. reflexivity. }
  assert (Hrun : exists w', process_nation nation w = (Ok tt, w')
     /\ db w' = with_nations
                  (update_nation_activity (clock w + 3) (last_active nation)
                     (id nation) (nations (db w)))
                  (with_scan_history
                     (scan_history (db w) ++
                        [{| sh_nation_id := id nation;
                            sh_espionage_available := true;
                            scanned_at := clock w + 1 |}]) (db w))
     /\ trace w' = trace w ++ 
       [EvQuery (SelectLastScan (id nation)) true;
        EvLog LDebug "Executed query" (MetaQuery (SelectLastScan (id nation)) None);
        EvQuery (InsertScanHistory (id nation) (Some true)) true;
        EvLog LDebug "Executed query"
          (MetaQuery (InsertScanHistory (id nation) (Some true)) None);
        EvQuery (UpsertResetTime (id nation) (timeOnly_at w ((clock w + 2) / 1000)) ((clock w + 2) / 1000)) false;
        EvLog LError "Database query error"
          (MetaQuery (UpsertResetTime (id nation) (timeOnly_at w ((clock w + 2) / 1000)) ((clock w + 2) / 1000)) (Some "connection terminated"));
        EvLog LError ("Failed to record reset time for nation " ++ show_Z (id nation))
          (MetaError (DbError "connection terminated"));
        EvQuery (UpdateNationActivity (last_active nation) (id nation)) true;
        EvLog LDebug "Executed query"
          (MetaQuery (UpdateNationActivity (last_active nation) (id nation)) None)]).
  { unfold process_nation.
    rewrite bind_run, db_query_run. cbv zeta. rewrite Hfaults.
    cbn [hd tl exec_sql]. rewrite bind_run, db_query_run. cbv zeta.
    cbn [db_faults clock db emit set_db set_clock set_db_faults hd tl exec_sql].
    rewrite Hflag, Hknown, bind_run.
    unfold select_last_scan, reset_detected. rewrite Hprior, Hflag.
    cbn [scan_rows]. rewrite Hdown. cbn [negb andb].
    unfold recordResetTime. rewrite bind_run. cbn [Date_now].
    rewrite try_catch_run, bind_run, db_query_run. cbv zeta.
    cbn [db_faults clock db emit set_db set_clock set_db_faults hd tl logger].
    rewrite bind_run, db_query_run. cbv zeta.
    cbn [db_faults clock db emit set_db set_clock set_db_faults hd tl exec_sql].
    eexists. split; [reflexivity|].
    cbn [db trace emit set_db set_clock set_db_faults nations
         with_scan_history].
    replace (clock w + 1 + 1 + 1) with (clock w + 3) by lia.
    replace (clock w + 1 + 1) with (clock w + 2) by lia.
    rewrite <- !app_assoc. split; reflexivity. }
  destruct Hrun as (w' & Hrun & Hd & Ht).
  unfold run_result, run_world. rewrite Hrun. cbn [fst snd].
  rewrite Hd, Ht. repeat split.
Qed.

Lemma recordResetTime_swallows_storage_failure_witness :
  run_result (process_nation (nation_of 555 true)) world_upsert_rejected
  = Ok tt
  /\ reset_times
       (db (run_world (process_nation (nation_of 555 true))
              world_upsert_rejected)) = [].
Proof.
  destruct (recordResetTime_swallows_storage_failure
              (nation_of 555 true) world_upsert_rejected
              {| sh_nation_id := 555; sh_espionage_available := false;
                 scanned_at := 10 |} [])
    as (_ & H1 & _ & H2 & _); try reflexivity.
  split; [exact H1 | exact H2].
Defined.


(* ------------------------------------------------------------------ *)
(** ** The table of reset records *)

Lemma upsert_reset_time_has (row : reset_row) (t : list reset_row) (j : Z) :
  existsb (fun r => rt_nation_id r =? j) (upsert_reset_time row t)
  = existsb (fun r => rt_nation_id r =? j) t || (rt_nation_id row =? j).
Proof.
  induction t as [|r t IH]; cbn [upsert_reset_time existsb].
  - rewrite orb_false_r. reflexivity.
  - destruct (Z.eqb_spec (rt_nation_id r) (rt_nation_id row)) as [E|E];
      cbn [existsb rt_nation_id].
    + rewrite <- E. destruct (rt_nation_id r =? j); cbn; [reflexivity|].
      rewrite orb_false_r. reflexivity.
    + rewrite IH, orb_assoc. reflexivity.
Qed.

Lemma upsert_reset_time_records (row : reset_row) (t : list reset_row) (j : Z) :
  List.length (filter (fun r => rt_nation_id r =? j) (upsert_reset_time row t))
  = if (rt_nation_id row =? j)
       && negb (existsb (fun r => rt_nation_id r =? j) t)
    then S (List.length (filter (fun r => rt_nation_id r =? j) t))
    else List.length (filter (fun r => rt_nation_id r =? j) t).
Proof.
  induction t as [|r t IH]; cbn [upsert_reset_time filter existsb].
  - destruct (rt_nation_id row =? j); reflexivity.
  - destruct (Z.eqb_spec (rt_nation_id r) (rt_nation_id row)) as [E|E];
      cbn [filter rt_nation_id].
    + rewrite <- E. destruct (rt_nation_id r =? j); reflexivity.
    + destruct (Z.eqb_spec (rt_nation_id r) j) as [Ej|Ej];
        cbn [negb orb List.length]; rewrite IH.
      * destruct (Z.eqb_spec (rt_nation_id row) j); [congruence|reflexivity].
      * reflexivity.
Qed.

Lemma no_record_filter (t : list reset_row) (j : Z) :
  existsb (fun r => rt_nation_id r =? j) t = false ->
  filter (fun r => rt_nation_id r =? j) t = [].
Proof.
  induction t as [|r t IH]; cbn; [reflexivity|].
  destruct (rt_nation_id r =? j); cbn; [discriminate|exact IH].
Qed.

(** The upsert keeps the key unique. *)
Lemma upsert_reset_time_unique (row : reset_row) (t : list reset_row) :
  (forall j,
      (List.length (filter (fun r => (rt_nation_id r =? j)%Z) t) <= 1)%nat) ->
  forall j,
    (List.length (filter (fun r => (rt_nation_id r =? j)%Z)
                    (upsert_reset_time row t)) <= 1)%nat.
Proof.
  intros H j. rewrite upsert_reset_time_records.
  destruct (rt_nation_id row =? j); cbn [andb]; [|apply H].
  destruct (existsb _ t) eqn:E; cbn [negb]; [apply H|].
  rewrite (no_record_filter t j E). cbn. lia.
Qed.





(* ------------------------------------------------------------------ *)
(** ** The scan history *)

Lemma ascending_below_sorted (h : list scan_row) (now : Z) :
  ascending_below h now = true ->
  StronglySorted earlier h /\ Forall (fun r => scanned_at r < now) h.
Proof.
  induction h as [|r h IH]; intros H; [split; constructor|].
  cbn [ascending_below] in H. destruct h as [|r' h].
  - apply Z.ltb_lt in H. split; repeat constructor; assumption.
  - apply andb_prop in H as [Hlt Hrest]. apply Z.ltb_lt in Hlt.
    destruct (IH Hrest) as [Hs Hb].
    assert (Hall : Forall (earlier r) (r' :: h)).
    { constructor; [exact Hlt|].
      inversion Hs as [|? ? _ Hr']; subst.
      eapply Forall_impl; [|exact Hr']. unfold earlier. intros; lia. }
    split; constructor; try assumption.
    inversion Hb; subst. lia.
Qed.

Lemma ascending_below_later (h : list scan_row) (now now' : Z) :
  ascending_below h now = true -> now <= now' ->
  ascending_below h now' = true.
Proof.
  induction h as [|r h IH]; intros H Hle; [reflexivity|].
  cbn [ascending_below] in *. destruct h as [|r' h].
  - apply Z.ltb_lt in H. apply Z.ltb_lt. lia.
  - apply andb_prop in H as [Hlt Hrest]. rewrite Hlt. exact (IH Hrest Hle).
Qed.

Lemma ascending_below_app (h : list scan_row) (now now' : Z) (r : scan_row) :
  ascending_below h now = true -> now <= scanned_at r -> scanned_at r < now' ->
  ascending_below (h ++ [r]) now' = true.
Proof.
  induction h as [|x h IH]; intros H Hle Hlt.
  - cbn. apply Z.ltb_lt. exact Hlt.
  - cbn [ascending_below app] in *. destruct h as [|x' h].
    + apply Z.ltb_lt in H. cbn. rewrite andb_true_iff, !Z.ltb_lt. lia.
    + apply andb_prop in H as [Hx Hrest]. cbn [app] in *. rewrite Hx.
      exact (IH Hrest Hle Hlt).
Qed.

Lemma insert_by_stamp_front (r : scan_row) (l : list scan_row) :
  Forall (earlier r) l -> insert_by_stamp r l = r :: l.
Proof.
  destruct l as [|x l]; [reflexivity|]. intros H. inversion H; subst.
  cbn. unfold earlier in *.
  destruct (Z.leb_spec (scanned_at r) (scanned_at x)); [reflexivity|lia].
Qed.

(** Rows stored in increasing order of time are already the
    sequence. *)
Lemma sorted_sequence (p : scan_row -> bool) (h : list scan_row) :
  StronglySorted earlier h ->
  fold_right insert_by_stamp [] (filter p h) = filter p h.
Proof.
  induction 1 as [|r h Hs IH Hall]; [reflexivity|].
  cbn [filter]. destruct (p r); [|exact IH].
  cbn [fold_right]. rewrite IH. apply insert_by_stamp_front.
  apply Forall_forall. intros x Hx. apply filter_In in Hx as [Hx _].
  exact (proj1 (Forall_forall _ _) Hall x Hx).
Qed.

(** On such a history the latest scan of an entity is the last row of
    its sequence. *)
Lemma latest_scan_last (i : Z) (h : list scan_row) :
  StronglySorted earlier h ->
  forall best,
    (forall b, best = Some b -> Forall (earlier b) h) ->
    latest_scan i h best =
    match last_row (filter (fun r => sh_nation_id r =? i) h) with
    | Some r => Some r
    | None => best
    end.
Proof.
  induction 1 as [|r h Hs IH Hall]; intros best Hbest; [reflexivity|].
  cbn [latest_scan filter].
  destruct (sh_nation_id r =? i).
  - assert (Hnew : match best with
                   | Some b => if scanned_at b <? scanned_at r then Some r
                               else best
                   | None => Some r
                   end = Some r).
    { destruct best as [b|]; [|reflexivity].
      specialize (Hbest b eq_refl). inversion Hbest as [|? ? Hb _]; subst.
      unfold earlier in Hb.
      destruct (Z.ltb_spec (scanned_at b) (scanned_at r)); [reflexivity|lia]. }
    rewrite Hnew, IH by (intros b [= <-]; exact Hall).
    cbn [last_row].
    destruct (filter _ h) as [|x l] eqn:E; [reflexivity|].
    destruct (last_row (x :: l)) eqn:El; [reflexivity|].
    exfalso. clear - El. revert x El.
    induction l as [|y l IHl]; intros x El; cbn in El; [discriminate|].
    exact (IHl y El).
  - apply IH. intros b Hb. specialize (Hbest b Hb).
    inversion Hbest; assumption.
Qed.

Lemma false_then_true_app (l : list scan_row) (x : scan_row) :
  false_then_true (l ++ [x])
  = false_then_true l
    || match last_row l with
       | Some a => negb (sh_espionage_available a) && sh_espionage_available x
       | None => false
       end.
Proof.
  induction l as [|a l IH]; [reflexivity|].
  cbn [app false_then_true last_row]. destruct l as [|b l].
  - cbn. rewrite orb_false_r. reflexivity.
  - cbn [app] in *. rewrite IH, orb_assoc. reflexivity.
Qed.



(** How an appended observation changes the transitions of entity
    [i]. *)
Lemma has_transition_append (i now : Z) (new : scan_row) (d d' : Database) :
  ascending_below (scan_history d) now = true ->
  now <= scanned_at new ->
  scan_history d' = scan_history d ++ [new] ->
  has_transition i d'
  = has_transition i d
    || ((sh_nation_id new =? i)
        && match latest_scan i (scan_history d) None with
           | Some p =>
               negb (sh_espionage_available p) && sh_espionage_available new
           | None => false
           end).
Proof.
  intros Hasc Hle Hd'.
  destruct (ascending_below_sorted _ _ Hasc) as [Hs _].
  assert (Hs' : StronglySorted earlier (scan_history d')).
  { rewrite Hd'.
    apply (ascending_below_sorted _ (scanned_at new + 1)).
    apply (ascending_below_app _ now); [assumption|lia..]. }
  unfold has_transition, scan_sequence.
  rewrite (sorted_sequence _ _ Hs'), (sorted_sequence _ _ Hs), Hd', filter_app.
  rewrite (latest_scan_last i _ Hs None) by discriminate.
  cbn [filter]. destruct (sh_nation_id new =? i); cbn [andb].
  - rewrite false_then_true_app.
    destruct (last_row _); reflexivity.
  - rewrite app_nil_r, orb_false_r. reflexivity.
Qed.

Lemma reset_detected_latest (n : api_nation) (d : Database) (b : bool) :
  espionage_available n = Some b ->
  reset_detected (select_last_scan (id n) d) n
  = match latest_scan (id n) (scan_history d) None with
    | Some p => negb (sh_espionage_available p) && b
    | None => false
    end.
Proof.
  intros Hb. unfold reset_detected, select_last_scan.
  destruct (latest_scan _ _ _); [rewrite Hb|]; reflexivity.
Qed.

Lemma fault_free_skipn (k : nat) (f : list bool) :
  forallb negb f = true -> forallb negb (skipn k f) = true.
Proof.
  revert f. induction k as [|k IH]; intros [|x f]; cbn; auto.
  intros H. apply andb_prop in H as [_ H]. exact (IH f H).
Qed.

(** One iteration of [processResults] on the invariants of the
    tables. *)
Lemma process_entry_invariants (n : api_nation) (w : World) :
  chronological w = true ->
  let w' := run_world (process_entry n) w in
  chronological w' = true
  /\ (resets_justified (db w) -> resets_justified (db w'))
  /\ (fault_free w = true -> resets_exact (db w) -> resets_exact (db w'))
  /\ (fault_free w = true -> fault_free w' = true)
  /\ (resets_unique (db w) -> resets_unique (db w')).
Proof.
  intros Hchrono. cbv zeta. unfold run_world.
  destruct (process_entry_spec n w)
    as (w' & evs & k & Hrun & _ & _ & Hk & Hc & Hf & _ & _ & _ & Htab).
  rewrite Hrun. cbn [snd].
  assert (Hff : fault_free w = true -> fault_free w' = true).
  { unfold fault_free. rewrite Hf. apply fault_free_skipn. }
  unfold chronological in *.
  destruct Htab as [(Hsh & Hrt & _)|(b & Hflag & Hnat & Hk3 & Hsh & Hrt)].
  - split; [rewrite Hsh; apply (ascending_below_later _ (clock w)); [assumption|lia]|].
    unfold resets_justified, resets_exact, resets_unique, has_reset,
      has_transition, scan_sequence, reset_records_of.
    rewrite Hsh, Hrt. auto.
  - assert (Htrans := fun j =>
      has_transition_append j (clock w)
        {| sh_nation_id := id n; sh_espionage_available := b;
           scanned_at := clock w + 1 |} (db w) (db w')
        Hchrono ltac:(cbn; lia) Hsh).
    cbn [sh_nation_id sh_espionage_available] in Htrans.
    pose proof (reset_detected_latest n (db w) b Hflag) as Hdet.
    split; [rewrite Hsh; apply (ascending_below_app _ (clock w));
            [assumption|cbn; lia..]|].
    split; [|split; [|split; [exact Hff|]]].
    + intros Hj j Hr. rewrite Htrans.
      destruct Hrt as [(Hrt & _)|(Hd & Hrt)].
      * unfold has_reset in *. rewrite Hrt in Hr. rewrite (Hj j Hr). reflexivity.
      * unfold has_reset in Hr. rewrite Hrt, upsert_reset_time_has in Hr.
        cbn [rt_nation_id] in Hr.
        apply orb_prop in Hr as [Hr|Hr]; [rewrite (Hj j Hr); reflexivity|].
        rewrite Hr. apply Z.eqb_eq in Hr. subst j.
        rewrite <- Hdet, Hd. apply orb_true_r.
    + intros Hfree Hex j. rewrite Htrans.
      destruct Hrt as [(Hrt & Hno)|(Hd & Hrt)].
      * unfold has_reset at 1. rewrite Hrt. fold (has_reset j (db w)).
        rewrite (Hex j).
        destruct (Z.eqb_spec (id n) j) as [<-|]; cbn [andb];
          [|rewrite orb_false_r; reflexivity].
        rewrite <- Hdet.
        destruct (reset_detected _ n);
          [specialize (Hno eq_refl); congruence|
           rewrite orb_false_r; reflexivity].
      * unfold has_reset at 1. rewrite Hrt, upsert_reset_time_has.
        cbn [rt_nation_id]. fold (has_reset j (db w)). rewrite (Hex j).
        destruct (Z.eqb_spec (id n) j) as [<-|]; cbn [andb]; [|reflexivity].
        rewrite <- Hdet, Hd. reflexivity.
    + intros Hu j. unfold reset_records_of.
      destruct Hrt as [(Hrt & _)|(_ & Hrt)]; rewrite Hrt;
        [apply Hu|apply upsert_reset_time_unique; exact Hu].
Qed.


Lemma processResults_single (n : api_nation) (w : World) :
  run_world (processResults [n]) w = run_world (process_entry n) w.
Proof.
  unfold run_world, processResults. cbn [for_of]. rewrite bind_run.
  destruct (process_entry n w) as [[[]|e] w']; reflexivity.
Qed.

Lemma processResults_cons (n : api_nation) (rest : list api_nation)
      (w : World) :
  run_world (processResults (n :: rest)) w
  = run_world (processResults rest) (run_world (process_entry n) w).
Proof.
  destruct (process_entry_spec n w) as (w' & evs & k & Hrun & _).
  unfold run_world, processResults. cbn [for_of].
  rewrite bind_run, Hrun. reflexivity.
Qed.

(** The invariants of the tables along a whole batch. *)
Lemma processResults_invariants (apiResults : list api_nation) :
  forall w : World,
    chronological w = true ->
    let w' := run_world (processResults apiResults) w in
    chronological w' = true
    /\ (resets_justified (db w) -> resets_justified (db w'))
    /\ (fault_free w = true -> resets_exact (db w) -> resets_exact (db w'))
    /\ (fault_free w = true -> fault_free w' = true)
    /\ (resets_unique (db w) -> resets_unique (db w')).
Proof.
  induction apiResults as [|n rest IH]; intros w Hchrono; cbv zeta.
  - cbn. auto.
  - rewrite processResults_cons.
    destruct (process_entry_invariants n w Hchrono) as (H1 & H2 & H3 & H4 & H5).
    destruct (IH _ H1) as (I1 & I2 & I3 & I4 & I5).
    repeat split; auto.
Qed.

(** An entity never seen before gets no reset record from its first
    observation. *)
Lemma first_observation_no_reset (n : api_nation) (w : World) :
  chronological w = true ->
  scan_sequence (id n) (db w) = [] ->
  reset_times (db (run_world (process_entry n) w)) = reset_times (db w).
Proof.
  intros Hchrono Hseq. unfold run_world.
  destruct (process_entry_spec n w)
    as (w' & evs & k & Hrun & _ & _ & _ & _ & _ & _ & _ & _ & Htab).
  rewrite Hrun. cbn [snd].
  destruct Htab as [(_ & Hrt & _)|(b & Hflag & _ & _ & _ & [(Hrt & _)|(Hd & _)])];
    try assumption.
  exfalso. rewrite (reset_detected_latest n (db w) b Hflag) in Hd.
  destruct (ascending_below_sorted _ _ Hchrono) as [Hs _].
  unfold scan_sequence in Hseq. rewrite (sorted_sequence _ _ Hs) in Hseq.
  rewrite (latest_scan_last _ _ Hs None), Hseq in Hd by discriminate.
  discriminate Hd.
Qed.

(** A database without rows satisfies the invariants. *)
Example empty_database_invariants :
  chronological (world_of empty_database 0 [] []) = true
  /\ resets_exact empty_database
  /\ resets_justified empty_database
  /\ resets_unique empty_database.
Proof.
  split; [reflexivity|]. split; [intros i; reflexivity|].
  split; [intros i H; discriminate H|]. intros i. cbn. lia.
Qed.

(** C1, as the code has it.  Along [processResults], from a history
    stamped in increasing order: every reset record stays backed by two
    neighbouring observations of its entity with flags false then true;
    when no statement is rejected by the pool, an entity has a reset
    record exactly when its sequence has such a pair; and an entity
    without earlier observation gets no reset record from its first
    one, whatever its flag. *)
Theorem reset_records_follow_transitions
        (apiResults : list api_nation) (w : World)
        (Hchrono : chronological w = true) :
  let w' := run_world (processResults apiResults) w in
  chronological w' = true
  /\ (resets_justified (db w) -> resets_justified (db w'))
  /\ (fault_free w = true -> resets_exact (db w) -> resets_exact (db w'))
  /\ (forall nation,
        scan_sequence (id nation) (db w) = [] ->
        reset_times (db (run_world (processResults [nation]) w))
        = reset_times (db w)).
Proof.
  cbv zeta.
  destruct (processResults_invariants apiResults w Hchrono)
    as (H1 & H2 & H3 & _).
  repeat split; auto.
  intros nation Hseq. rewrite processResults_single.
  apply first_observation_no_reset; assumption.
Qed.

Lemma reset_records_follow_transitions_witness :
  has_transition 555
    (db (run_world (processResults [nation_of 555 true]) world_flag_down))
  = true.
Proof.
  destruct (reset_records_follow_transitions [nation_of 555 true]
              world_flag_down)
    as (_ & H & _).
  - reflexivity.
  - apply H.
    + intros i Hi. discriminate Hi.
    + reflexivity.
Defined.

(** The pair of observations is there and the reset record is not:
    entity 555 was last seen with its flag down, is reported with its
    flag up, and the pool rejects the upsert. *)
Lemma transition_without_reset_record :
  chronological world_upsert_rejected = true
  /\ has_reset 555 (db world_upsert_rejected) = false
  /\ has_transition 555 (db world_upsert_rejected) = false
  /\ has_transition 555
       (db (run_world (processResults [nation_of 555 true])
              world_upsert_rejected)) = true
  /\ has_reset 555
       (db (run_world (processResults [nation_of 555 true])
              world_upsert_rejected)) = false.
Proof. repeat split. Qed.


(* ------------------------------------------------------------------ *)
(** ** The upsert of reset records *)








(** The time recorded is the time of day of the server: 17:13:20 on a
    server five hours behind UTC, at 22:13:20 UTC. *)
Example recordResetTime_server_time :
  reset_times (db (run_world (recordResetTime 555) world_behind_utc))
  = [{| rt_nation_id := 555; rt_reset_time := "17:13:20";
        rt_detected_at := 80000000 |}].
Proof. reflexivity. Qed.

(* ------------------------------------------------------------------ *)
(** ** Base64 *)

Ltac bytes_arith := zify; Z.div_mod_to_equations; lia.

(** The character of a sextet is read back as that sextet, and is not
    the padding. *)
Lemma b64_value_char (n : nat) :
  (n < 64)%nat ->
  b64_value (b64_char n) = Some n /\ Ascii.eqb (b64_char n) "=" = false.
Proof.
  intros H.
  do 64 (destruct n as [|n]; [split; reflexivity|]). lia.
Qed.

Lemma b64_sextets_char (n : nat) (rest : string) :
  (n < 64)%nat ->
  b64_sextets (String (b64_char n) rest) = n :: b64_sextets rest.
Proof.
  intros H. destruct (b64_value_char n H) as [Hv Hp].
  cbn [b64_sextets]. rewrite Hp, Hv. reflexivity.
Qed.

Lemma nat_of_ascii_bound (a : ascii) : (nat_of_ascii a < 256)%nat.
Proof.
  pose proof (N_ascii_bounded a) as H. unfold nat_of_ascii. lia.
Qed.

(** Three bytes are recovered from their four sextets. *)
Lemma b64_group (x y z : nat) :
  (x < 256)%nat -> (y < 256)%nat -> (z < 256)%nat ->
  (x / 4 * 4 + (x mod 4 * 16 + y / 16) / 16 = x
   /\ (x mod 4 * 16 + y / 16) mod 16 * 16 + (y mod 16 * 4 + z / 64) / 4 = y
   /\ (y mod 16 * 4 + z / 64) mod 4 * 64 + z mod 64 = z)%nat.
Proof. intros. repeat split; bytes_arith. Qed.

Lemma b64_sextet_bounds (x y z : nat) :
  (x < 256)%nat -> (y < 256)%nat -> (z < 256)%nat ->
  (x / 4 < 64 /\ x mod 4 * 16 + y / 16 < 64
   /\ y mod 16 * 4 + z / 64 < 64 /\ z mod 64 < 64
   /\ x mod 4 * 16 < 64 /\ y mod 16 * 4 < 64)%nat.
Proof. intros. repeat split; bytes_arith. Qed.

(** Decoding what was encoded gives the bytes back. *)
Lemma base64_decode_encode (s : string) :
  base64_decode (base64_encode s) = s.
Proof.
  unfold base64_decode.
  enough (H : b64_bytes (b64_sextets (base64_encode s)) = s
              /\ (forall a, b64_bytes (b64_sextets (base64_encode (String a s)))
                            = String a s)
              /\ (forall a b,
                     b64_bytes (b64_sextets
                                  (base64_encode (String a (String b s))))
                     = String a (String b s))) by exact (proj1 H).
  induction s as [|c s (IH0 & IH1 & IH2)].
  - split; [reflexivity|]. split.
    + intros a. pose proof (nat_of_ascii_bound a) as Ha.
      destruct (b64_sextet_bounds (nat_of_ascii a) 0 0 Ha) as (B1 & _ & _ & _ & B5 & _);
        try lia.
      cbn [base64_encode]. rewrite !b64_sextets_char by assumption.
      cbn [b64_sextets Ascii.eqb Bool.eqb b64_bytes].
      replace (nat_of_ascii a / 4 * 4 + nat_of_ascii a mod 4 * 16 / 16)%nat
        with (nat_of_ascii a) by bytes_arith.
      rewrite ascii_nat_embedding. reflexivity.
    + intros a b. pose proof (nat_of_ascii_bound a) as Ha.
      pose proof (nat_of_ascii_bound b) as Hb.
      destruct (b64_sextet_bounds (nat_of_ascii a) (nat_of_ascii b) 0 Ha Hb)
        as (B1 & B2 & _ & _ & _ & B6); try lia.
      cbn [base64_encode]. rewrite !b64_sextets_char by assumption.
      cbn [b64_sextets Ascii.eqb Bool.eqb b64_bytes].
      replace (nat_of_ascii a / 4 * 4
               + (nat_of_ascii a mod 4 * 16 + nat_of_ascii b / 16) / 16)%nat
        with (nat_of_ascii a) by bytes_arith.
      replace ((nat_of_ascii a mod 4 * 16 + nat_of_ascii b / 16) mod 16 * 16
               + nat_of_ascii b mod 16 * 4 / 4)%nat
        with (nat_of_ascii b) by bytes_arith.
      rewrite !ascii_nat_embedding. reflexivity.
  - split; [exact (IH1 c)|]. split; [intros a; exact (IH2 a c)|].
    intros a b. pose proof (nat_of_ascii_bound a) as Ha.
    pose proof (nat_of_ascii_bound b) as Hb.
    pose proof (nat_of_ascii_bound c) as Hc.
    destruct (b64_sextet_bounds _ _ _ Ha Hb Hc) as (B1 & B2 & B3 & B4 & _).
    destruct (b64_group _ _ _ Ha Hb Hc) as (G1 & G2 & G3).
    cbn [base64_encode]. rewrite !b64_sextets_char by assumption.
    cbn [b64_bytes]. rewrite G1, G2, G3, IH0, !ascii_nat_embedding.
    reflexivity.
Qed.


(* ------------------------------------------------------------------ *)
(** ** The cursor sent back to the provider *)

Lemma split_on_prefix (sep : ascii) (p t : string) :
  split_on sep p = [p] ->
  split_on sep (p ++ String sep t) = p :: split_on sep t.
Proof.
  induction p as [|c p IH]; intros H.
  - cbn. rewrite Ascii.eqb_refl. reflexivity.
  - cbn [split_on append] in *. destruct (Ascii.eqb c sep); [discriminate H|].
    destruct (split_on sep p) as [|h tl] eqn:E.
    + injection H as <-. discriminate E.
    + injection H as -> ->. rewrite IH by reflexivity. reflexivity.
Qed.

Lemma base64_encode_nonempty (c : ascii) (s : string) :
  str_truthy (base64_encode (String c s)) = true.
Proof. destruct s as [|b [|d s]]; reflexivity. Qed.

(** A token of the provider's usual shape comes back unchanged. *)
Lemma replayed_token_canonical (n : Z) :
  0 < n ->
  replayed_token (Some (base64_encode ("arrayconnection:" ++ show_Z n)))
  = Some (base64_encode ("arrayconnection:" ++ show_Z n)).
Proof.
  intros Hn. unfold replayed_token, cursor_offset.
  change ("arrayconnection:" ++ show_Z n)%string
    with (String "a" ("rrayconnection:" ++ show_Z n)) at 1.
  rewrite base64_encode_nonempty, base64_decode_encode.
  change ("arrayconnection:" ++ show_Z n)%string
    with ("arrayconnection" ++ String ":" (show_Z n))%string at 1.
  rewrite split_on_prefix by reflexivity.
  assert (Hplain : split_on ":" (show_Z n) = [show_Z n]).
  { unfold show_Z. destruct (Z.ltb_spec n 0); [lia|].
    destruct (show_nonneg_reads n ltac:(lia)) as (k & (_ & Hall & _) & Hne).
    exact (proj2 (proj2 (proj2 (all_digits_plain _ Hall Hne)))). }
  rewrite Hplain. cbn [nth_error parseInt].
  rewrite parseInt_show_Z by lia.
  unfold after_of_offset. cbn [js_gt show_num].
  destruct (Z.ltb_spec 0 n); [reflexivity|lia].
Qed.

(* ------------------------------------------------------------------ *)
(** ** The bootstrap loop *)

Lemma posts_of_query (text : sql) (w : World) :
  posts_of (query_events text w) = [].
Proof. unfold query_events. destruct (fst (query_outcome text w)); reflexivity. Qed.

(** A request served at once. *)
Lemma axiosInstance_post_served (config : request_config) (w : World)
      (r : http_response) (rest : list net_outcome) :
  net_script w = Http r :: rest -> validateStatus (status r) = true ->
  run_result (axiosInstance_post config) w = Ok r
  /\ net_script (run_world (axiosInstance_post config) w) = rest.
Proof.
  intros Hs Hv. unfold run_result, run_world, axiosInstance_post,
    axiosInstance_request.
  rewrite axios_request_step. cbv zeta. cbn [net_script emit]. rewrite Hs.
  cbn [next_outcome hd tl]. rewrite Hv.
  destruct (handleRateLimitHeaders_run r
              (emit (EvExchange config (Http r))
                 (set_net_script rest (emit (EvPost config) w))))
    as (evs & Hr & _ & _ & _ & _ & _ & _ & Hn & _).
  unfold run_result, run_world in *. rewrite Hr, Hn. split; reflexivity.
Qed.

(** The import of the stored rows of a page. *)
Lemma import_rows_run (data : list api_nation) :
  forall w : World,
    let body := fun nation => db_query (UpsertNation nation) ;; ret tt in
    exists evs,
      trace (run_world (for_of data body) w) = trace w ++ evs
      /\ posts_of evs = []
      /\ net_script (run_world (for_of data body) w) = net_script w
      /\ (fault_free w = true ->
          run_result (for_of data body) w = Ok tt
          /\ fault_free (run_world (for_of data body) w) = true).
Proof.
  cbv zeta. induction data as [|n data IH]; intros w.
  - exists []. cbn. rewrite app_nil_r. auto.
  - unfold run_world, run_result in *. cbn [for_of].
    rewrite !bind_run.
    destruct (db_query_spec (UpsertNation n) w)
      as (w1 & Hrun & Hd & Hc & Hf & Hn & Hr & Ht).
    rewrite Hrun. unfold query_outcome.
    pose proof (posts_of_query (UpsertNation n) w) as Hp.
    destruct (hd false (db_faults w)) eqn:F; cbn [fst snd exec_sql ret].
    + exists (query_events (UpsertNation n) w).
      split; [exact Ht|]. split; [exact Hp|]. split; [exact Hn|].
      intros Hfree. exfalso. unfold fault_free in Hfree.
      rewrite (fault_in_tail 0 _ F) in Hfree. discriminate.
    + destruct (IH w1) as (evs & Ht' & Hp' & Hn' & Hfree').
      exists (query_events (UpsertNation n) w ++ evs).
      rewrite Ht', Ht, Hn', Hn, posts_of_app, Hp, Hp', app_assoc.
      split; [reflexivity|]. split; [reflexivity|]. split; [reflexivity|].
      intros Hfree. apply Hfree'. unfold fault_free in *. rewrite Hf.
      destruct (db_faults w) as [|[|] f]; cbn in *; congruence.
Qed.

(** [fetchNationsBatch]: one posted request, built from the offset. *)
Lemma fetchNationsBatch_run (offset : jsnum) (limit : Z) (w : World) :
  let m := fetchNationsBatch offset limit in
  exists evs,
    trace (run_world m w) = trace w ++ evs
    /\ posts_of evs = [FetchNations limit (after_of_offset offset)]
    /\ db_faults (run_world m w) = db_faults w
    /\ (List.length (net_script (run_world m w))
        <= List.length (net_script w))%nat
    /\ (forall c, run_result m w = Ok c ->
        (List.length (net_script (run_world m w))
         < List.length (net_script w))%nat)
    /\ (forall r rest connection,
          net_script w = Http r :: rest ->
          validateStatus (status r) = true ->
          gql_errors (resp_data r) = false ->
          gql_data (resp_data r) = Some connection ->
          run_result m w = Ok connection /\ net_script (run_world m w) = rest).
Proof.
  cbv zeta. unfold run_world, run_result, fetchNationsBatch.
  rewrite try_catch_run, bind_run.
  destruct (waitIfNeeded_run w)
    as (e1 & Hr1 & Ht1 & Hp1 & _ & _ & _ & Hn1 & _ & Hf1).
  unfold run_result, run_world in *.
  destruct (waitIfNeeded w) as [[[]|e] w0]; [|discriminate Hr1].
  cbn [fst snd] in *. rewrite bind_run.
  set (config := FetchNations limit (after_of_offset offset)).
  destruct (axiosInstance_post_run config w0)
    as (e2 & Ht2 & Hp2 & _ & _ & Hf2 & Hle & Hlt).
  pose proof (axiosInstance_post_served config w0) as Hserved.
  unfold run_result, run_world in *.
  destruct (axiosInstance_post config w0) as [[response|e] w1];
    cbn [fst snd] in *.
  - assert (Hsv : forall r rest, net_script w = Http r :: rest ->
                validateStatus (status r) = true ->
                response = r /\ net_script w1 = rest).
    { intros r rest Hs Hv.
      destruct (Hserved r rest) as [Hok Hrest]; [congruence|assumption|].
      injection Hok as ->. auto. }
    destruct (gql_errors (resp_data response)) eqn:Herr;
      [|destruct (gql_data (resp_data response)) as [connection|] eqn:Hdata].
    + eexists (e1 ++ e2 ++ [_; _]). cbn.
      rewrite Ht2, Ht1, Hf2, Hf1, <- !app_assoc, !posts_of_app, Hp1, Hp2.
      rewrite <- Hn1.
      split; [reflexivity|]. split; [reflexivity|]. split; [reflexivity|].
      split; [exact Hle|]. split; [discriminate|].
      intros r rest connection Hs Hv He Hc.
      destruct (Hsv r rest) as [-> _]; [congruence|assumption|]. congruence.
    + exists (e1 ++ e2). cbn.
      rewrite Ht2, Ht1, Hf2, Hf1, app_assoc, posts_of_app, Hp1, Hp2.
      rewrite <- Hn1.
      split; [reflexivity|]. split; [reflexivity|]. split; [reflexivity|].
      split; [exact Hle|]. split; [intros c _; exact (Hlt response eq_refl)|].
      intros r rest connection' Hs Hv He Hc.
      destruct (Hsv r rest) as [-> Hrest]; [congruence|assumption|].
      split; [congruence|exact Hrest].
    + eexists (e1 ++ e2 ++ [_]). cbn.
      rewrite Ht2, Ht1, Hf2, Hf1, <- !app_assoc, !posts_of_app, Hp1, Hp2.
      rewrite <- Hn1.
      split; [reflexivity|]. split; [reflexivity|]. split; [reflexivity|].
      split; [exact Hle|]. split; [discriminate|].
      intros r rest connection Hs Hv He Hc.
      destruct (Hsv r rest) as [-> _]; [congruence|assumption|]. congruence.
  - eexists (e1 ++ e2 ++ [_]). cbn.
    rewrite Ht2, Ht1, Hf2, Hf1, <- !app_assoc, !posts_of_app, Hp1, Hp2.
    rewrite <- Hn1.
    split; [reflexivity|]. split; [reflexivity|]. split; [reflexivity|].
    split; [exact Hle|]. split; [discriminate|].
    intros r rest connection Hs Hv He Hc.
    destruct (Hserved r rest) as [Hok _]; [congruence|assumption|].
    discriminate Hok.
Qed.

(** The import of one page: it never throws, posts one request whose
    [after] is rebuilt from the stored cursor, and uses up an answer of
    the provider whenever a page was imported. *)
Lemma import_page_run (cursor : option string) (w : World) :
  let w' := run_world (import_page cursor) w in
  exists evs res,
    import_page cursor w = (Ok res, w')
    /\ trace w' = trace w ++ evs
    /\ posts_of evs = [FetchNations 500 (replayed_token cursor)]
    /\ (List.length (net_script w') <= List.length (net_script w))%nat
    /\ (res <> None ->
        (List.length (net_script w') < List.length (net_script w))%nat)
    /\ (forall r rest connection data,
          net_script w = Http r :: rest ->
          validateStatus (status r) = true ->
          gql_errors (resp_data r) = false ->
          gql_data (resp_data r) = Some (Some connection) ->
          conn_data connection = Some data ->
          fault_free w = true ->
          res = Some (data, Some connection)
          /\ fault_free w' = true /\ net_script w' = rest).
Proof.
  cbv zeta. unfold run_world, import_page. rewrite try_catch_run, bind_run.
  destruct (fetchNationsBatch_run (cursor_offset cursor) 500 w)
    as (e1 & Ht1 & Hp1 & Hf1 & Hle1 & Hlt1 & Hserved).
  fold (replayed_token cursor) in Hp1.
  unfold run_world, run_result in *.
  destruct (fetchNationsBatch (cursor_offset cursor) 500 w)
    as [[response|e] w1]; cbn [fst snd] in *.
  2:{ eexists (e1 ++ [_]), None. cbn.
      rewrite Ht1, <- app_assoc, posts_of_app, Hp1.
      split; [reflexivity|]. split; [reflexivity|]. split; [reflexivity|].
      split; [exact Hle1|]. split; [congruence|].
      intros r rest connection data Hs Hv He Hd _ _.
      destruct (Hserved r rest _ Hs Hv He Hd) as [Hok _]. discriminate Hok. }
  rewrite bind_run.
  destruct response as [connection|].
  2:{ eexists (e1 ++ [_]), None. cbn.
      rewrite Ht1, <- app_assoc, posts_of_app, Hp1.
      split; [reflexivity|]. split; [reflexivity|]. split; [reflexivity|].
      split; [exact Hle1|]. split; [congruence|].
      intros r rest connection data Hs Hv He Hd _ _.
      destruct (Hserved r rest _ Hs Hv He Hd) as [Hok _]. discriminate Hok. }
  destruct (conn_data connection) as [data|] eqn:Hdata.
  2:{ eexists (e1 ++ [_]), None. cbn.
      rewrite Ht1, <- app_assoc, posts_of_app, Hp1.
      split; [reflexivity|]. split; [reflexivity|]. split; [reflexivity|].
      split; [exact Hle1|]. split; [congruence|].
      intros r rest connection' data Hs Hv He Hd Hcd _.
      destruct (Hserved r rest _ Hs Hv He Hd) as [Hok _].
      injection Hok as <-. congruence. }
  cbn [ret]. rewrite bind_run.
  destruct (import_rows_run data w1) as (e2 & Ht2 & Hp2 & Hn2 & Hfree2).
  unfold run_world, run_result in *.
  destruct (for_of data _ w1) as [[[]|e] w2]; cbn [fst snd] in *.
  - exists (e1 ++ e2), (Some (data, Some connection)). cbn.
    rewrite Ht2, Ht1, Hn2, app_assoc, posts_of_app, Hp1, Hp2.
    split; [reflexivity|]. split; [reflexivity|]. split; [reflexivity|].
    split; [exact Hle1|]. split; [intros _; exact (Hlt1 _ eq_refl)|].
    intros r rest connection' data' Hs Hv He Hd Hcd Hfree.
    destruct (Hserved r rest _ Hs Hv He Hd) as [Hok Hrest].
    injection Hok as <-.
    assert (Hfree1 : fault_free w1 = true)
      by (unfold fault_free in *; rewrite Hf1; exact Hfree).
    split; [congruence|]. split; [exact (proj2 (Hfree2 Hfree1))|exact Hrest].
  - eexists (e1 ++ e2 ++ [_]), None. cbn.
    rewrite Ht2, Ht1, Hn2, <- !app_assoc, !posts_of_app, Hp1, Hp2.
    split; [reflexivity|]. split; [reflexivity|]. split; [reflexivity|].
    split; [exact Hle1|]. split; [congruence|].
    intros r rest connection' data' Hs Hv He Hd Hcd Hfree.
    assert (Hfree1 : fault_free w1 = true)
      by (unfold fault_free in *; rewrite Hf1; exact Hfree).
    destruct (Hfree2 Hfree1) as [Hok _]. discriminate Hok.
Qed.


(** One turn of the loop. *)
Lemma initializeNations_loop_S (pages : nat) (cursor : option string)
      (totalNations : Z) :
  initializeNations_loop (S pages) cursor totalNations =
  (imported <- import_page cursor ;;
   match imported with
   | None => initialization_complete totalNations
   | Some (data, response) =>
       let totalNations' := totalNations + Z.of_nat (List.length data) in
       match match response with
             | Some connection => conn_paginatorInfo connection
             | None => None
             end with
       | None =>
           logger LError "Failed to initialize nations"
             (MetaError
                (TypeError
                   "Cannot read properties of undefined (reading 'hasNextPage')")) ;;
           initialization_complete totalNations'
       | Some paginatorInfo =>
           logger LInfo
             ("Initialized " ++ show_Z totalNations' ++ " nations") NoMeta ;;
           if hasNextPage paginatorInfo
           then initializeNations_loop pages (endCursor paginatorInfo)
                  totalNations'
           else initialization_complete totalNations'
       end
   end).
Proof. reflexivity. Qed.

(** The loop ends normally; its first request is rebuilt from the
    cursor it was entered with. *)
Lemma initializeNations_loop_run (pages : nat) :
  forall (cursor : option string) (total : Z) (w : World),
    let m := initializeNations_loop pages cursor total in
    exists evs,
      m w = (Ok tt, run_world m w)
      /\ trace (run_world m w) = trace w ++ evs
      /\ ((1 <= pages)%nat ->
          hd_error (posts_of evs)
          = Some (FetchNations 500 (replayed_token cursor))).
Proof.
  cbv zeta. induction pages as [|pages IH]; intros cursor total w.
  - eexists [_]. cbn. repeat split. lia.
  - unfold run_world. rewrite initializeNations_loop_S, bind_run.
    destruct (import_page_run cursor w)
      as (e1 & res & Hrun & Ht & Hp & _).
    rewrite Hrun.
    set (w1 := run_world (import_page cursor) w) in *.
    assert (Hhd : forall more,
               hd_error (posts_of (e1 ++ more))
               = Some (FetchNations 500 (replayed_token cursor)))
      by (intros more; rewrite posts_of_app, Hp; reflexivity).
    destruct res as [[data response]|].
    2:{ eexists (e1 ++ [_]). cbn. rewrite Ht, <- app_assoc.
        split; [reflexivity|]. split; [reflexivity|]. intros _. apply Hhd. }
    destruct (match response with
              | Some connection => conn_paginatorInfo connection
              | None => None
              end) as [pi|].
    2:{ eexists (e1 ++ [_; _]). cbn. rewrite Ht, <- !app_assoc.
        split; [reflexivity|]. split; [reflexivity|]. intros _. apply Hhd. }
    rewrite bind_run. cbn [logger]. destruct (hasNextPage pi).
    + match goal with |- context [initializeNations_loop pages ?c ?t ?w2] =>
        destruct (IH c t w2) as (e2 & Hrun2 & Ht2 & _)
      end.
      unfold run_world in Hrun2, Ht2. rewrite Hrun2. cbn [snd].
      eexists (e1 ++ _ :: e2). rewrite Ht2. cbn [trace emit].
      rewrite Ht, <- !app_assoc.
      split; [reflexivity|]. split; [reflexivity|]. intros _. apply Hhd.
    + eexists (e1 ++ [_; _]). cbn. rewrite Ht, <- !app_assoc.
      split; [reflexivity|]. split; [reflexivity|]. intros _. apply Hhd.
Qed.

(** After a page served with a paginator announcing more, the next
    request is rebuilt from the cursor of that page. *)
Lemma initializeNations_loop_next (pages : nat) (cursor : option string)
      (total : Z) (w : World) (r : http_response) (rest : list net_outcome)
      (connection : nations_connection) (data : list api_nation)
      (pi : paginator_info) :
  net_script w = Http r :: rest ->
  validateStatus (status r) = true ->
  gql_errors (resp_data r) = false ->
  gql_data (resp_data r) = Some (Some connection) ->
  conn_data connection = Some data ->
  conn_paginatorInfo connection = Some pi ->
  hasNextPage pi = true ->
  fault_free w = true ->
  let m := initializeNations_loop (S (S pages)) cursor total in
  exists evs,
    trace (run_world m w) = trace w ++ evs
    /\ firstn 2 (posts_of evs)
       = [FetchNations 500 (replayed_token cursor);
          FetchNations 500 (replayed_token (endCursor pi))].
Proof.
  intros Hs Hv He Hd Hcd Hpi Hmore Hfree. cbv zeta.
  unfold run_world. rewrite initializeNations_loop_S, bind_run.
  destruct (import_page_run cursor w)
    as (e1 & res & Hrun & Ht & Hp & _ & _ & Hserved).
  rewrite Hrun.
  destruct (Hserved r rest connection data Hs Hv He Hd Hcd Hfree)
    as (-> & _ & _).
  set (w1 := run_world (import_page cursor) w) in *.
  cbv zeta. rewrite Hpi, bind_run. cbn [logger]. rewrite Hmore.
  match goal with |- context [initializeNations_loop (S pages) ?c ?t ?w2] =>
    destruct (initializeNations_loop_run (S pages) c t w2)
      as (e2 & Hrun2 & Ht2 & Hhd)
  end.
  unfold run_world in Hrun2, Ht2. rewrite Hrun2. cbn [snd].
  eexists (e1 ++ _ :: e2). rewrite Ht2. cbn [trace emit].
  rewrite Ht, <- !app_assoc.
  split; [reflexivity|].
  rewrite posts_of_app, Hp. cbn [app posts_of flat_map].
  specialize (Hhd ltac:(lia)).
  change (flat_map _ e2) with (posts_of e2).
  destruct (posts_of e2) as [|p ps]; [discriminate Hhd|].
  injection Hhd as ->. reflexivity.
Qed.

(** The bound on the number of turns set by [initializeNations] is
    never reached: any larger bound gives the same run. *)
Lemma initializeNations_loop_bound (pages : nat) :
  forall (pages' : nat) (cursor : option string) (total : Z) (w : World),
    (List.length (net_script w) < pages)%nat ->
    (List.length (net_script w) < pages')%nat ->
    initializeNations_loop pages cursor total w
    = initializeNations_loop pages' cursor total w.
Proof.
  induction pages as [|pages IH]; intros pages' cursor total w H H'; [lia|].
  destruct pages' as [|pages']; [lia|].
  rewrite !initializeNations_loop_S, !bind_run.
  destruct (import_page_run cursor w) as (e1 & res & Hrun & _ & _ & Hle & Hlt & _).
  rewrite Hrun.
  set (w1 := run_world (import_page cursor) w) in *.
  destruct res as [[data response]|]; [|reflexivity].
  specialize (Hlt ltac:(discriminate)). cbv zeta.
  destruct (match response with
            | Some connection => conn_paginatorInfo connection
            | None => None
            end) as [pi|]; [|reflexivity].
  rewrite !bind_run. cbn [logger].
  destruct (hasNextPage pi); [|reflexivity].
  apply IH; cbn [net_script emit]; lia.
Qed.

Lemma ascii_text_append (a b : string) :
  ascii_text (a ++ b) = ascii_text a && ascii_text b.
Proof.
  induction a as [|c a IH]; [reflexivity|].
  cbn [append ascii_text]. rewrite IH, andb_assoc. reflexivity.
Qed.

Lemma all_digits_ascii_text (s : string) :
  all_digits s = true -> ascii_text s = true.
Proof.
  induction s as [|c s IH]; [reflexivity|]. cbn [all_digits ascii_text].
  destruct (digit_value 10 c) as [d|] eqn:Hd; [|discriminate].
  intros H. rewrite (IH H), andb_true_r.
  unfold digit_value in Hd.
  destruct (Z.leb_spec 48 (Z.of_nat (nat_of_ascii c)));
    destruct (Z.leb_spec (Z.of_nat (nat_of_ascii c)) 57);
    cbn in Hd; try discriminate Hd.
  apply Nat.ltb_lt. lia.
Qed.

(** The offset read from a token of the provider's usual shape. *)
Lemma cursor_offset_canonical (n : Z) :
  0 <= n ->
  cursor_offset (Some (base64_encode ("arrayconnection:" ++ show_Z n)))
  = Num n
  /\ ascii_text
       (base64_decode (base64_encode ("arrayconnection:" ++ show_Z n)))
     = true.
Proof.
  intros Hn. unfold cursor_offset.
  change ("arrayconnection:" ++ show_Z n)%string
    with (String "a" ("rrayconnection:" ++ show_Z n)) at 1.
  rewrite base64_encode_nonempty, !base64_decode_encode.
  assert (Hdigits : all_digits (show_Z n) = true /\ show_Z n <> "").
  { unfold show_Z. destruct (Z.ltb_spec n 0); [lia|].
    destruct (show_nonneg_reads n Hn) as (k & (_ & Hall & _) & Hne).
    split; assumption. }
  destruct Hdigits as [Hall Hne].
  split.
  - change ("arrayconnection:" ++ show_Z n)%string
      with ("arrayconnection" ++ String ":" (show_Z n))%string.
    rewrite split_on_prefix by reflexivity.
    rewrite (proj2 (proj2 (proj2 (all_digits_plain _ Hall Hne)))).
    cbn [nth_error parseInt]. apply parseInt_show_Z. exact Hn.
  - rewrite ascii_text_append, (all_digits_ascii_text _ Hall). reflexivity.
Qed.

(** C3, as the code has it.  The bootstrap loop stores the cursor the
    provider returned, but the next page request does not carry it: the
    cursor is decoded from base64, the text after its first colon is
    read as an integer offset, and the request carries the base64 of
    [arrayconnection:<offset>], or no cursor at all when the offset is
    not positive or not a number.  This is followed for the cursors
    that decode to ASCII text with an offset below 2^53, which a double
    holds exactly.  For them: after a served page announcing more, the
    second request carries the cursor rebuilt from that of the page;
    what is sent is nothing or a token of that shape; and it equals the
    stored cursor exactly when the stored cursor is the base64 of
    [arrayconnection:N] for a positive integer [N] below 2^53. *)
Theorem resume_token_is_rebuilt :
  (forall (w : World) (r : http_response) (rest : list net_outcome)
          (connection : nations_connection) (data : list api_nation)
          (pi : paginator_info),
      net_script w = Http r :: rest ->
      validateStatus (status r) = true ->
      gql_errors (resp_data r) = false ->
      gql_data (resp_data r) = Some (Some connection) ->
      conn_data connection = Some data ->
      conn_paginatorInfo connection = Some pi ->
      hasNextPage pi = true ->
      fault_free w = true ->
      cursor_in_range (endCursor pi) ->
      exists evs,
        trace (run_world initializeNations w) = trace w ++ evs
        /\ firstn 2 (posts_of evs)
           = [FetchNations 500 None;
              FetchNations 500 (replayed_token (endCursor pi))])
  /\ (forall cursor,
        cursor_in_range cursor ->
        replayed_token cursor = None
        \/ exists n, 0 < n < 2 ^ 53
             /\ cursor_offset cursor = Num n
             /\ replayed_token cursor
                = Some (base64_encode ("arrayconnection:" ++ show_Z n)))
  /\ (forall n, 0 < n < 2 ^ 53 ->
        cursor_in_range
          (Some (base64_encode ("arrayconnection:" ++ show_Z n)))
        /\ replayed_token
             (Some (base64_encode ("arrayconnection:" ++ show_Z n)))
           = Some (base64_encode ("arrayconnection:" ++ show_Z n)))
  /\ (forall token,
        cursor_in_range (Some token) ->
        replayed_token (Some token) = Some token ->
        exists n, 0 < n < 2 ^ 53
                  /\ token = base64_encode ("arrayconnection:" ++ show_Z n)).
Proof.
  assert (Hshape : forall cursor,
            cursor_in_range cursor ->
            replayed_token cursor = None
            \/ exists n, 0 < n < 2 ^ 53
                 /\ cursor_offset cursor = Num n
                 /\ replayed_token cursor
                    = Some (base64_encode ("arrayconnection:" ++ show_Z n))).
  { intros cursor Hrange. unfold replayed_token, after_of_offset.
    destruct (cursor_offset cursor) as [|n] eqn:Ho; [left; reflexivity|].
    cbn [js_gt show_num]. destruct (Z.ltb_spec 0 n); [|left; reflexivity].
    right. exists n. split; [|split; reflexivity].
    destruct cursor as [c|]; [|cbn in Ho; injection Ho as <-; lia].
    destruct Hrange as [_ Hsafe]. rewrite Ho in Hsafe. lia. }
  split; [|split; [exact Hshape|split]].
  - intros w r rest connection data pi Hs Hv He Hd Hcd Hpi Hmore Hfree _.
    unfold run_world, initializeNations. rewrite bind_run. cbn [logger].
    rewrite Hs. cbn [List.length].
    destruct (initializeNations_loop_next (List.length rest) None 0
                (emit (EvLog LInfo "Initializing nations database" NoMeta) w)
                r rest connection data pi Hs Hv He Hd Hcd Hpi Hmore Hfree)
      as (evs & Ht & Hp).
    unfold run_world in Ht.
    eexists (_ :: evs). rewrite Ht. cbn [trace emit].
    rewrite <- app_assoc. split; [reflexivity|exact Hp].
  - intros n Hn.
    destruct (cursor_offset_canonical n ltac:(lia)) as [Ho Hascii].
    split; [|apply replayed_token_canonical; lia].
    unfold cursor_in_range. rewrite Ho. split; [exact Hascii|lia].
  - intros token Hrange H.
    destruct (Hshape (Some token) Hrange) as [E|(n & Hn & _ & E)];
      [congruence|].
    exists n. split; [exact Hn|congruence].
Qed.

Lemma resume_token_is_rebuilt_witness :
  exists evs,
    trace (run_world initializeNations world_other_cursor) = evs
    /\ firstn 2 (posts_of evs)
       = [FetchNations 500 None;
          FetchNations 500 (replayed_token (Some "Y3Vyc29yOjUwMA=="))].
Proof.
  destruct resume_token_is_rebuilt as (H & _).
  destruct (H world_other_cursor
              (page_response [nation_of 1 true] true (Some "Y3Vyc29yOjUwMA=="))
              [Http (page_response [nation_of 2 true] false None)]
              {| conn_data := Some [nation_of 1 true];
                 conn_paginatorInfo :=
                   Some {| hasNextPage := true;
                           endCursor := Some "Y3Vyc29yOjUwMA==" |} |}
              [nation_of 1 true]
              {| hasNextPage := true; endCursor := Some "Y3Vyc29yOjUwMA==" |})
    as (evs & Ht & Hp); try reflexivity.
  - split; [reflexivity|vm_compute; reflexivity].
  - exists evs. split; [exact Ht|exact Hp].
Defined.

(** The cursor is not replayed verbatim: the provider returned
    [Y3Vyc29yOjUwMA==] with the first page and the second request
    carries [YXJyYXljb25uZWN0aW9uOjUwMA==]. *)
Lemma resume_token_is_not_replayed :
  hd_error (net_script world_other_cursor)
  = Some (Http (page_response [nation_of 1 true] true
                  (Some "Y3Vyc29yOjUwMA==")))
  /\ base64_decode "Y3Vyc29yOjUwMA==" = "cursor:500"
  /\ posts_of (trace (run_world initializeNations world_other_cursor))
     = [FetchNations 500 None;
        FetchNations 500 (Some "YXJyYXljb25uZWN0aW9uOjUwMA==")].
Proof. repeat split. Qed.

(* ------------------------------------------------------------------ *)
(** ** The rate limiter and the rate-limit headers *)

(** [waitIfNeeded] either leaves the world as it is or has a wait
    ahead. *)
Lemma waitIfNeeded_cases (w : World) :
  let this := rateLimiter w in
  waitIfNeeded w = (Ok tt, w)
  \/ exists r t,
       remaining this = Num r /\ resetTime this = Some (Num t)
       /\ r <= minBuffer this /\ t <> 0 /\ 0 < t - clock w / 1000.
Proof.
  cbv zeta.
  destruct (remaining (rateLimiter w)) as [|r] eqn:Hr;
    [left; apply waitIfNeeded_returns; left; rewrite Hr; reflexivity|].
  destruct (Z.leb_spec r (minBuffer (rateLimiter w))) as [Hle|Hgt].
  2:{ left. apply waitIfNeeded_returns. left. rewrite Hr. cbn [js_le].
      apply Z.leb_gt. exact Hgt. }
  destruct (resetTime (rateLimiter w)) as [[|t]|] eqn:Ht;
    try (left; apply waitIfNeeded_returns; right; left; rewrite Ht;
         reflexivity).
  destruct (Z.eq_dec t 0) as [->|Hne].
  { left. apply waitIfNeeded_returns. right; left. rewrite Ht. reflexivity. }
  destruct (Z_lt_le_dec 0 (t - clock w / 1000)) as [Hpos|Hpast].
  - right. exists r, t. repeat split; assumption.
  - left. apply waitIfNeeded_returns. right; right. exists t.
    split; [exact Ht|exact Hpast].
Qed.

(** X1. A second [waitIfNeeded] right after the first.  When the wait
    fits a timer of Node (at most [TIMEOUT_MAX] milliseconds) and the
    timer does not fire early, the clock has reached [resetTime] when
    the first call returns, and the second call does nothing more.
    When the first call returns before [resetTime] (a timer that fired
    early, or a wait that Node cut to 1 ms), the second call sleeps
    again, for what is left. *)
Theorem waitIfNeeded_twice (w : World) :
  let this := rateLimiter w in
  let now := clock w / 1000 in
  let w1 := run_world waitIfNeeded w in
  ((forall t, resetTime this = Some (Num t) -> t - now <= TIMEOUT_MAX) ->
   0 <= hd 0 (timers w) ->
   (waitIfNeeded ;; waitIfNeeded) w = waitIfNeeded w)
  /\ (forall r t,
        remaining this = Num r -> r <= minBuffer this ->
        resetTime this = Some (Num t) -> t <> 0 ->
        clock w1 / 1000 < t ->
        sleeps_of (trace (run_world waitIfNeeded w1))
        = sleeps_of (trace w1) ++ [Num (t - clock w1 / 1000)]).
Proof.
  cbv zeta. split.
  - intros Hfit Hskew. rewrite bind_run.
    destruct (waitIfNeeded_cases w) as [E|(r & t & Hr & Ht & Hle & Hne & Hpos)];
      [rewrite E; exact E|].
    rewrite (waitIfNeeded_waits w r t Hr Ht Hle Hne Hpos).
    apply waitIfNeeded_returns. right; right. exists t.
    cbn [rateLimiter set_clock set_timers emit clock]. split; [exact Ht|].
    specialize (Hfit t Ht).
    unfold held_for, timer_delay.
    destruct (Z.leb_spec 1 (t - clock w / 1000)); [|lia].
    destruct (Z.leb_spec (t - clock w / 1000) TIMEOUT_MAX); [|lia].
    cbn [andb].
    assert (t <= (clock w
                  + Z.max 0 ((t - clock w / 1000) * 1000 + hd 0 (timers w)))
                 / 1000); [|lia].
    apply Z.div_le_lower_bound; [lia|].
    pose proof (Z.mul_div_le (clock w) 1000 ltac:(lia)). lia.
  - intros r t Hr Hle Ht Hne Hahead.
    assert (Hrl : rateLimiter (run_world waitIfNeeded w) = rateLimiter w).
    { unfold run_world.
      destruct (waitIfNeeded_cases w)
        as [E|(r' & t' & Hr' & Ht' & Hle' & Hne' & Hpos')];
        [rewrite E; reflexivity|].
      rewrite (waitIfNeeded_waits w r' t' Hr' Ht' Hle' Hne' Hpos').
      reflexivity. }
    set (w1 := run_world waitIfNeeded w) in *.
    unfold run_world at 1.
    rewrite (waitIfNeeded_waits w1 r t) by (rewrite ?Hrl; assumption || lia).
    cbn [snd trace set_clock set_timers emit].
    rewrite <- !app_assoc, !sleeps_of_app. reflexivity.
Qed.

Lemma waitIfNeeded_twice_witness :
  (waitIfNeeded ;; waitIfNeeded) world_near_limit
  = waitIfNeeded world_near_limit.
Proof.
  destruct (waitIfNeeded_twice world_near_limit) as (H & _).
  apply H; [|cbn; lia].
  intros t Ht. injection Ht as <-. vm_compute. discriminate.
Defined.

(** The world after a fulfilled response whose headers carry a
    remaining count. *)
Lemma handleRateLimitHeaders_update (r : http_response) (w : World) :
  let h := resp_headers r in
  header_truthy (header h "x-ratelimit-remaining") = true ->
  handleRateLimitHeaders r w =
  (Ok r,
   emit (EvLog LDebug "Rate limit updated"
           (MetaRateLimit (parseInt (header h "x-ratelimit-remaining"))
              (js_mul (parseInt (header h "x-ratelimit-reset")) (Num 1000))
              (parseInt (header h "x-ratelimit-limit"))))
     (set_rateLimiter
        {| remaining := parseInt (header h "x-ratelimit-remaining");
           resetTime :=
             Some (js_mul (parseInt (header h "x-ratelimit-reset")) (Num 1000));
           limit := parseInt (header h "x-ratelimit-limit");
           minBuffer := minBuffer (rateLimiter w) |} w)).
Proof.
  cbv zeta. intros H. unfold handleRateLimitHeaders. rewrite H. reflexivity.
Qed.

(** X2. A fulfilled response carrying [x-ratelimit-remaining: rem] and
    [x-ratelimit-reset: reset] (decimal, [reset] in seconds, both in the
    range a double holds exactly) is returned unchanged and leaves the
    limiter with [remaining = rem] and [resetTime = reset * 1000];
    [canMakeRequest] then says whether [rem] is above the buffer.  When
    [rem] is within the buffer and the reset lies ahead by no more than
    a timer of Node can wait, the next [waitIfNeeded] sets one timer
    for the time left to the reset and resumes when it fires: at the
    reset or later when the timer is not early.  When [rem] is above the
    buffer or the reset is past, it does nothing. *)
Theorem rate_limit_headers_hold_next_request
        (r : http_response) (w : World) (rem reset : Z)
        (Hrem : header (resp_headers r) "x-ratelimit-remaining"
                = Some (show_Z rem))
        (Hreset : header (resp_headers r) "x-ratelimit-reset"
                  = Some (show_Z reset))
        (Hrem0 : 0 <= rem < 2 ^ 53)
        (Hreset0 : 0 < reset /\ reset * 1000 < 2 ^ 53) :
  let w1 := run_world (handleRateLimitHeaders r) w in
  let w2 := run_world waitIfNeeded w1 in
  let now := clock w / 1000 in
  let buffer := minBuffer (rateLimiter w) in
  let skew := hd 0 (timers w) in
  run_result (handleRateLimitHeaders r) w = Ok r
  /\ remaining (rateLimiter w1) = Num rem
  /\ resetTime (rateLimiter w1) = Some (Num (reset * 1000))
  /\ canMakeRequest (rateLimiter w1) = (buffer <? rem)
  /\ (rem <= buffer -> 0 < reset * 1000 - now <= TIMEOUT_MAX ->
      sleeps_of (trace w2)
      = sleeps_of (trace w) ++ [Num (reset * 1000 - now)]
      /\ clock w2 = clock w + Z.max 0 ((reset * 1000 - now) * 1000 + skew)
      /\ (0 <= skew -> reset * 1000 <= clock w2 / 1000))
  /\ (buffer < rem \/ reset * 1000 <= now -> w2 = w1).
Proof.
  cbv zeta. unfold run_world, run_result.
  rewrite handleRateLimitHeaders_update
    by (rewrite Hrem; cbn; apply show_Z_truthy; lia).
  rewrite Hrem, Hreset. cbn [parseInt fst snd].
  rewrite !parseInt_show_Z by lia. cbn [js_mul].
  set (w1 := emit _ _).
  assert (Hrl : rateLimiter w1 =
                {| remaining := Num rem; resetTime := Some (Num (reset * 1000));
                   limit := parseInt (header (resp_headers r) "x-ratelimit-limit");
                   minBuffer := minBuffer (rateLimiter w) |}) by reflexivity.
  assert (Hc : clock w1 = clock w) by reflexivity.
  assert (Htm : timers w1 = timers w) by reflexivity.
  assert (Ht : trace w1 = trace w ++ [EvLog LDebug "Rate limit updated"
             (MetaRateLimit (Num rem) (Num (reset * 1000))
                (parseInt (header (resp_headers r) "x-ratelimit-limit")))])
    by reflexivity.
  split; [reflexivity|]. split; [rewrite Hrl; reflexivity|].
  split; [rewrite Hrl; reflexivity|].
  split; [rewrite Hrl; reflexivity|].
  split.
  - intros Hle Hwait.
    rewrite (waitIfNeeded_waits w1 rem (reset * 1000))
      by (rewrite ?Hrl, ?Hc; cbn [remaining resetTime minBuffer];
          reflexivity || lia).
    cbn [snd clock set_clock trace set_timers emit].
    rewrite Hc, Htm, Ht, <- !app_assoc, !sleeps_of_app.
    unfold held_for, timer_delay.
    destruct (Z.leb_spec 1 (reset * 1000 - clock w / 1000)); [|lia].
    destruct (Z.leb_spec (reset * 1000 - clock w / 1000) TIMEOUT_MAX); [|lia].
    cbn [andb]. split; [reflexivity|]. split; [reflexivity|].
    intros Hskew. apply Z.div_le_lower_bound; [lia|].
    pose proof (Z.mul_div_le (clock w) 1000 ltac:(lia)). lia.
  - intros Hskip. rewrite waitIfNeeded_returns; [reflexivity|].
    rewrite Hrl, Hc. cbn [remaining resetTime minBuffer js_le].
    destruct Hskip as [Habove|Hpast].
    + left. apply Z.leb_gt. exact Habove.
    + right; right. exists (reset * 1000). split; [reflexivity|lia].
Qed.

Lemma rate_limit_headers_hold_next_request_witness :
  1700000000000
  <= clock (run_world waitIfNeeded
              (run_world (handleRateLimitHeaders near_limit_response)
                 world_before_reset)) / 1000.
Proof.
  destruct (rate_limit_headers_hold_next_request near_limit_response
              world_before_reset 5 1700000000 eq_refl eq_refl
              ltac:(lia) ltac:(lia))
    as (_ & _ & _ & _ & H & _).
  apply H; cbn; unfold TIMEOUT_MAX; lia.
Defined.

(** X3. Incomplete rate-limit headers.  Without a non-empty
    [x-ratelimit-remaining] header the response is returned and the
    world, limiter included, is left as it was, whatever the other
    headers say.  With it but without a [x-ratelimit-reset] that
    [parseInt] can read, [resetTime] becomes [NaN] and [waitIfNeeded]
    no longer holds any request, however few remain.  With a remaining
    count that [parseInt] cannot read, [canMakeRequest] is false and
    [waitIfNeeded] does not wait either. *)
Theorem rate_limit_headers_incomplete (r : http_response) (w : World) :
  let h := resp_headers r in
  let w1 := run_world (handleRateLimitHeaders r) w in
  (header h "x-ratelimit-remaining" = None
   \/ header h "x-ratelimit-remaining" = Some "" ->
   handleRateLimitHeaders r w = (Ok r, w))
  /\ (header_truthy (header h "x-ratelimit-remaining") = true ->
      parseInt (header h "x-ratelimit-reset") = NaN ->
      resetTime (rateLimiter w1) = Some NaN
      /\ waitIfNeeded w1 = (Ok tt, w1))
  /\ (header_truthy (header h "x-ratelimit-remaining") = true ->
      parseInt (header h "x-ratelimit-remaining") = NaN ->
      canMakeRequest (rateLimiter w1) = false
      /\ waitIfNeeded w1 = (Ok tt, w1))
  /\ parseInt None = NaN.
Proof.
  cbv zeta. split; [|split; [|split; [|reflexivity]]].
  - intros [H|H]; unfold handleRateLimitHeaders; rewrite H; reflexivity.
  - intros Hrem Hreset. unfold run_world.
    rewrite (handleRateLimitHeaders_update r w Hrem), Hreset.
    cbn [snd js_mul]. split; [reflexivity|].
    unfold waitIfNeeded. cbn [rateLimiter emit set_rateLimiter resetTime
                               resetTime_truthy num_truthy].
    rewrite andb_false_r. reflexivity.
  - intros Hrem Hnan. unfold run_world.
    rewrite (handleRateLimitHeaders_update r w Hrem), Hnan.
    cbn [snd]. split; [reflexivity|]. reflexivity.
Qed.

Lemma rate_limit_headers_incomplete_witness :
  handleRateLimitHeaders (ok_response []) world_at_epoch
  = (Ok (ok_response []), world_at_epoch).
Proof.
  destruct (rate_limit_headers_incomplete (ok_response []) world_at_epoch)
    as (H & _).
  apply H. left. reflexivity.
Defined.

(* ------------------------------------------------------------------ *)
(** ** The batches, counted *)

(** The number of batches and the batch at each position. *)
Lemma make_batches_from_nth (l : list Z) (steps : nat) :
  forall i k : nat,
    (List.length l - i <= steps)%nat ->
    List.length (make_batches_from steps i l)
    = ((List.length l - i + 99) / 100)%nat
    /\ nth k (make_batches_from steps i l) []
       = firstn 100 (skipn (i + 100 * k) l).
Proof.
  induction steps as [|steps IH]; intros i k Hfuel; cbn [make_batches_from].
  - replace (List.length l - i)%nat with 0%nat by lia.
    split; [reflexivity|].
    rewrite skipn_all2 by lia. destruct k; reflexivity.
  - destruct (Nat.ltb_spec i (List.length l)) as [Hlt|Hge].
    + destruct (IH (i + batchSize)%nat (Nat.pred k)) as [Hlen Hnth];
        [unfold batchSize; lia|].
      split.
      * cbn [List.length]. rewrite Hlen. unfold batchSize. bytes_arith.
      * destruct k as [|k]; cbn [nth].
        -- rewrite Nat.mul_0_r, Nat.add_0_r. reflexivity.
        -- cbn [Nat.pred] in Hnth. rewrite Hnth. unfold batchSize.
           do 2 f_equal. lia.
    + replace (List.length l - i)%nat with 0%nat by lia.
      split; [reflexivity|].
      rewrite skipn_all2 by lia. destruct k; reflexivity.
Qed.

Lemma make_batches_one (l : list Z) :
  (0 < List.length l <= 100)%nat -> make_batches l = [l].
Proof.
  intros H. unfold make_batches.
  destruct (make_batches_from_nth l (List.length l) 0 0 ltac:(lia))
    as [Hlen Hnth].
  assert (Hone : ((List.length l - 0 + 99) / 100 = 1)%nat) by bytes_arith.
  rewrite Hone in Hlen.
  destruct (make_batches_from _ 0 l) as [|b [|c t]]; try discriminate Hlen.
  change (0 + 100 * 0)%nat with 0%nat in Hnth.
  cbn [nth skipn] in Hnth. rewrite Hnth, firstn_all2 by lia. reflexivity.
Qed.

(** X6. [fetchSpecificNations] cuts [n] ids into [ceil(n / 100)]
    batches, and the batch at position [k] is
    [nationIds.slice(100 * k, 100 * k + 100)] (empty past the end). *)
Theorem make_batches_count_and_position (nationIds : list Z) (k : nat) :
  List.length (make_batches nationIds)
  = ((List.length nationIds + 99) / 100)%nat
  /\ nth k (make_batches nationIds) []
     = firstn 100 (skipn (100 * k) nationIds).
Proof.
  unfold make_batches.
  destruct (make_batches_from_nth nationIds (List.length nationIds) 0 k)
    as [Hlen Hnth]; [lia|].
  rewrite Hlen, Hnth, Nat.sub_0_r. cbn [Nat.add]. split; reflexivity.
Qed.

(* ------------------------------------------------------------------ *)
(** ** The candidates of a scan cycle *)



Lemma insert_desc_In (n x : nation_row) (l : list nation_row) :
  In x (insert_desc n l) <-> x = n \/ In x l.
Proof.
  induction l as [|m l IH]; cbn [insert_desc].
  - cbn. intuition congruence.
  - destruct (n_last_active m <=? n_last_active n); cbn [In].
    + intuition congruence.
    + rewrite IH. intuition congruence.
Qed.

Lemma order_by_last_active_desc_In (x : nation_row) (l : list nation_row) :
  In x (order_by_last_active_desc l) <-> In x l.
Proof.
  unfold order_by_last_active_desc.
  induction l as [|n l IH]; cbn [fold_right In]; [tauto|].
  rewrite insert_desc_In, IH. intuition congruence.
Qed.

Lemma insert_desc_sorted (n : nation_row) (l : list nation_row) :
  StronglySorted at_least_as_active l ->
  StronglySorted at_least_as_active (insert_desc n l).
Proof.
  induction 1 as [|m l Hs IH Hall]; cbn [insert_desc].
  - repeat constructor.
  - destruct (Z.leb_spec (n_last_active m) (n_last_active n)) as [Hle|Hgt].
    + constructor; [constructor; assumption|].
      constructor; [exact Hle|].
      apply Forall_forall. intros x Hx.
      pose proof (proj1 (Forall_forall _ _) Hall x Hx) as H.
      unfold at_least_as_active in *. lia.
    + constructor; [exact IH|].
      apply Forall_forall. intros x Hx. apply insert_desc_In in Hx.
      destruct Hx as [->|Hx].
      * unfold at_least_as_active. lia.
      * exact (proj1 (Forall_forall _ _) Hall x Hx).
Qed.

Lemma order_by_last_active_desc_sorted (l : list nation_row) :
  StronglySorted at_least_as_active (order_by_last_active_desc l).
Proof.
  unfold order_by_last_active_desc.
  induction l as [|n l IH]; cbn [fold_right]; [constructor|].
  apply insert_desc_sorted, IH.
Qed.

Lemma sorted_app_inv (a b : list nation_row) :
  StronglySorted at_least_as_active (a ++ b) ->
  StronglySorted at_least_as_active a
  /\ forall x y, In x a -> In y b -> at_least_as_active x y.
Proof.
  induction a as [|m a IH]; cbn [app]; intros H.
  - split; [constructor|]. intros x y [].
  - inversion H as [|? ? Hs Hall]; subst. destruct (IH Hs) as [Ha Hab].
    split.
    + constructor; [exact Ha|].
      apply Forall_forall. intros x Hx.
      apply (proj1 (Forall_forall _ _) Hall). apply in_or_app. left. exact Hx.
    + intros x y [<-|Hx] Hy; [|exact (Hab x y Hx Hy)].
      apply (proj1 (Forall_forall _ _) Hall). apply in_or_app. right. exact Hy.
Qed.


Lemma rows_to_scan_spec (now : Z) (d : Database) :
  let picked := rows_to_scan now d in
  select_nations_to_scan now d
  = map (fun n => (n_id n, n_nation_name n)) picked
  /\ (List.length picked <= 5000)%nat
  /\ (forall n, In n picked ->
        In n (nations d) /\ has_reset (n_id n) d = false
        /\ now - seven_days < n_last_active n)
  /\ StronglySorted at_least_as_active picked
  /\ (forall n, In n (nations d) -> is_candidate now d n = true ->
        In n picked
        \/ (List.length picked = 5000%nat
            /\ forall p, In p picked -> at_least_as_active p n)).
Proof.
  cbv zeta. unfold rows_to_scan.
  set (L := order_by_last_active_desc (filter (is_candidate now d) (nations d))).
  split; [reflexivity|]. split; [apply firstn_le_length|].
  pose proof (order_by_last_active_desc_sorted
                (filter (is_candidate now d) (nations d))) as Hs.
  fold L in Hs. rewrite <- (firstn_skipn 5000 L) in Hs.
  destruct (sorted_app_inv _ _ Hs) as [Hs1 Hcut].
  assert (Hin : forall n, In n L <->
                          In n (nations d) /\ is_candidate now d n = true).
  { intros n. unfold L. rewrite order_by_last_active_desc_In.
    apply filter_In. }
  split; [|split; [exact Hs1|]].
  - intros n Hn.
    assert (HL : In n L)
      by (rewrite <- (firstn_skipn 5000 L); apply in_or_app; left; exact Hn).
    apply Hin in HL as [Hnat Hc]. unfold is_candidate in Hc.
    apply andb_prop in Hc as [Hr Ha].
    split; [exact Hnat|]. split; [apply negb_true_iff, Hr|].
    apply Z.ltb_lt, Ha.
  - intros n Hnat Hc.
    assert (HL : In n L) by (apply Hin; auto).
    rewrite <- (firstn_skipn 5000 L) in HL.
    apply in_app_or in HL as [H|H]; [left; exact H|right].
    split.
    + rewrite length_firstn.
      assert (List.length (skipn 5000 L) <> 0)%nat
        by (destruct (skipn 5000 L); [destruct H|discriminate]).
      rewrite length_skipn in *. lia.
    + intros p Hp. exact (Hcut p n Hp H).
Qed.


(** X7. [getNationsToScan] returns, for an executed statement, the id
    and name of at most 5000 stored nations, each without a reset record
    and active within the last 7 days, the most recently active first;
    when more than 5000 nations qualify, those left out were active no
    more recently than any that is returned.  When the pool rejects the
    statement the call throws the pool's error.  Either way the tables
    are left as they were. *)
Theorem getNationsToScan_selects (w : World) :
  let picked := rows_to_scan (clock w) (db w) in
  let m := getNationsToScan in
  (hd false (db_faults w) = false ->
   run_result m w = Ok (map (fun n => (n_id n, n_nation_name n)) picked)
   /\ db (run_world m w) = db w)
  /\ (hd false (db_faults w) = true ->
      run_result m w = Throw (DbError "connection terminated")
      /\ db (run_world m w) = db w)
  /\ (List.length picked <= 5000)%nat
  /\ (forall n, In n picked ->
        In n (nations (db w)) /\ has_reset (n_id n) (db w) = false
        /\ clock w - seven_days < n_last_active n)
  /\ StronglySorted at_least_as_active picked
  /\ (forall n, In n (nations (db w)) ->
        has_reset (n_id n) (db w) = false ->
        clock w - seven_days < n_last_active n ->
        In n picked
        \/ (List.length picked = 5000%nat
            /\ forall p, In p picked -> at_least_as_active p n)).
Proof.
  cbv zeta.
  destruct (rows_to_scan_spec (clock w) (db w))
    as (Hsel & Hlen & Hpicked & Hsorted & Hcut).
  split; [|split; [|split; [exact Hlen|split; [exact Hpicked|
    split; [exact Hsorted|]]]]].
  - intros Hacc. unfold run_result, run_world, getNationsToScan.
    rewrite bind_run, db_query_run. cbv zeta. rewrite Hacc.
    cbn [exec_sql fst snd ret candidate_rows db emit set_db].
    rewrite Hsel. split; reflexivity.
  - intros Hrej. unfold run_result, run_world, getNationsToScan.
    rewrite bind_run, db_query_run. cbv zeta. rewrite Hrej.
    split; reflexivity.
  - intros n Hn Hr Ha. apply Hcut; [exact Hn|].
    unfold is_candidate. rewrite Hr. cbn [negb andb]. apply Z.ltb_lt, Ha.
Qed.

Lemma getNationsToScan_selects_witness :
  run_result getNationsToScan world_flag_down
  = Ok (map (fun n => (n_id n, n_nation_name n))
            [known_nation 555; known_nation 556]).
Proof.
  destruct (getNationsToScan_selects world_flag_down) as (H & _).
  destruct (H eq_refl) as [E _]. exact E.
Defined.

(* ------------------------------------------------------------------ *)
(** ** What a call leaves alone

    A relation between the world before and the world after that is
    reflexive, transitive and overlooked by each effect of a method is
    kept by the method. *)

Section Frames.
Variable R : World -> World -> Prop.
Variable allowed : sql -> bool.
Hypothesis R_refl : forall w, R w w.
Hypothesis R_trans : forall a b c, R a b -> R b c -> R a c.

Lemma preserves_ret {A : Type} (a : A) : preserves R (ret a).
Proof. intros w. apply R_refl. Qed.

Lemma preserves_throw {A : Type} (e : js_error) : preserves R (@throw A e).
Proof. intros w. apply R_refl. Qed.

Lemma preserves_bind {A B : Type} (m : M A) (f : A -> M B) :
  preserves R m -> (forall a, preserves R (f a)) -> preserves R (bind m f).
Proof.
  intros Hm Hf w. unfold run_world. rewrite bind_run.
  specialize (Hm w). unfold run_world in Hm.
  destruct (m w) as [[a|e] w1]; cbn [snd] in *; [|exact Hm].
  exact (R_trans _ _ _ Hm (Hf a w1)).
Qed.

Lemma preserves_try_catch {A : Type} (body : M A)
      (handler : js_error -> M A) :
  preserves R body -> (forall e, preserves R (handler e)) ->
  preserves R (try_catch body handler).
Proof.
  intros Hm Hf w. unfold run_world. rewrite try_catch_run.
  specialize (Hm w). unfold run_world in Hm.
  destruct (body w) as [[a|e] w1]; cbn [snd] in *; [exact Hm|].
  exact (R_trans _ _ _ Hm (Hf e w1)).
Qed.

Lemma preserves_for_of {A : Type} (xs : list A) (body : A -> M unit) :
  (forall x, preserves R (body x)) -> preserves R (for_of xs body).
Proof.
  intros Hb. induction xs as [|x xs IH]; cbn [for_of].
  - apply preserves_ret.
  - apply preserves_bind; [apply Hb|intros _; exact IH].
Qed.

Lemma preserves_for_of_acc {A S : Type} (xs : list A)
      (body : A -> S -> M S) :
  (forall x s, preserves R (body x s)) ->
  forall s, preserves R (for_of_acc xs s body).
Proof.
  intros Hb. induction xs as [|x xs IH]; intros s; cbn [for_of_acc].
  - apply preserves_ret.
  - apply preserves_bind; [apply Hb|intros s'; apply IH].
Qed.

Lemma preserves_Date_now : preserves R Date_now.
Proof. intros w. apply R_refl. Qed.

(** What the relation has to overlook, one hypothesis per effect. *)
Hypothesis R_clock : forall c w, R w (set_clock c w).
Hypothesis R_log :
  forall l m meta w, l <> LError -> R w (emit (EvLog l m meta) w).
Hypothesis R_error : forall m meta w, R w (emit (EvLog LError m meta) w).
Hypothesis R_sleep : forall ms w, R w (emit (EvSleep ms) w).
Hypothesis R_timers : forall t w, R w (set_timers t w).
Hypothesis R_limiter : forall r w, R w (set_rateLimiter r w).
Hypothesis R_script : forall s w, R w (set_net_script s w).
Hypothesis R_exchange : forall c o w, R w (emit (EvExchange c o) w).
Hypothesis R_post : forall c w, R w (emit (EvPost c) w).
Hypothesis R_faults : forall f w, R w (set_db_faults f w).
Hypothesis R_query :
  forall q b w, allowed q = true -> R w (emit (EvQuery q b) w).
Hypothesis R_db :
  forall now text r d' w,
    allowed text = true ->
    exec_sql now text (db w) = Some (r, d') ->
    R w (set_db d' w).

Lemma preserves_logger (l : log_level) (m : string) (meta : log_meta) :
  l <> LError -> preserves R (logger l m meta).
Proof. intros H w. apply R_log, H. Qed.

Lemma preserves_logger_error (m : string) (meta : log_meta) :
  preserves R (logger LError m meta).
Proof. intros w. apply R_error. Qed.

Lemma preserves_sleep (ms : jsnum) : preserves R (sleep ms).
Proof.
  intros w. unfold run_world, sleep. cbn [snd].
  exact (R_trans _ _ _ (R_sleep ms w)
           (R_trans _ _ _ (R_timers _ _) (R_clock _ _))).
Qed.

Lemma preserves_RateLimiter_update (a b c : jsnum) :
  preserves R (RateLimiter_update a b c).
Proof.
  intros w. unfold run_world, RateLimiter_update, logger. cbn [snd].
  refine (R_trans _ _ _ (R_limiter _ w) (R_log _ _ _ _ _)). discriminate.
Qed.

Lemma preserves_waitIfNeeded : preserves R waitIfNeeded.
Proof.
  intros w. unfold run_world, waitIfNeeded.
  destruct (js_le _ _ && _); [|apply R_refl].
  apply (preserves_bind Date_now); [apply preserves_Date_now|].
  intros now. destruct (js_gt _ _); [|apply preserves_ret].
  apply preserves_bind; [apply preserves_logger; discriminate|].
  intros _. apply preserves_sleep.
Qed.

Lemma preserves_handleRateLimitHeaders (r : http_response) :
  preserves R (handleRateLimitHeaders r).
Proof.
  unfold handleRateLimitHeaders.
  apply preserves_bind; [|intros _; apply preserves_ret].
  destruct (header_truthy _);
    [apply preserves_RateLimiter_update|apply preserves_ret].
Qed.

Lemma preserves_adapter (config : request_config) :
  preserves R (adapter config).
Proof.
  intros w. unfold run_world, adapter.
  destruct (net_script w); cbn [snd]; [apply R_exchange|].
  exact (R_trans _ _ _ (R_script _ w) (R_exchange _ _ _)).
Qed.

Lemma preserves_handleApiError
      (request : request_config -> M http_response) (error : js_error) :
  (forall config, preserves R (request config)) ->
  preserves R (handleApiError request error).
Proof.
  intros Hreq. unfold handleApiError.
  destruct error as [m config [response|]| | |]; try apply preserves_throw.
  destruct (status response =? 429); [|apply preserves_throw].
  apply preserves_bind; [apply preserves_logger; discriminate|]. intros _.
  apply preserves_bind; [apply preserves_sleep|]. intros _. apply Hreq.
Qed.

Lemma preserves_axios_request (retries : nat) :
  forall config, preserves R (axios_request retries config).
Proof.
  induction retries as [|n IH]; intros config; cbn [axios_request];
    (apply preserves_bind; [apply preserves_adapter|]);
    intros [r|m];
    try (destruct (validateStatus (status r));
         [apply preserves_handleRateLimitHeaders|]);
    apply preserves_handleApiError; intros c;
    try apply IH; apply preserves_throw.
Qed.

Lemma preserves_axiosInstance_post (config : request_config) :
  preserves R (axiosInstance_post config).
Proof.
  intros w. unfold run_world, axiosInstance_post, axiosInstance_request.
  exact (R_trans _ _ _ (R_post config w)
           (preserves_axios_request _ config _)).
Qed.

Lemma preserves_fetchNationsBatch (offset : jsnum) (limit : Z) :
  preserves R (fetchNationsBatch offset limit).
Proof.
  unfold fetchNationsBatch. apply preserves_try_catch.
  - apply preserves_bind; [apply preserves_waitIfNeeded|]. intros _.
    apply preserves_bind; [apply preserves_axiosInstance_post|].
    intros response. destruct (gql_errors _).
    + apply preserves_bind; [apply preserves_logger_error|]. intros _.
      apply preserves_throw.
    + destruct (gql_data _); [apply preserves_ret|apply preserves_throw].
  - intros e. apply preserves_bind; [apply preserves_logger_error|].
    intros _. apply preserves_throw.
Qed.

Lemma preserves_fetchSpecificNations (nationIds : list Z) :
  preserves R (fetchSpecificNations nationIds).
Proof.
  unfold fetchSpecificNations. apply preserves_for_of_acc.
  intros batch results. unfold fetch_batch. apply preserves_try_catch.
  - apply preserves_bind; [apply preserves_waitIfNeeded|]. intros _.
    apply preserves_bind; [apply preserves_axiosInstance_post|].
    intros response.
    destruct (gql_data _) as [[connection|]|];
      [destruct (conn_data connection)|..]; apply preserves_ret.
  - intros e. apply preserves_bind; [apply preserves_logger_error|].
    intros _. apply preserves_ret.
Qed.

Lemma preserves_db_query (text : sql) :
  allowed text = true -> preserves R (db_query text).
Proof.
  intros Ha w. unfold run_world. rewrite db_query_run. cbv zeta.
  assert (Hstep : R w (set_clock (clock w + 1)
                         (set_db_faults (tl (db_faults w)) w)))
    by (eapply R_trans; [apply R_faults|apply R_clock]).
  assert (Hfail : forall m meta,
             R w (emit (EvLog LError m meta)
                    (emit (EvQuery text false)
                       (set_clock (clock w + 1)
                          (set_db_faults (tl (db_faults w)) w))))).
  { intros. eapply R_trans; [exact Hstep|].
    eapply R_trans; [apply R_query, Ha|apply R_error]. }
  destruct (hd false (db_faults w)); [apply Hfail|].
  destruct (exec_sql (clock w) text (db w)) as [[r d']|] eqn:E;
    [|apply Hfail].
  cbn [snd]. eapply R_trans; [exact Hstep|].
  eapply R_trans; [apply (R_db (clock w) text r d'); [exact Ha|exact E]|].
  eapply R_trans; [apply R_query, Ha|apply R_log; discriminate].
Qed.

Lemma preserves_recordResetTime (nationId : Z) :
  (forall i t ms, allowed (UpsertResetTime i t ms) = true) ->
  preserves R (recordResetTime nationId).
Proof.
  intros Ha w. unfold recordResetTime, run_world. cbv beta.
  match goal with |- R w (snd (?m w)) => enough (Hm : preserves R m) end;
    [exact (Hm w)|].
  apply preserves_bind; [apply preserves_Date_now|]. intros now.
  apply preserves_try_catch.
  - apply preserves_bind; [apply preserves_db_query, Ha|].
    intros _. apply preserves_logger. discriminate.
  - intros e. apply preserves_logger_error.
Qed.

Lemma preserves_processResults (apiResults : list api_nation) :
  (forall i, allowed (SelectLastScan i) = true) ->
  (forall i f, allowed (InsertScanHistory i f) = true) ->
  (forall i t ms, allowed (UpsertResetTime i t ms) = true) ->
  (forall la i, allowed (UpdateNationActivity la i) = true) ->
  preserves R (processResults apiResults).
Proof.
  intros H1 H2 H3 H4. unfold processResults. apply preserves_for_of.
  intros nation. unfold process_entry. apply preserves_try_catch.
  - unfold process_nation.
    apply preserves_bind; [apply preserves_db_query, H1|]. intros lastScan.
    apply preserves_bind; [apply preserves_db_query, H2|]. intros _.
    apply preserves_bind.
    + destruct (reset_detected _ _);
        [apply preserves_recordResetTime, H3|apply preserves_ret].
    + intros _. apply preserves_bind; [apply preserves_db_query, H4|].
      intros _. apply preserves_ret.
  - intros e. apply preserves_logger_error.
Qed.

Lemma preserves_logError (type message stackTrace : string) :
  (forall a b c d, allowed (InsertErrorLog a b c d) = true) ->
  preserves R (logError type message stackTrace).
Proof.
  intros Ha. unfold logError. apply preserves_try_catch.
  - apply preserves_bind; [apply preserves_db_query, Ha|].
    intros _. apply preserves_ret.
  - intros e. apply preserves_logger_error.
Qed.

Lemma preserves_performScan :
  allowed SelectNationsToScan = true ->
  (forall i, allowed (SelectLastScan i) = true) ->
  (forall i f, allowed (InsertScanHistory i f) = true) ->
  (forall i t ms, allowed (UpsertResetTime i t ms) = true) ->
  (forall la i, allowed (UpdateNationActivity la i) = true) ->
  (forall a b c d, allowed (InsertErrorLog a b c d) = true) ->
  preserves R performScan.
Proof.
  intros H0 H1 H2 H3 H4 H5. unfold performScan.
  apply preserves_bind; [apply preserves_Date_now|]. intros startTime.
  apply preserves_bind; [apply preserves_logger; discriminate|]. intros _.
  apply preserves_try_catch.
  - unfold getNationsToScan.
    apply preserves_bind.
    { apply preserves_bind; [apply preserves_db_query, H0|].
      intros r. apply preserves_ret. }
    intros [|c cs]; [apply preserves_logger; discriminate|].
    apply preserves_bind; [apply preserves_logger; discriminate|]. intros _.
    apply preserves_bind; [apply preserves_fetchSpecificNations|].
    intros apiResults.
    apply preserves_bind; [apply preserves_processResults; assumption|].
    intros _. apply preserves_bind; [apply preserves_Date_now|].
    intros now. apply preserves_logger. discriminate.
  - intros e. apply preserves_bind; [apply preserves_logger_error|].
    intros _. apply preserves_logError, H5.
Qed.

Lemma preserves_import_page (cursor : option string) :
  (forall n, allowed (UpsertNation n) = true) ->
  preserves R (import_page cursor).
Proof.
  intros Ha. unfold import_page. apply preserves_try_catch.
  - apply preserves_bind; [apply preserves_fetchNationsBatch|].
    intros response. apply preserves_bind.
    { destruct response as [connection|];
        [destruct (conn_data connection)|];
        first [apply preserves_ret|apply preserves_throw]. }
    intros data. apply preserves_bind; [|intros _; apply preserves_ret].
    apply preserves_for_of. intros nation.
    apply preserves_bind; [apply preserves_db_query, Ha|].
    intros _. apply preserves_ret.
  - intros e. apply preserves_bind; [apply preserves_logger_error|].
    intros _. apply preserves_ret.
Qed.

Lemma preserves_initializeNations_loop (pages : nat) :
  (forall n, allowed (UpsertNation n) = true) ->
  forall cursor total,
    preserves R (initializeNations_loop pages cursor total).
Proof.
  intros Ha.
  assert (Hdone : forall t, preserves R (initialization_complete t))
    by (intros t; apply preserves_logger; discriminate).
  induction pages as [|pages IH]; intros cursor total; [apply Hdone|].
  rewrite initializeNations_loop_S.
  apply preserves_bind; [apply preserves_import_page, Ha|].
  intros [[data response]|]; [|apply Hdone]. cbv zeta.
  destruct (match response with
            | Some connection => conn_paginatorInfo connection
            | None => None
            end) as [pi|].
  - apply preserves_bind; [apply preserves_logger; discriminate|].
    intros _. destruct (hasNextPage pi); [apply IH|apply Hdone].
  - apply preserves_bind; [apply preserves_logger_error|].
    intros _. apply Hdone.
Qed.

Lemma preserves_initializeNations :
  (forall n, allowed (UpsertNation n) = true) ->
  preserves R initializeNations.
Proof.
  intros Ha w. unfold run_world, initializeNations.
  apply (preserves_bind (logger LInfo "Initializing nations database" NoMeta)).
  - apply preserves_logger. discriminate.
  - intros _. apply preserves_initializeNations_loop, Ha.
Qed.

End Frames.

(* ------------------------------------------------------------------ *)
(** ** The relations used below *)


Lemma update_nation_activity_ids (now la i : Z) (t : list nation_row) :
  map n_id (update_nation_activity now la i t) = map n_id t.
Proof.
  unfold update_nation_activity. rewrite map_map. apply map_ext.
  intros r. destruct (n_id r =? i); reflexivity.
Qed.

Lemma provider_untouched_refl (w : World) : provider_untouched w w.
Proof. repeat split. Qed.

Lemma provider_untouched_trans (a b c : World) :
  provider_untouched a b -> provider_untouched b c -> provider_untouched a c.
Proof.
  unfold provider_untouched.
  intros (A1 & A2 & A3 & A4 & A5) (B1 & B2 & B3 & B4 & B5).
  repeat split; congruence.
Qed.

Lemma storage_untouched_refl (w : World) : storage_untouched w w.
Proof. repeat split. Qed.

Lemma storage_untouched_trans (a b c : World) :
  storage_untouched a b -> storage_untouched b c -> storage_untouched a c.
Proof.
  unfold storage_untouched. intros (A1 & A2 & A3) (B1 & B2 & B3).
  repeat split; congruence.
Qed.

Lemma no_error_logged_trans (a b c : World) :
  no_error_logged a b -> no_error_logged b c -> no_error_logged a c.
Proof. unfold no_error_logged. congruence. Qed.

Lemma keeps_scan_data_refl (w : World) : keeps_scan_data w w.
Proof.
  split; [auto|]. split; [exists []; rewrite app_nil_r|]; reflexivity.
Qed.

Lemma keeps_scan_data_trans (a b c : World) :
  keeps_scan_data a b -> keeps_scan_data b c -> keeps_scan_data a c.
Proof.
  intros (A1 & (x & A2) & A3) (B1 & (y & B2) & B3).
  split; [auto|]. split; [|congruence].
  exists (x ++ y). rewrite B2, A2, app_assoc. reflexivity.
Qed.

Lemma error_logs_untouched_refl (w : World) : error_logs_untouched w w.
Proof. split; [reflexivity|]. exists []. rewrite app_nil_r. auto. Qed.

Lemma error_logs_untouched_trans (a b c : World) :
  error_logs_untouched a b -> error_logs_untouched b c ->
  error_logs_untouched a c.
Proof.
  intros (A1 & x & A2 & A3) (B1 & y & B2 & B3).
  split; [congruence|]. exists (x ++ y).
  rewrite B2, A2, app_assoc, queries_of_app, forallb_app, A3, B3. auto.
Qed.

Lemma only_nations_grew_refl (w : World) : only_nations_grew w w.
Proof. repeat split; auto. Qed.

Lemma only_nations_grew_trans (a b c : World) :
  only_nations_grew a b -> only_nations_grew b c -> only_nations_grew a c.
Proof.
  intros (A1 & A2 & A3 & A4 & A5) (B1 & B2 & B3 & B4 & B5).
  repeat split; try congruence; auto.
Qed.

(** [upsert_nation] keeps the ids it had, in place, and adds the new
    one at the end. *)
Lemma upsert_nation_ids (now : Z) (n : api_nation) (t : list nation_row) :
  map n_id (upsert_nation now n t)
  = if existsb (fun r => n_id r =? id n) t then map n_id t
    else map n_id t ++ [id n].
Proof.
  induction t as [|r t IH]; cbn [upsert_nation existsb map app];
    [reflexivity|].
  destruct (Z.eqb_spec (n_id r) (id n)) as [E|E]; cbn [orb map].
  - rewrite E. reflexivity.
  - rewrite IH. destruct (existsb _ t); reflexivity.
Qed.

Lemma existsb_ids (i : Z) (t : list nation_row) :
  existsb (fun r => n_id r =? i) t = true <-> In i (map n_id t).
Proof.
  rewrite existsb_exists, in_map_iff. split.
  - intros (r & Hin & E). apply Z.eqb_eq in E. exists r. auto.
  - intros (r & E & Hin). exists r. split; [exact Hin|]. apply Z.eqb_eq, E.
Qed.




(** Effects that only add to the trace or touch fields a relation does
    not read. *)
Ltac frame_effect :=
  intros; cbn [trace db db_faults net_script rateLimiter clock emit set_db
               set_clock set_db_faults set_net_script set_rateLimiter];
  rewrite ?posts_of_app, ?exchanges_of_app, ?sleeps_of_app, ?queries_of_app,
    ?errors_logged_app;
  cbn [posts_of exchanges_of sleeps_of queries_of errors_logged flat_map app];
  rewrite ?app_nil_r.

Lemma processResults_provider_untouched (apiResults : list api_nation) :
  preserves provider_untouched (processResults apiResults).
Proof.
  apply (preserves_processResults provider_untouched (fun _ => true));
    try reflexivity; try exact provider_untouched_refl;
    try exact provider_untouched_trans;
    unfold provider_untouched; frame_effect; repeat split.
Qed.

Lemma fetchSpecificNations_storage_untouched (nationIds : list Z) :
  preserves storage_untouched (fetchSpecificNations nationIds).
Proof.
  apply (preserves_fetchSpecificNations storage_untouched);
    try exact storage_untouched_refl; try exact storage_untouched_trans;
    unfold storage_untouched; frame_effect; repeat split.
Qed.

Lemma fetchNationsBatch_storage_untouched (offset : jsnum) (limit : Z) :
  preserves storage_untouched (fetchNationsBatch offset limit).
Proof.
  apply (preserves_fetchNationsBatch storage_untouched);
    try exact storage_untouched_refl; try exact storage_untouched_trans;
    unfold storage_untouched; frame_effect; repeat split.
Qed.

Lemma waitIfNeeded_no_error_logged : preserves no_error_logged waitIfNeeded.
Proof.
  apply (preserves_waitIfNeeded no_error_logged);
    try (intros w; reflexivity); try exact no_error_logged_trans;
    unfold no_error_logged; intros;
    try match goal with l : log_level |- _ => destruct l; try congruence end;
    frame_effect; reflexivity.
Qed.

Lemma axiosInstance_post_no_error_logged (config : request_config) :
  preserves no_error_logged (axiosInstance_post config).
Proof.
  apply (preserves_axiosInstance_post no_error_logged);
    try (intros w; reflexivity); try exact no_error_logged_trans;
    unfold no_error_logged; intros;
    try match goal with l : log_level |- _ => destruct l; try congruence end;
    frame_effect; reflexivity.
Qed.

(** One statement of a scan cycle on the tables. *)
Lemma scan_statement_keeps (now : Z) (text : sql) (r : rows) (d' : Database)
      (w : World) :
  scan_statement text = true ->
  exec_sql now text (db w) = Some (r, d') ->
  keeps_scan_data w (set_db d' w).
Proof.
  intros Ha E. unfold keeps_scan_data. cbn [db set_db].
  destruct text; cbn [exec_sql scan_statement] in *; try discriminate Ha.
  - injection E as _ <-. apply (keeps_scan_data_refl w).
  - injection E as _ <-. apply (keeps_scan_data_refl w).
  - destruct flag; [|discriminate E].
    destruct (has_nation _ _); [|discriminate E]. injection E as _ <-.
    split; [auto|]. split; [eexists; reflexivity|reflexivity].
  - injection E as _ <-. split; [auto|].
    split; [exists []; rewrite app_nil_r; reflexivity|].
    apply update_nation_activity_ids.
  - destruct (has_nation _ _); [|discriminate E]. injection E as _ <-.
    split; [|split; [exists []; rewrite app_nil_r|]; reflexivity].
    intros i Hi. unfold has_reset in *. cbn [reset_times with_reset_times].
    rewrite upsert_reset_time_has, Hi. reflexivity.
  - injection E as _ <-. split; [auto|].
    split; [exists []; rewrite app_nil_r|]; reflexivity.
Qed.

Lemma performScan_keeps : preserves keeps_scan_data performScan.
Proof.
  apply (preserves_performScan keeps_scan_data scan_statement);
    try reflexivity; try exact keeps_scan_data_refl;
    try exact keeps_scan_data_trans;
    try exact scan_statement_keeps;
    intros;
    match goal with |- keeps_scan_data ?w _ =>
      exact (keeps_scan_data_refl w)
    end.
Qed.

Lemma not_error_log_keeps (now : Z) (text : sql) (r : rows) (d' : Database)
      (w : World) :
  not_error_log text = true ->
  exec_sql now text (db w) = Some (r, d') ->
  error_logs_untouched w (set_db d' w).
Proof.
  intros Ha E.
  split; [|exists []; cbn; rewrite app_nil_r; auto].
  cbn [db set_db].
  destruct text; cbn [exec_sql not_error_log] in *; try discriminate Ha;
    try (injection E as _ <-; reflexivity).
  - destruct flag; [|discriminate E].
    destruct (has_nation _ _); [|discriminate E]. injection E as _ <-.
    reflexivity.
  - destruct (has_nation _ _); [|discriminate E]. injection E as _ <-.
    reflexivity.
Qed.

Ltac error_logs_effect :=
  intros; split; [reflexivity|]; eexists [_]; split; [reflexivity|];
  cbn;
  try match goal with H : not_error_log _ = true |- _ => rewrite H end;
  reflexivity.

Lemma processResults_error_logs_untouched (apiResults : list api_nation) :
  preserves error_logs_untouched (processResults apiResults).
Proof.
  apply (preserves_processResults error_logs_untouched not_error_log);
    try reflexivity; try exact error_logs_untouched_refl;
    try exact error_logs_untouched_trans;
    try exact not_error_log_keeps;
    try (intros;
         match goal with |- error_logs_untouched ?w (?f _ ?w) =>
           exact (error_logs_untouched_refl w)
         end);
    try error_logs_effect.
Qed.

Lemma fetchSpecificNations_error_logs_untouched (nationIds : list Z) :
  preserves error_logs_untouched (fetchSpecificNations nationIds).
Proof.
  apply (preserves_fetchSpecificNations error_logs_untouched);
    try exact error_logs_untouched_refl;
    try exact error_logs_untouched_trans;
    try (intros;
         match goal with |- error_logs_untouched ?w (?f _ ?w) =>
           exact (error_logs_untouched_refl w)
         end);
    try error_logs_effect.
Qed.

Lemma bootstrap_statement_keeps (now : Z) (text : sql) (r : rows)
      (d' : Database) (w : World) :
  bootstrap_statement text = true ->
  exec_sql now text (db w) = Some (r, d') ->
  only_nations_grew w (set_db d' w).
Proof.
  intros Ha E. unfold only_nations_grew. cbn [db set_db].
  destruct text; cbn [exec_sql bootstrap_statement] in *;
    try discriminate Ha; injection E as _ <-;
    try apply (only_nations_grew_refl w).
  cbn [reset_times scan_history error_logs nations with_nations].
  split; [reflexivity|]. split; [reflexivity|]. split; [reflexivity|].
  unfold has_nation. cbn [nations with_nations].
  split.
  - intros j Hj. apply existsb_ids. rewrite upsert_nation_ids.
    apply existsb_ids in Hj.
    destruct (existsb _ _); [exact Hj|]. apply in_or_app. left. exact Hj.
  - intros Hnd. rewrite upsert_nation_ids.
    destruct (existsb _ _) eqn:Ex; [exact Hnd|].
    apply NoDup_app; [exact Hnd|repeat constructor; intros []|].
    intros x Hx [<-|[]]. apply existsb_ids in Hx. congruence.
Qed.

Lemma initializeNations_only_nations :
  preserves only_nations_grew initializeNations.
Proof.
  apply (preserves_initializeNations only_nations_grew bootstrap_statement);
    try reflexivity; try exact only_nations_grew_refl;
    try exact only_nations_grew_trans;
    try exact bootstrap_statement_keeps;
    intros;
    match goal with |- only_nations_grew ?w _ =>
      exact (only_nations_grew_refl w)
    end.
Qed.

(* ------------------------------------------------------------------ *)
(** ** Failures of the fetching methods *)

Lemma app_eq_self {A : Type} (a b : list A) : a ++ b = a -> b = [].
Proof.
  intros H. apply (app_inv_head a). rewrite app_nil_r. exact H.
Qed.


Lemma bind_assoc {A B C : Type} (m : M A) (f : A -> M B) (g : B -> M C)
      (w : World) :
  bind m (fun x => bind (f x) g) w = bind (bind m f) g w.
Proof.
  unfold bind. destruct (m w) as [[a|e] w1]; reflexivity.
Qed.

(** The wait and the request that both fetching methods start with:
    no error is logged on the way. *)
Lemma guarded_post_run (config : request_config) (w : World) :
  exists res w1 evs,
    (waitIfNeeded ;; axiosInstance_post config) w = (res, w1)
    /\ trace w1 = trace w ++ evs
    /\ errors_logged evs = []
    /\ (forall r rest,
          net_script w = Http r :: rest -> validateStatus (status r) = true ->
          res = Ok r /\ net_script w1 = rest)
    /\ (forall msg rest,
          net_script w = NetworkError msg :: rest ->
          res = Throw (AxiosError msg config None)).
Proof.
  rewrite bind_run.
  destruct (waitIfNeeded_run w)
    as (e1 & Hr1 & Ht1 & _ & _ & _ & _ & Hn1 & _).
  pose proof (waitIfNeeded_no_error_logged w) as He1.
  unfold run_world, run_result in *.
  destruct (waitIfNeeded w) as [[[]|e] w0]; [|discriminate Hr1].
  cbn [fst snd] in *.
  pose proof (axiosInstance_post_no_error_logged config w0) as He2.
  destruct (axiosInstance_post_run config w0) as (e2 & Ht2 & _).
  pose proof (axiosInstance_post_served config w0) as Hserved.
  assert (Hnet : forall msg rest,
             net_script w = NetworkError msg :: rest ->
             fst (axiosInstance_post config w0)
             = Throw (AxiosError msg config None)).
  { intros msg rest Hs. unfold axiosInstance_post, axiosInstance_request.
    rewrite axios_request_step. cbv zeta. cbn [net_script emit].
    rewrite Hn1, Hs. reflexivity. }
  unfold run_world, run_result, no_error_logged in *.
  destruct (axiosInstance_post config w0) as [res w1]. cbn [fst snd] in *.
  exists res, w1, (e1 ++ e2). split; [reflexivity|].
  split; [rewrite Ht2, Ht1, app_assoc; reflexivity|].
  split.
  - rewrite Ht1, errors_logged_app in He1. apply app_eq_self in He1.
    rewrite Ht2, errors_logged_app in He2. apply app_eq_self in He2.
    rewrite errors_logged_app, He1, He2. reflexivity.
  - split; [|exact Hnet].
    intros r rest Hs Hv. apply (Hserved r rest); [congruence|exact Hv].
Qed.

(** The outcomes of [fetchNationsBatch]. *)
Lemma fetchNationsBatch_outcomes (offset : jsnum) (limit : Z) (w : World) :
  let m := fetchNationsBatch offset limit in
  let w' := run_world m w in
  let config := FetchNations limit (after_of_offset offset) in
  let failed := fun message =>
    ("Failed to fetch nations batch", MetaPage offset limit message) in
  (forall e, run_result m w = Throw e ->
     exists evs,
       trace w' = trace w ++ evs
                    ++ [EvLog LError "Failed to fetch nations batch"
                          (MetaPage offset limit (error_text e))])
  /\ (forall c, run_result m w = Ok c ->
        errors_logged (trace w') = errors_logged (trace w))
  /\ (forall r rest,
        net_script w = Http r :: rest -> validateStatus (status r) = true ->
        gql_errors (resp_data r) = true ->
        run_result m w = Throw (Error "GraphQL query failed")
        /\ errors_logged (trace w')
           = errors_logged (trace w)
               ++ [("GraphQL errors", NoMeta); failed "GraphQL query failed"])
  /\ (forall msg rest,
        net_script w = NetworkError msg :: rest ->
        run_result m w = Throw (AxiosError msg config None)
        /\ errors_logged (trace w')
           = errors_logged (trace w) ++ [failed msg]).
Proof.
  cbv zeta.
  destruct (guarded_post_run (FetchNations limit (after_of_offset offset)) w)
    as (res & w1 & evs & Hrun & Ht & Hno & Hserved & Hnet).
  unfold fetchNationsBatch, run_result, run_world.
  rewrite try_catch_run, bind_assoc, bind_run, Hrun.
  destruct res as [response|e].
  - destruct (gql_errors (resp_data response)) eqn:Hge.
    + rewrite bind_run. cbn [logger throw bind fst snd trace emit error_text].
      split.
      { intros e He. injection He as <-.
        exists (evs ++ [EvLog LError "GraphQL errors" NoMeta]).
        rewrite Ht, <- !app_assoc. reflexivity. }
      split; [discriminate|]. split.
      * intros r rest Hs Hv _. split; [reflexivity|].
        rewrite Ht, <- !app_assoc, !errors_logged_app, Hno. reflexivity.
      * intros msg rest Hs. discriminate (Hnet msg rest Hs).
    + destruct (gql_data (resp_data response)) as [connection|].
      * cbn [ret fst snd]. split; [discriminate|].
        split; [intros; rewrite Ht, errors_logged_app, Hno; apply app_nil_r|].
        split.
        -- intros r rest Hs Hv He. destruct (Hserved r rest Hs Hv) as [E _].
           injection E as ->. congruence.
        -- intros msg rest Hs. discriminate (Hnet msg rest Hs).
      * cbn [throw logger bind fst snd trace emit error_text]. split.
        { intros e He. injection He as <-. exists evs.
          rewrite Ht, <- !app_assoc. reflexivity. }
        split; [discriminate|]. split.
        -- intros r rest Hs Hv He. destruct (Hserved r rest Hs Hv) as [E _].
           injection E as ->. congruence.
        -- intros msg rest Hs. discriminate (Hnet msg rest Hs).
  - rewrite bind_run. cbn [throw logger bind fst snd trace emit]. split.
    { intros e' He. injection He as <-. exists evs.
      rewrite Ht, <- !app_assoc. reflexivity. }
    split; [discriminate|]. split.
    + intros r rest Hs Hv _. destruct (Hserved r rest Hs Hv) as [E _].
      discriminate E.
    + intros msg rest Hs. specialize (Hnet msg rest Hs). injection Hnet as ->.
      split; [reflexivity|].
      rewrite Ht, !errors_logged_app, Hno, app_nil_r. reflexivity.
Qed.


(** X4. [fetchNationsBatch] reports every failure and passes it on: the
    last thing a failing call does is to log
    [Failed to fetch nations batch] with the offset, the limit and the
    message of the very error it then throws, and a call that returns
    logs no error.  A 2xx response whose body carries GraphQL [errors]
    is a failure even when data came with it: [GraphQL errors] is
    logged and [Error('GraphQL query failed')] thrown.  A request left
    without response throws the transport's error. *)
Theorem fetchNationsBatch_failures (offset : jsnum) (limit : Z) (w : World) :
  let m := fetchNationsBatch offset limit in
  let w' := run_world m w in
  let config := FetchNations limit (after_of_offset offset) in
  let failed := fun message =>
    ("Failed to fetch nations batch", MetaPage offset limit message) in
  (forall e, run_result m w = Throw e ->
     exists evs,
       trace w' = trace w ++ evs
                    ++ [EvLog LError "Failed to fetch nations batch"
                          (MetaPage offset limit (error_text e))])
  /\ (forall c, run_result m w = Ok c ->
        errors_logged (trace w') = errors_logged (trace w))
  /\ (forall r rest,
        net_script w = Http r :: rest -> validateStatus (status r) = true ->
        gql_errors (resp_data r) = true ->
        run_result m w = Throw (Error "GraphQL query failed")
        /\ errors_logged (trace w')
           = errors_logged (trace w)
               ++ [("GraphQL errors", NoMeta); failed "GraphQL query failed"])
  /\ (forall msg rest,
        net_script w = NetworkError msg :: rest ->
        run_result m w = Throw (AxiosError msg config None)
        /\ errors_logged (trace w')
           = errors_logged (trace w) ++ [failed msg]).
Proof. exact (fetchNationsBatch_outcomes offset limit w). Qed.

Lemma fetchNationsBatch_failures_witness :
  run_result (fetchNationsBatch (Num 0) 500) world_graphql_errors
  = Throw (Error "GraphQL query failed").
Proof.
  destruct (fetchNationsBatch_failures (Num 0) 500 world_graphql_errors)
    as (_ & _ & H & _).
  destruct (H graphql_error_response [] eq_refl eq_refl eq_refl) as [E _].
  exact E.
Defined.

(** X5. [fetchSpecificNations] does not look at the [errors] of a
    body: a batch answered with a 2xx response is never reported as
    failed, no error is logged for it, and it contributes the entities
    of the response, which are none when the body has no [data] or no
    [nations] (as a body made of GraphQL errors has). *)
Theorem fetchSpecificNations_ignores_graphql_errors
        (nationIds : list Z) (w : World) (r : http_response)
        (rest : list net_outcome)
        (Hone : (0 < List.length nationIds <= 100)%nat)
        (Hs : net_script w = Http r :: rest)
        (Hv : validateStatus (status r) = true) :
  let m := fetchSpecificNations nationIds in
  run_result m w = Ok (entities_of r)
  /\ errors_logged (trace (run_world m w)) = errors_logged (trace w)
  /\ net_script (run_world m w) = rest
  /\ (gql_data (resp_data r) = None \/ gql_data (resp_data r) = Some None ->
      entities_of r = []).
Proof.
  cbv zeta. unfold fetchSpecificNations, run_result, run_world.
  rewrite (make_batches_one nationIds Hone). cbn [for_of_acc].
  rewrite bind_run, fetch_batch_outcome.
  destruct (guarded_post_run (FetchSpecificNations nationIds) w)
    as (res & w1 & evs & Hrun & Ht & Hno & Hserved & _).
  rewrite Hrun. destruct (Hserved r rest Hs Hv) as [-> Hn].
  cbn [ret fst snd app]. rewrite Ht, errors_logged_app, Hno, app_nil_r.
  repeat split; [exact Hn|].
  intros [H|H]; unfold entities_of; rewrite H; reflexivity.
Qed.

Lemma fetchSpecificNations_ignores_graphql_errors_witness :
  run_result (fetchSpecificNations [1; 2; 3]) world_graphql_errors = Ok [].
Proof.
  destruct (fetchSpecificNations_ignores_graphql_errors [1; 2; 3]
              world_graphql_errors graphql_error_response [])
    as (E & _); [cbn; lia|reflexivity|reflexivity|exact E].
Defined.

(* ------------------------------------------------------------------ *)
(** ** A whole scan cycle *)



(** A scan cycle whose candidate statement is executed: the run, step
    by step. *)
Lemma performScan_accepted (w : World) :
  hd false (db_faults w) = false ->
  let cands := select_nations_to_scan (clock w) (db w) in
  let w1 := candidates_read w in
  match cands with
  | [] =>
      performScan w
      = (Ok tt, emit (EvLog LInfo "No nations to scan" NoMeta) w1)
  | _ :: _ =>
      let w2 :=
        emit (EvLog LInfo
                ("Scanning " ++ show_Z (Z.of_nat (List.length cands))
                   ++ " nations") NoMeta) w1 in
      let w3 := run_world (fetchSpecificNations (map fst cands)) w2 in
      exists apiResults,
        run_result (fetchSpecificNations (map fst cands)) w2 = Ok apiResults
        /\ let w4 := run_world (processResults apiResults) w3 in
           performScan w
           = (Ok tt,
              emit (EvLog LInfo
                      ("Scan completed in "
                         ++ show_Z (clock w4 / 1000 - clock w / 1000) ++ "ms")
                      NoMeta) w4)
  end.
Proof.
  intros Hacc. cbv zeta.
  assert (Hget : getNationsToScan
                   (emit (EvLog LInfo "Starting scan cycle" NoMeta) w)
                 = (Ok (select_nations_to_scan (clock w) (db w)),
                    candidates_read w)).
  { unfold getNationsToScan. rewrite bind_run, db_query_run.
    cbn [db_faults emit clock db exec_sql]. rewrite Hacc.
    destruct w; reflexivity. }
  unfold performScan. rewrite bind_run. cbn [Date_now].
  rewrite bind_run. cbn [logger]. rewrite try_catch_run, bind_run, Hget.
  destruct (select_nations_to_scan (clock w) (db w)) as [|c cs] eqn:Ec;
    [reflexivity|].
  rewrite bind_run. cbn [logger]. rewrite bind_run.
  set (w2 := emit _ (candidates_read w)).
  destruct (fetch_batches_run (make_batches (map fst (c :: cs))) [] w2)
    as (e3 & res & Hrun3 & _).
  fold (fetchSpecificNations (map fst (c :: cs))) in Hrun3.
  unfold run_result, run_world in *.
  destruct (fetchSpecificNations (map fst (c :: cs)) w2) as [r3 w3].
  cbn [fst snd] in *. injection Hrun3 as ->.
  exists res. split; [reflexivity|].
  rewrite bind_run.
  destruct (processResults_run res w3) as (w4 & e4 & k & Hrun4 & _).
  rewrite Hrun4. cbn [snd]. rewrite bind_run. cbn [Date_now]. reflexivity.
Qed.

Lemma error_logs_untouched_log (l : log_level) (m : string)
      (meta : log_meta) (w : World) :
  error_logs_untouched w (emit (EvLog l m meta) w).
Proof. split; [reflexivity|]. eexists [_]. split; reflexivity. Qed.

Lemma logError_ok (type message stackTrace : string) (w : World) :
  run_result (logError type message stackTrace) w = Ok tt.
Proof.
  unfold run_result, logError. rewrite try_catch_run, bind_run.
  destruct (db_query _ w) as [[r|e] w1]; reflexivity.
Qed.

Lemma performScan_ok (w : World) : run_result performScan w = Ok tt.
Proof.
  unfold run_result, performScan. rewrite bind_run. cbn [Date_now].
  rewrite bind_run. cbn [logger]. rewrite try_catch_run.
  match goal with |- fst (let (r, w') := ?body ?w0 in _) = _ =>
    destruct (body w0) as [[[]|e] w1]
  end; [reflexivity|].
  rewrite bind_run. cbn [logger].
  apply (logError_ok "SCAN_CYCLE_ERROR" (error_text e) (error_stack e)).
Qed.

(** X8. [performScan] never throws.  When the pool rejects the
    candidate statement, no request is posted or sent; the failure is
    logged ([Scan cycle failed]) and one row [SCAN_CYCLE_ERROR] with the
    message, the stack and the context [{}] is inserted into
    [error_logs], unless that statement is rejected too, in which case
    [logError] logs and swallows the second failure and the tables stay
    as they were.  When the candidate statement is executed, whatever
    happens afterwards, nothing is written to [error_logs] and no
    statement tries to. *)
Theorem performScan_never_throws (w : World) :
  let w' := run_world performScan w in
  let e := DbError "connection terminated" in
  let report :=
    InsertErrorLog "SCAN_CYCLE_ERROR" (error_text e) (error_stack e) "{}" in
  run_result performScan w = Ok tt
  /\ (hd false (db_faults w) = true ->
      exists evs,
        trace w' = trace w ++ evs
        /\ queries_of evs = [SelectNationsToScan; report]
        /\ posts_of evs = [] /\ exchanges_of evs = []
        /\ map fst (errors_logged evs)
           = "Database query error" :: "Scan cycle failed"
               :: (if hd false (tl (db_faults w))
                   then ["Database query error";
                         "Failed to log error to database"]
                   else [])
        /\ db w'
           = if hd false (tl (db_faults w)) then db w
             else with_error_logs
                    (error_logs (db w) ++
                       [{| error_type := "SCAN_CYCLE_ERROR";
                           error_message := "connection terminated";
                           stack_trace := "Error: connection terminated";
                           context := "{}" |}]) (db w))
  /\ (hd false (db_faults w) = false ->
      error_logs (db w') = error_logs (db w)
      /\ exists evs,
           trace w' = trace w ++ evs
           /\ forallb not_error_log (queries_of evs) = true).
Proof.
  cbv zeta. split; [apply performScan_ok|]. split.
  - intros Hrej. unfold run_world, performScan.
    rewrite bind_run. cbn [Date_now]. rewrite bind_run. cbn [logger].
    rewrite try_catch_run. unfold getNationsToScan.
    rewrite !bind_run, db_query_run. cbn [db_faults emit]. rewrite Hrej.
    rewrite bind_run. cbn [logger]. unfold logError.
    rewrite try_catch_run, bind_run, db_query_run.
    cbn [db_faults emit set_clock set_db_faults clock db exec_sql].
    destruct (hd false (tl (db_faults w))); cbn [snd].
    + eexists [_; _; _; _; _; _; _]. cbn. rewrite <- !app_assoc.
      repeat split.
    + eexists [_; _; _; _; _; _]. cbn. rewrite <- !app_assoc.
      repeat split.
  - intros Hacc. pose proof (performScan_accepted w Hacc) as Hrun.
    cbv zeta in Hrun. unfold run_world.
    assert (H1 : error_logs_untouched w (candidates_read w)).
    { split; [reflexivity|]. eexists [_; _; _]. cbn.
      rewrite <- !app_assoc. split; reflexivity. }
    destruct (select_nations_to_scan (clock w) (db w)) as [|c cs].
    + rewrite Hrun. cbn [snd].
      apply (error_logs_untouched_trans _ _ _ H1), error_logs_untouched_log.
    + destruct Hrun as (res & _ & Hrun). rewrite Hrun. cbn [snd].
      apply (error_logs_untouched_trans _ _ _ H1).
      eapply error_logs_untouched_trans; [apply error_logs_untouched_log|].
      eapply error_logs_untouched_trans;
        [apply fetchSpecificNations_error_logs_untouched|].
      eapply error_logs_untouched_trans;
        [apply processResults_error_logs_untouched|].
      apply error_logs_untouched_log.
Qed.

Lemma performScan_never_throws_witness :
  error_logs (db (run_world performScan world_first_rejected))
  = [{| error_type := "SCAN_CYCLE_ERROR";
        error_message := "connection terminated";
        stack_trace := "Error: connection terminated";
        context := "{}" |}].
Proof.
  destruct (performScan_never_throws world_first_rejected) as (_ & H & _).
  destruct (H eq_refl) as (evs & _ & _ & _ & _ & _ & E).
  rewrite E. reflexivity.
Defined.


Lemma fault_free_step (w : World) :
  fault_free w = true ->
  hd false (db_faults w) = false
  /\ forall w1, db_faults w1 = tl (db_faults w) -> fault_free w1 = true.
Proof.
  unfold fault_free. destruct (db_faults w) as [|[|] f]; cbn; try discriminate.
  - intros _. split; [reflexivity|]. intros w1 ->. reflexivity.
  - intros H. split; [reflexivity|]. intros w1 ->. exact H.
Qed.

(** A statement executed in a world where the pool rejects nothing. *)
Lemma db_query_fault_free (text : sql) (w : World) :
  fault_free w = true ->
  exists w1,
    db_query text w
    = (match exec_sql (clock w) text (db w) with
       | Some (r, _) => Ok r
       | None => Throw (DbError "violates constraint")
       end, w1)
    /\ db w1 = match exec_sql (clock w) text (db w) with
               | Some (_, d') => d'
               | None => db w
               end
    /\ clock w1 = clock w + 1 /\ fault_free w1 = true
    /\ net_script w1 = net_script w /\ rateLimiter w1 = rateLimiter w
    /\ trace w1 = trace w ++ query_events text w.
Proof.
  intros Hfree. destruct (fault_free_step w Hfree) as [Hhd Hnext].
  destruct (db_query_spec text w) as (w1 & Hrun & Hd & Hc & Hf & Hn & Hr & Ht).
  exists w1. rewrite Hrun, Hd. unfold query_outcome. rewrite Hhd.
  destruct (exec_sql (clock w) text (db w)) as [[r d']|]; cbn [fst snd];
    repeat split; auto.
Qed.

(** One entity processed without any failure: the statements run and
    the row of the entity is refreshed. *)
Lemma process_entry_fault_free (n : api_nation) (w : World) (b : bool) :
  fault_free w = true ->
  espionage_available n = Some b ->
  has_nation (id n) (db w) = true ->
  exists w' stamp,
    process_nation n w = (Ok tt, w')
    /\ (stamp = clock w + 2 \/ stamp = clock w + 3)
    /\ nations (db w')
       = update_nation_activity stamp (last_active n) (id n) (nations (db w))
    /\ error_logs (db w') = error_logs (db w)
    /\ fault_free w' = true
    /\ clock w' = stamp + 1.
Proof.
  intros Hfree Hflag Hnat. unfold process_nation.
  rewrite bind_run.
  destruct (db_query_fault_free (SelectLastScan (id n)) w Hfree)
    as (w1 & Hrun1 & Hd1 & Hc1 & Hf1 & _).
  rewrite Hrun1. cbn [exec_sql] in *. rewrite bind_run.
  destruct (db_query_fault_free
              (InsertScanHistory (id n) (espionage_available n)) w1 Hf1)
    as (w2 & Hrun2 & Hd2 & Hc2 & Hf2 & _).
  rewrite Hrun2. rewrite Hflag in *. cbn [exec_sql] in *.
  rewrite Hd1, Hnat in *. rewrite bind_run.
  assert (Hnat2 : has_nation (id n) (db w2) = true) by (rewrite Hd2; exact Hnat).
  assert (Hn2 : nations (db w2) = nations (db w)) by (rewrite Hd2; reflexivity).
  assert (He2 : error_logs (db w2) = error_logs (db w))
    by (rewrite Hd2; reflexivity).
  destruct (reset_detected _ n).
  - destruct (recordResetTime_spec (id n) w2)
      as (w3 & tail & Hrun3 & (Hd3 & Hc3 & Hfa3 & _) & _).
    rewrite Hrun3. rewrite bind_run.
    assert (Hf3 : fault_free w3 = true)
      by (apply (proj2 (fault_free_step w2 Hf2)); exact Hfa3).
    assert (Hn3 : nations (db w3) = nations (db w)
                  /\ error_logs (db w3) = error_logs (db w)).
    { rewrite Hd3. unfold query_outcome.
      rewrite (proj1 (fault_free_step w2 Hf2)). cbn [exec_sql].
      rewrite Hnat2. cbn [snd nations error_logs with_reset_times]. auto. }
    destruct (db_query_fault_free
                (UpdateNationActivity (last_active n) (id n)) w3 Hf3)
      as (w4 & Hrun4 & Hd4 & Hc4 & Hf4 & _).
    rewrite Hrun4. cbn [exec_sql] in *.
    exists w4, (clock w + 3). split; [reflexivity|]. split; [right; reflexivity|].
    rewrite Hd4. cbn [nations error_logs with_nations].
    rewrite (proj1 Hn3), (proj2 Hn3), Hc4, Hc3, Hc2, Hc1.
    replace (clock w + 1 + 1 + 1) with (clock w + 3) by lia.
    repeat split; auto.
  - cbn [ret]. rewrite bind_run.
    destruct (db_query_fault_free
                (UpdateNationActivity (last_active n) (id n)) w2 Hf2)
      as (w4 & Hrun4 & Hd4 & Hc4 & Hf4 & _).
    rewrite Hrun4. cbn [exec_sql] in *.
    exists w4, (clock w + 2). split; [reflexivity|]. split; [left; reflexivity|].
    rewrite Hd4. cbn [nations error_logs with_nations].
    rewrite Hn2, He2, Hc4, Hc2, Hc1.
    replace (clock w + 1 + 1) with (clock w + 2) by lia.
    repeat split; auto.
Qed.


(** X9. What a scan cycle asks the provider.  When the candidate
    statement is executed, [performScan] posts exactly one request per
    batch of the candidate ids, in order, and nothing else: at most 50
    requests per cycle, retries after throttling apart.  Every id posted
    is that of a stored nation without reset record, active within the
    last 7 days: a nation whose reset is recorded is not asked about
    again. *)
Theorem performScan_requests (w : World)
        (Haccepted : hd false (db_faults w) = false) :
  let ids := map fst (select_nations_to_scan (clock w) (db w)) in
  let w' := run_world performScan w in
  exists evs,
    trace w' = trace w ++ evs
    /\ posts_of evs = map FetchSpecificNations (make_batches ids)
    /\ (List.length (posts_of evs) <= 50)%nat
    /\ (forall batch i,
          In (FetchSpecificNations batch) (posts_of evs) -> In i batch ->
          has_reset i (db w) = false
          /\ exists n, In n (nations (db w)) /\ n_id n = i
                       /\ clock w - seven_days < n_last_active n).
Proof.
  cbv zeta.
  destruct (rows_to_scan_spec (clock w) (db w))
    as (Hsel & Hlen & Hpicked & _).
  assert (Hids : forall i,
             In i (map fst (select_nations_to_scan (clock w) (db w))) ->
             has_reset i (db w) = false
             /\ exists n, In n (nations (db w)) /\ n_id n = i
                          /\ clock w - seven_days < n_last_active n).
  { intros i Hi. rewrite Hsel, map_map in Hi. cbn [fst] in Hi.
    apply in_map_iff in Hi as (n & <- & Hn).
    destruct (Hpicked n Hn) as (H1 & H2 & H3). split; [exact H2|].
    exists n. auto. }
  assert (Hcount : (List.length
                      (make_batches
                         (map fst (select_nations_to_scan (clock w) (db w))))
                    <= 50)%nat).
  { unfold make_batches.
    set (l := map fst (select_nations_to_scan (clock w) (db w))).
    assert (Hl : (List.length l <= 5000)%nat)
      by (unfold l; rewrite Hsel, !length_map; exact Hlen).
    destruct (make_batches_from_nth l (List.length l) 0 0) as [E _]; [lia|].
    rewrite E. zify; Z.div_mod_to_equations; lia. }
  assert (Hbatch : forall batch i,
             In (FetchSpecificNations batch)
                (map FetchSpecificNations
                   (make_batches
                      (map fst (select_nations_to_scan (clock w) (db w))))) ->
             In i batch ->
             In i (map fst (select_nations_to_scan (clock w) (db w)))).
  { intros batch i Hb Hi. apply in_map_iff in Hb as (b0 & E & Hb).
    injection E as ->.
    assert (Hcat : List.concat
                     (make_batches
                        (map fst (select_nations_to_scan (clock w) (db w))))
                   = map fst (select_nations_to_scan (clock w) (db w)))
      by (unfold make_batches; rewrite make_batches_from_concat by lia;
          reflexivity).
    rewrite <- Hcat. apply in_concat. exists batch. auto. }
  pose proof (performScan_accepted w Haccepted) as Hrun. cbv zeta in Hrun.
  assert (H1 : trace (candidates_read w)
               = trace w ++ [EvLog LInfo "Starting scan cycle" NoMeta;
                             EvQuery SelectNationsToScan true;
                             EvLog LDebug "Executed query"
                               (MetaQuery SelectNationsToScan None)])
    by (cbn; rewrite <- !app_assoc; reflexivity).
  unfold run_world.
  destruct (select_nations_to_scan (clock w) (db w)) as [|c cs] eqn:Ec.
  - rewrite Hrun. cbn [snd trace emit]. rewrite H1, <- app_assoc.
    eexists. split; [reflexivity|]. cbn.
    split; [reflexivity|]. split; [lia|]. intros batch i [].
  - destruct Hrun as (res & Hres & Hrun). rewrite Hrun. cbn [snd trace emit].
    set (ids := map fst (c :: cs)) in *.
    set (w2 := emit _ (candidates_read w)) in *.
    destruct (fetch_batches_run (make_batches ids) [] w2)
      as (e3 & res' & _ & Ht3 & Hp3 & _).
    fold (fetchSpecificNations ids) in Ht3.
    set (w3 := run_world (fetchSpecificNations ids) w2) in *.
    destruct (processResults_run res w3) as (w4 & e4 & k & Hrun4 & Ht4 & _).
    destruct (processResults_provider_untouched res w3)
      as (_ & _ & Hp4 & _).
    unfold run_world in Hp4 |- *. rewrite Hrun4 in *. cbn [snd] in *.
    rewrite Ht4, posts_of_app in Hp4. apply app_eq_self in Hp4.
    rewrite Ht4, Ht3. subst w2. cbn [trace emit]. rewrite H1.
    rewrite <- !app_assoc. eexists. split; [reflexivity|].
    rewrite !posts_of_app, Hp3, Hp4. cbn [posts_of flat_map app].
    rewrite app_nil_r.
    split; [reflexivity|]. split; [rewrite length_map; exact Hcount|].
    intros batch i Hb Hi. apply Hids. exact (Hbatch batch i Hb Hi).
Qed.

Lemma performScan_requests_witness :
  exists evs,
    trace (run_world performScan world_flag_down)
    = trace world_flag_down ++ evs
    /\ posts_of evs = [FetchSpecificNations [555; 556]].
Proof.
  destruct (performScan_requests world_flag_down eq_refl)
    as (evs & Ht & Hp & _).
  exists evs. split; [exact Ht|exact Hp].
Defined.

(** X10. A scan cycle loses no data, whatever fails in it: an entity
    that had a reset record still has one, the observations stored are
    still there, in place, with the new ones after them, and the table
    of nations holds the same ids in the same order (no nation is added
    or removed). *)
Theorem performScan_keeps_scan_data (w : World) :
  let w' := run_world performScan w in
  (forall i, has_reset i (db w) = true -> has_reset i (db w') = true)
  /\ (exists added, scan_history (db w') = scan_history (db w) ++ added)
  /\ map n_id (nations (db w')) = map n_id (nations (db w)).
Proof. exact (performScan_keeps w). Qed.

Lemma performScan_keeps_scan_data_witness :
  map n_id (nations (db (run_world performScan world_flag_down)))
  = [555; 556].
Proof.
  exact (proj2 (proj2 (performScan_keeps_scan_data world_flag_down))).
Defined.

(** X11. An entity that cannot be stored is skipped.  When the provider
    returns an entity whose flag is [null], or whose id is not in the
    table of nations, the insert into [scan_history] is refused by the
    schema ([NOT NULL], [FOREIGN KEY]): [processResults] returns
    normally, the tables are left exactly as they were (the activity of
    the nation is not refreshed either), two statements were issued, and
    the failure is logged by [db.query] and by the loop. *)
Theorem processResults_skips_unstorable (n : api_nation) (w : World)
        (Hfree : fault_free w = true)
        (Hbad : espionage_available n = None
                \/ has_nation (id n) (db w) = false) :
  let w' := run_world (processResults [n]) w in
  let insert := InsertScanHistory (id n) (espionage_available n) in
  run_result (processResults [n]) w = Ok tt
  /\ db w' = db w
  /\ queries_of (trace w')
     = queries_of (trace w) ++ [SelectLastScan (id n); insert]
  /\ errors_logged (trace w')
     = errors_logged (trace w)
         ++ [("Database query error",
              MetaQuery insert (Some "violates constraint"));
             (("Failed to process nation " ++ show_Z (id n))%string,
              MetaError (DbError "violates constraint"))].
Proof.
  cbv zeta.
  destruct (db_query_fault_free (SelectLastScan (id n)) w Hfree)
    as (w1 & Hrun1 & Hd1 & Hc1 & Hf1 & _ & _ & Ht1).
  destruct (db_query_fault_free
              (InsertScanHistory (id n) (espionage_available n)) w1 Hf1)
    as (w2 & Hrun2 & Hd2 & Hc2 & Hf2 & _ & _ & Ht2).
  cbn [exec_sql] in *.
  assert (Hrefused :
            match espionage_available n with
            | Some b0 =>
                if has_nation (id n) (db w1)
                then Some (NoRows,
                           with_scan_history
                             (scan_history (db w1) ++
                                [{| sh_nation_id := id n;
                                    sh_espionage_available := b0;
                                    scanned_at := clock w1 |}]) (db w1))
                else None
            | None => None
            end = None).
  { rewrite Hd1. destruct Hbad as [->|Hb]; [reflexivity|].
    rewrite Hb. destruct (espionage_available n); reflexivity. }
  rewrite Hrefused in *.
  assert (Hev1 : query_events (SelectLastScan (id n)) w
                 = [EvQuery (SelectLastScan (id n)) true;
                    EvLog LDebug "Executed query"
                      (MetaQuery (SelectLastScan (id n)) None)]).
  { unfold query_events, query_outcome.
    rewrite (proj1 (fault_free_step w Hfree)). reflexivity. }
  assert (Hev2 : query_events
                   (InsertScanHistory (id n) (espionage_available n)) w1
                 = [EvQuery (InsertScanHistory (id n) (espionage_available n))
                      false;
                    EvLog LError "Database query error"
                      (MetaQuery
                         (InsertScanHistory (id n) (espionage_available n))
                         (Some "violates constraint"))]).
  { unfold query_events, query_outcome.
    rewrite (proj1 (fault_free_step w1 Hf1)). cbn [exec_sql].
    rewrite Hrefused. reflexivity. }
  unfold run_result, run_world, processResults. cbn [for_of].
  rewrite bind_run. unfold process_entry, process_nation.
  rewrite try_catch_run, bind_run, Hrun1, bind_run, Hrun2.
  cbn [logger ret bind fst snd db trace emit].
  rewrite Hd2, Hd1, Ht2, Ht1, Hev1, Hev2.
  rewrite <- !app_assoc, !queries_of_app, !errors_logged_app.
  repeat split.
Qed.

Lemma processResults_skips_unstorable_witness :
  db (run_world (processResults [nation_of 999 true]) world_flag_down)
  = db_flag_down.
Proof.
  destruct (processResults_skips_unstorable (nation_of 999 true)
              world_flag_down eq_refl (or_intror eq_refl))
    as (_ & E & _).
  exact E.
Defined.

Lemma update_nation_activity_In (now la i : Z) (t : list nation_row)
      (r : nation_row) :
  In r (update_nation_activity now la i t) ->
  (n_id r = i /\ n_last_active r = la /\ n_updated_at r = now)
  \/ (n_id r <> i /\ In r t).
Proof.
  unfold update_nation_activity. intros H.
  apply in_map_iff in H as (x & <- & Hx).
  destruct (Z.eqb_spec (n_id x) i) as [E|E]; [left|right]; cbn; auto.
Qed.

Lemma update_nation_activity_others (now la i : Z) (t : list nation_row)
      (r : nation_row) :
  n_id r <> i -> In r t -> In r (update_nation_activity now la i t).
Proof.
  intros Hne Hr. unfold update_nation_activity. apply in_map_iff.
  exists r. split; [|exact Hr].
  destruct (Z.eqb_spec (n_id r) i); [contradiction|reflexivity].
Qed.

(** X12. Processing a stored entity with a known flag, no statement
    being rejected, refreshes its row: [last_active] becomes what the
    provider reported and [updated_at] the time of the update, two or
    three statements after the start (three when a reset was recorded);
    rows of other nations are untouched.  So a nation that the provider
    reports inactive for 7 days or more is no longer a candidate of the
    next cycle. *)
Theorem processResults_refreshes_activity
        (n : api_nation) (w : World) (b : bool)
        (Hfree : fault_free w = true)
        (Hflag : espionage_available n = Some b)
        (Hknown : has_nation (id n) (db w) = true) :
  let w' := run_world (processResults [n]) w in
  exists stamp,
    clock w + 2 <= stamp <= clock w + 3
    /\ nations (db w')
       = update_nation_activity stamp (last_active n) (id n) (nations (db w))
    /\ (forall r, In r (nations (db w')) -> n_id r = id n ->
          n_last_active r = last_active n /\ n_updated_at r = stamp)
    /\ (forall r, n_id r <> id n ->
          (In r (nations (db w')) <-> In r (nations (db w))))
    /\ (forall now, last_active n <= now - seven_days ->
          ~ In (id n) (map fst (select_nations_to_scan now (db w')))).
Proof.
  cbv zeta. rewrite processResults_single. unfold run_world, process_entry.
  rewrite try_catch_run.
  destruct (process_entry_fault_free n w b Hfree Hflag Hknown)
    as (w' & stamp & Hrun & Hstamp & Hnat & _).
  rewrite Hrun. cbn [snd]. exists stamp.
  split; [lia|]. split; [exact Hnat|].
  assert (Hrow : forall r, In r (nations (db w')) -> n_id r = id n ->
                           n_last_active r = last_active n
                           /\ n_updated_at r = stamp).
  { intros r Hr Hid. rewrite Hnat in Hr.
    apply update_nation_activity_In in Hr as [(_ & H1 & H2)|(Hne & _)];
      [auto|contradiction]. }
  split; [exact Hrow|]. split.
  - intros r Hne. rewrite Hnat. split.
    + intros Hr. apply update_nation_activity_In in Hr as [(E & _)|(_ & Hr)];
        [contradiction|exact Hr].
    + apply update_nation_activity_others, Hne.
  - intros now Hold Hin.
    destruct (rows_to_scan_spec now (db w')) as (Hsel & _ & Hpicked & _).
    rewrite Hsel, map_map in Hin. cbn [fst] in Hin.
    apply in_map_iff in Hin as (r & Hid & Hr).
    destruct (Hpicked r Hr) as (Hr' & _ & Hact).
    destruct (Hrow r Hr' Hid) as [Hla _]. lia.
Qed.

Lemma processResults_refreshes_activity_witness :
  ~ In 555
      (map fst
         (select_nations_to_scan (8 * 86400 * 1000000)
            (db (run_world (processResults [nation_of 555 true])
                   world_flag_down)))).
Proof.
  destruct (processResults_refreshes_activity (nation_of 555 true)
              world_flag_down true eq_refl eq_refl eq_refl)
    as (stamp & _ & _ & _ & _ & H).
  apply H. cbn. lia.
Defined.

(** X19. Storage and provider are kept apart.  [processResults] never
    contacts the provider: it posts and sends nothing, never sleeps, and
    leaves the provider's script and the limiter as they were.  The
    fetching methods never touch storage: the tables and the faults to
    come are as before and no statement is issued. *)
Theorem storage_and_provider_kept_apart
        (apiResults : list api_nation) (nationIds : list Z)
        (offset : jsnum) (limit : Z) (w : World) :
  let w1 := run_world (processResults apiResults) w in
  let w2 := run_world (fetchSpecificNations nationIds) w in
  let w3 := run_world (fetchNationsBatch offset limit) w in
  (net_script w1 = net_script w /\ rateLimiter w1 = rateLimiter w
   /\ posts_of (trace w1) = posts_of (trace w)
   /\ exchanges_of (trace w1) = exchanges_of (trace w)
   /\ sleeps_of (trace w1) = sleeps_of (trace w))
  /\ (db w2 = db w /\ db_faults w2 = db_faults w
      /\ queries_of (trace w2) = queries_of (trace w))
  /\ (db w3 = db w /\ db_faults w3 = db_faults w
      /\ queries_of (trace w3) = queries_of (trace w)).
Proof.
  cbv zeta. split; [|split].
  - exact (processResults_provider_untouched apiResults w).
  - exact (fetchSpecificNations_storage_untouched nationIds w).
  - exact (fetchNationsBatch_storage_untouched offset limit w).
Qed.

(* ------------------------------------------------------------------ *)
(** ** The bootstrap of the table of nations *)



Lemma import_rows_fault_free (data : list api_nation) :
  forall w : World,
    fault_free w = true ->
    let body := fun nation => db_query (UpsertNation nation) ;; ret tt in
    exists w1,
      for_of data body w = (Ok tt, w1)
      /\ db w1 = with_nations (upsert_all (clock w) data (nations (db w))) (db w)
      /\ fault_free w1 = true
      /\ net_script w1 = net_script w.
Proof.
  cbv zeta. induction data as [|n data IH]; intros w Hfree.
  - exists w. cbn. destruct w as [[] ? ? ? ? ?]; auto.
  - cbn [for_of upsert_all]. rewrite !bind_run.
    destruct (db_query_fault_free (UpsertNation n) w Hfree)
      as (w1 & Hrun & Hd & Hc & Hf & Hn & _).
    rewrite Hrun. cbn [exec_sql ret] in *.
    destruct (IH w1 Hf) as (w2 & Hrun2 & Hd2 & Hf2 & Hn2).
    exists w2. rewrite Hrun2, Hd2, Hd, Hc, Hn2, Hn. auto.
Qed.

Lemma upsert_nation_has (now : Z) (n : api_nation) (t : list nation_row)
      (j : Z) :
  existsb (fun r => n_id r =? j) (upsert_nation now n t)
  = existsb (fun r => n_id r =? j) t || (id n =? j).
Proof.
  induction t as [|r t IH]; cbn [upsert_nation existsb n_id nation_row_of].
  - rewrite orb_false_r. reflexivity.
  - destruct (Z.eqb_spec (n_id r) (id n)) as [E|E];
      cbn [existsb n_id nation_row_of].
    + rewrite E. destruct (id n =? j); cbn; [reflexivity|].
      rewrite orb_false_r. reflexivity.
    + rewrite IH, orb_assoc. reflexivity.
Qed.

Lemma filter_none {A : Type} (f : A -> bool) (l : list A) :
  (forall x, In x l -> f x = false) -> filter f l = [].
Proof.
  induction l as [|a l IH]; intros H; cbn [filter]; [reflexivity|].
  rewrite (H a (or_introl eq_refl)). apply IH. intros x Hx. apply H.
  right. exact Hx.
Qed.

(** The row of an id after an upsert: the new one for the id upserted,
    the old ones for the others. *)
Lemma upsert_nation_rows (now : Z) (n : api_nation) (t : list nation_row)
      (j : Z) :
  NoDup (map n_id t) ->
  filter (fun r => n_id r =? j) (upsert_nation now n t)
  = if id n =? j then [nation_row_of now n]
    else filter (fun r => n_id r =? j) t.
Proof.
  induction t as [|r t IH]; intros Hnd;
    cbn [upsert_nation filter n_id nation_row_of map] in *.
  - destruct (id n =? j); reflexivity.
  - inversion Hnd as [|? ? Hnotin Hnd']; subst.
    destruct (Z.eqb_spec (n_id r) (id n)) as [E|E];
      cbn [filter n_id nation_row_of].
    + rewrite E. destruct (Z.eqb_spec (id n) j) as [Ej|Ej]; [|reflexivity].
      f_equal. apply filter_none. intros x Hx. apply Z.eqb_neq. intros Hxj.
      apply Hnotin. rewrite E, Ej, <- Hxj. apply in_map, Hx.
    + rewrite (IH Hnd').
      destruct (Z.eqb_spec (n_id r) j) as [Ej|Ej];
        destruct (Z.eqb_spec (id n) j) as [En|En]; try reflexivity.
      congruence.
Qed.

Lemma upsert_nation_NoDup (now : Z) (n : api_nation) (t : list nation_row) :
  NoDup (map n_id t) -> NoDup (map n_id (upsert_nation now n t)).
Proof.
  intros Hnd. rewrite upsert_nation_ids.
  destruct (existsb _ _) eqn:Ex; [exact Hnd|].
  apply NoDup_app; [exact Hnd|repeat constructor; intros []|].
  intros x Hx [<-|[]]. apply existsb_ids in Hx. congruence.
Qed.

(** After a page is imported every entity of the page is stored; an
    entity whose id occurs once in the page is stored with its
    fields. *)
Lemma upsert_all_spec (data : list api_nation) :
  forall (now : Z) (t : list nation_row),
    NoDup (map n_id t) ->
    NoDup (map n_id (upsert_all now data t))
    /\ (forall j, existsb (fun r => n_id r =? j) (upsert_all now data t)
                  = existsb (fun r => n_id r =? j) t
                    || existsb (fun n => id n =? j) data)
    /\ (forall j, existsb (fun n => id n =? j) data = false ->
          filter (fun r => n_id r =? j) (upsert_all now data t)
          = filter (fun r => n_id r =? j) t)
    /\ (NoDup (map id data) ->
        forall n, In n data ->
        exists stamp,
          now <= stamp < now + Z.of_nat (List.length data)
          /\ filter (fun r => n_id r =? id n) (upsert_all now data t)
             = [nation_row_of stamp n]).
Proof.
  induction data as [|m data IH]; intros now t Hnd; cbn [upsert_all].
  - split; [exact Hnd|]. split; [intros j; cbn; rewrite orb_false_r; reflexivity|].
    split; [reflexivity|]. intros _ n [].
  - pose proof (upsert_nation_NoDup now m t Hnd) as Hnd1.
    destruct (IH (now + 1) (upsert_nation now m t) Hnd1)
      as (I1 & I2 & I3 & I4).
    split; [exact I1|]. split; [|split].
    + intros j. rewrite I2, upsert_nation_has. cbn [existsb].
      rewrite orb_assoc. reflexivity.
    + intros j Hj. cbn [existsb] in Hj. apply orb_false_elim in Hj as [Hm Hj].
      rewrite (I3 j Hj), (upsert_nation_rows now m t j Hnd), Hm. reflexivity.
    + intros Hdd n Hn. cbn [map] in Hdd.
      inversion Hdd as [|? ? Hnotin Hdd']; subst.
      cbn [List.length]. rewrite Nat2Z.inj_succ.
      destruct Hn as [<-|Hn].
      * exists now. split; [lia|].
        rewrite I3.
        -- rewrite (upsert_nation_rows now m t (id m) Hnd), Z.eqb_refl.
           reflexivity.
        -- destruct (existsb _ data) eqn:Ex; [|reflexivity].
           exfalso. apply Hnotin. apply existsb_exists in Ex as (x & Hx & E).
           apply Z.eqb_eq in E. rewrite <- E. apply in_map, Hx.
      * destruct (I4 Hdd' n Hn) as (stamp & Hst & Hrow).
        exists stamp. split; [lia|exact Hrow].
Qed.

(** The tables after the import of a served page. *)
Lemma import_page_tables (cursor : option string) (w : World)
      (r : http_response) (rest : list net_outcome)
      (connection : nations_connection) (data : list api_nation) :
  net_script w = Http r :: rest ->
  validateStatus (status r) = true ->
  gql_errors (resp_data r) = false ->
  gql_data (resp_data r) = Some (Some connection) ->
  conn_data connection = Some data ->
  fault_free w = true ->
  exists now,
    db (run_world (import_page cursor) w)
    = with_nations (upsert_all now data (nations (db w))) (db w).
Proof.
  intros Hs Hv He Hd Hcd Hfree.
  destruct (fetchNationsBatch_run (cursor_offset cursor) 500 w)
    as (e1 & _ & _ & Hf1 & _ & _ & Hserved).
  destruct (Hserved r rest (Some connection) Hs Hv He Hd) as [Hres Hn1].
  destruct (fetchNationsBatch_storage_untouched (cursor_offset cursor) 500 w)
    as (Hdb & _).
  unfold run_world, run_result, import_page in *.
  rewrite try_catch_run, bind_run.
  destruct (fetchNationsBatch (cursor_offset cursor) 500 w) as [res w0].
  cbn [fst snd] in *. subst res. rewrite Hcd. rewrite !bind_run. cbn [ret].
  destruct (import_rows_fault_free data w0) as (w1 & Hrun & Hd1 & _).
  { unfold fault_free in *. rewrite Hf1. exact Hfree. }
  rewrite bind_run, Hrun. cbn [ret snd]. exists (clock w0).
  rewrite Hd1, Hdb. reflexivity.
Qed.

(** X14. Bootstrap from a catalogue of one page.  When the first
    request is served with a page that announces no further page and no
    statement is rejected, [initializeNations] posts that one request
    (without cursor), stores every entity of the page, and ends by
    logging the number of entities of the page as the total: afterwards
    a nation is stored exactly when it was before or is on the page, ids
    stay distinct, and an entity whose id occurs once on the page has
    one row, carrying its name, leader, alliance and last activity. *)
Theorem initializeNations_single_page
        (w : World) (r : http_response) (rest : list net_outcome)
        (connection : nations_connection) (data : list api_nation)
        (pi : paginator_info)
        (Hs : net_script w = Http r :: rest)
        (Hv : validateStatus (status r) = true)
        (He : gql_errors (resp_data r) = false)
        (Hd : gql_data (resp_data r) = Some (Some connection))
        (Hcd : conn_data connection = Some data)
        (Hpi : conn_paginatorInfo connection = Some pi)
        (Hlast : hasNextPage pi = false)
        (Hfree : fault_free w = true)
        (Hkeys : NoDup (map n_id (nations (db w)))) :
  let w' := run_world initializeNations w in
  (exists evs,
      trace w' = trace w ++ evs
                   ++ [EvLog LInfo
                         ("Nation initialization complete. Total: "
                            ++ show_Z (Z.of_nat (List.length data))) NoMeta]
      /\ posts_of evs = [FetchNations 500 None])
  /\ net_script w' = rest
  /\ NoDup (map n_id (nations (db w')))
  /\ (forall j, has_nation j (db w')
                = has_nation j (db w) || existsb (fun n => id n =? j) data)
  /\ (NoDup (map id data) ->
      forall n, In n data ->
      exists stamp,
        filter (fun row => n_id row =? id n) (nations (db w'))
        = [{| n_id := id n; n_nation_name := nation_name n;
              n_leader_name := leader_name n;
              n_alliance_id := alliance_id n;
              n_last_active := last_active n; n_updated_at := stamp |}]).
Proof.
  cbv zeta. unfold run_world, initializeNations.
  rewrite bind_run. cbn [logger]. rewrite Hs. cbn [List.length].
  set (w0 := emit (EvLog LInfo "Initializing nations database" NoMeta) w).
  rewrite initializeNations_loop_S, bind_run.
  destruct (import_page_run None w0)
    as (e1 & res & Hrun & Ht & Hp & _ & _ & Hserved).
  destruct (Hserved r rest connection data Hs Hv He Hd Hcd Hfree)
    as (-> & _ & Hn).
  destruct (import_page_tables None w0 r rest connection data
              Hs Hv He Hd Hcd Hfree) as (now & Hdb).
  rewrite Hrun. cbv zeta. rewrite Hpi, bind_run. cbn [logger]. rewrite Hlast.
  unfold initialization_complete. cbn [logger snd trace emit net_script db].
  rewrite Hdb, Hn, Ht. cbn [nations with_nations db emit].
  destruct (upsert_all_spec data now (nations (db w)) Hkeys)
    as (S1 & S2 & _ & S4).
  split; [|split; [reflexivity|split; [exact S1|split]]].
  - change (0 + Z.of_nat (List.length data))
      with (Z.of_nat (List.length data)).
    exists ([EvLog LInfo "Initializing nations database" NoMeta] ++ e1
            ++ [EvLog LInfo
                  ("Initialized " ++ show_Z (Z.of_nat (List.length data))
                     ++ " nations") NoMeta]).
    unfold w0. cbn [trace emit]. rewrite <- !app_assoc.
    split; [reflexivity|].
    rewrite !posts_of_app, Hp. reflexivity.
  - intros j. unfold has_nation. cbn [nations with_nations]. apply S2.
  - intros Hdd n Hn'. destruct (S4 Hdd n Hn') as (stamp & _ & Hrow).
    exists stamp. exact Hrow.
Qed.

Lemma initializeNations_single_page_witness :
  has_nation 2 (db (run_world initializeNations world_single_page)) = true.
Proof.
  destruct (initializeNations_single_page world_single_page
              (page_response [nation_of 1 true; nation_of 2 false] false None)
              []
              {| conn_data := Some [nation_of 1 true; nation_of 2 false];
                 conn_paginatorInfo :=
                   Some {| hasNextPage := false; endCursor := None |} |}
              [nation_of 1 true; nation_of 2 false]
              {| hasNextPage := false; endCursor := None |}
              eq_refl eq_refl eq_refl eq_refl eq_refl eq_refl eq_refl eq_refl
              (NoDup_nil Z))
    as (_ & _ & _ & H & _).
  rewrite H. reflexivity.
Defined.

(** However the loop ends, the last thing it does is to log the
    completion, with a total that only grew. *)
Lemma initializeNations_loop_ends (pages : nat) :
  forall (cursor : option string) (total : Z) (w : World),
    exists evs total',
      total <= total'
      /\ trace (run_world (initializeNations_loop pages cursor total) w)
         = trace w ++ evs
             ++ [EvLog LInfo
                   ("Nation initialization complete. Total: "
                      ++ show_Z total') NoMeta].
Proof.
  induction pages as [|pages IH]; intros cursor total w.
  - exists [], total. split; [lia|reflexivity].
  - unfold run_world. rewrite initializeNations_loop_S, bind_run.
    destruct (import_page_run cursor w) as (e1 & res & Hrun & Ht & _).
    rewrite Hrun. set (w1 := run_world (import_page cursor) w) in *.
    destruct res as [[data response]|].
    2:{ exists e1, total. split; [lia|]. cbn. rewrite Ht, <- app_assoc.
        reflexivity. }
    cbv zeta.
    destruct (match response with
              | Some connection => conn_paginatorInfo connection
              | None => None
              end) as [pi|].
    2:{ eexists (e1 ++ [_]), _. split; [|cbn; rewrite Ht, <- !app_assoc;
                                          reflexivity]. lia. }
    rewrite bind_run. cbn [logger]. destruct (hasNextPage pi).
    + match goal with |- context [initializeNations_loop pages ?c ?t ?w2] =>
        destruct (IH c t w2) as (e2 & total' & Hle & Ht2)
      end.
      unfold run_world in Ht2. eexists (e1 ++ _ :: e2), total'.
      split; [lia|]. rewrite Ht2. cbn [trace emit]. rewrite Ht, <- !app_assoc.
      reflexivity.
    + eexists (e1 ++ [_]), _. split; [|cbn; rewrite Ht, <- !app_assoc;
                                        reflexivity]. lia.
Qed.

(** X13. [initializeNations] never throws and only ever touches the
    table of nations: reset records, observations and error rows are as
    before, no stored nation is dropped, and ids that were distinct
    still are.  However the loop ends (last page, failure, malformed
    answer), the last thing the call does is to log
    [Nation initialization complete] with a total that is not
    negative. *)
Theorem initializeNations_only_touches_nations (w : World) :
  let w' := run_world initializeNations w in
  run_result initializeNations w = Ok tt
  /\ reset_times (db w') = reset_times (db w)
  /\ scan_history (db w') = scan_history (db w)
  /\ error_logs (db w') = error_logs (db w)
  /\ (forall j, has_nation j (db w) = true -> has_nation j (db w') = true)
  /\ (NoDup (map n_id (nations (db w))) ->
      NoDup (map n_id (nations (db w'))))
  /\ exists evs total,
       0 <= total
       /\ trace w' = trace w ++ evs
                       ++ [EvLog LInfo
                             ("Nation initialization complete. Total: "
                                ++ show_Z total) NoMeta].
Proof.
  cbv zeta.
  destruct (initializeNations_only_nations w) as (H1 & H2 & H3 & H4 & H5).
  split; [|split; [exact H1|split; [exact H2|split; [exact H3|
    split; [exact H4|split; [exact H5|]]]]]].
  - unfold run_result, initializeNations. rewrite bind_run. cbn [logger].
    destruct (initializeNations_loop_run (S (List.length (net_script w))) None 0
                (emit (EvLog LInfo "Initializing nations database" NoMeta) w))
      as (evs & Hrun & _).
    cbn [net_script emit] in Hrun |- *. rewrite Hrun. reflexivity.
  - unfold run_world, initializeNations. rewrite bind_run. cbn [logger].
    destruct (initializeNations_loop_ends (S (List.length (net_script w)))
                None 0
                (emit (EvLog LInfo "Initializing nations database" NoMeta) w))
      as (evs & total & Hle & Ht).
    unfold run_world in Ht. cbn [net_script emit] in Ht |- *.
    exists (EvLog LInfo "Initializing nations database" NoMeta :: evs), total.
    split; [exact Hle|]. rewrite Ht. cbn [trace emit].
    rewrite <- !app_assoc. reflexivity.
Qed.

Lemma initializeNations_only_touches_nations_witness :
  NoDup (map n_id (nations (db (run_world initializeNations
                                  world_other_cursor)))).
Proof.
  destruct (initializeNations_only_touches_nations world_other_cursor)
    as (_ & _ & _ & _ & _ & H & _).
  apply H. constructor.
Defined.

(** X15. When the first request of the bootstrap gets no response,
    [initializeNations] still returns normally: one request was posted
    (for the first page), no statement was issued and the tables are as
    before; the failure is logged twice (by [fetchNationsBatch] with
    offset 0 and limit 500, then by the loop) and the call ends by
    logging a total of 0. *)
Theorem initializeNations_first_request_fails
        (w : World) (msg : string) (rest : list net_outcome)
        (Hs : net_script w = NetworkError msg :: rest) :
  let w' := run_world initializeNations w in
  let e := AxiosError msg (FetchNations 500 None) None in
  run_result initializeNations w = Ok tt
  /\ db w' = db w
  /\ posts_of (trace w') = posts_of (trace w) ++ [FetchNations 500 None]
  /\ queries_of (trace w') = queries_of (trace w)
  /\ errors_logged (trace w')
     = errors_logged (trace w)
         ++ [("Failed to fetch nations batch", MetaPage (Num 0) 500 msg);
             ("Failed to initialize nations", MetaError e)]
  /\ exists evs,
       trace w' = trace w ++ evs
                    ++ [EvLog LInfo "Nation initialization complete. Total: 0"
                          NoMeta].
Proof.
  cbv zeta. unfold run_result, run_world, initializeNations.
  rewrite bind_run. cbn [logger]. rewrite Hs. cbn [List.length].
  set (w0 := emit (EvLog LInfo "Initializing nations database" NoMeta) w).
  rewrite initializeNations_loop_S, bind_run. unfold import_page.
  rewrite try_catch_run, bind_run. cbn [cursor_offset].
  destruct (fetchNationsBatch_outcomes (Num 0) 500 w0)
    as (Hlast & _ & _ & Hnet).
  destruct (Hnet msg rest Hs) as [Hres Herr].
  destruct (fetchNationsBatch_storage_untouched (Num 0) 500 w0)
    as (Hdb & _ & Hq).
  destruct (fetchNationsBatch_run (Num 0) 500 w0) as (e1 & Ht & Hp & _).
  unfold run_result, run_world in *.
  destruct (fetchNationsBatch (Num 0) 500 w0) as [res w1]. cbn [fst snd] in *.
  subst res. rewrite bind_run.
  cbn [logger ret bind initialization_complete fst snd db trace emit].
  rewrite Hdb. unfold w0 in *. cbn [trace emit db] in *.
  assert (Hq1 : queries_of e1 = []).
  { rewrite Ht, queries_of_app in Hq. apply app_eq_self in Hq. exact Hq. }
  assert (He1 : errors_logged e1
                = [("Failed to fetch nations batch", MetaPage (Num 0) 500 msg)]).
  { rewrite Ht, !errors_logged_app in Herr. cbn in Herr.
    rewrite app_nil_r in Herr. apply app_inv_head in Herr. exact Herr. }
  rewrite Ht, <- !app_assoc.
  split; [reflexivity|]. split; [reflexivity|].
  rewrite !posts_of_app, !queries_of_app, !errors_logged_app, Hp, Hq1, He1.
  cbn. rewrite !app_nil_r.
  split; [reflexivity|]. split; [reflexivity|]. split; [reflexivity|].
  eexists (_ :: e1 ++ [_]). cbn. rewrite <- !app_assoc. reflexivity.
Qed.

Lemma initializeNations_first_request_fails_witness :
  db (run_world initializeNations world_no_answer) = empty_database.
Proof.
  destruct (initializeNations_first_request_fails world_no_answer
              "socket hang up" [] eq_refl) as (_ & E & _).
  exact E.
Defined.





(* ------------------------------------------------------------------ *)
(** ** The recorded time and the countdown of the frontend *)


Lemma pad2_spec (n : Z) :
  0 <= n < 60 ->
  to_number (pad2 n) = Num n
  /\ split_on ":" (pad2 n) = [pad2 n]
  /\ String.length (pad2 n) = 2%nat.
Proof.
  intros H.
  assert (E : exists k : nat, (k < 60)%nat /\ n = Z.of_nat k)
    by (exists (Z.to_nat n); lia).
  destruct E as (k & Hk & ->).
  do 60 (destruct k as [|k]; [vm_compute; repeat split|]). lia.
Qed.

Lemma string_length_append (a b : string) :
  String.length (a ++ b) = (String.length a + String.length b)%nat.
Proof. induction a as [|c a IH]; cbn; [reflexivity|]. rewrite IH. reflexivity. Qed.

Lemma timeOnly_of_parts (ms : Z) :
  let h := (ms / 3600000) mod 24 in
  let m := (ms / 60000) mod 60 in
  let s := (ms / 1000) mod 60 in
  split_on ":" (timeOnly_of ms) = [pad2 h; pad2 m; pad2 s]
  /\ String.length (timeOnly_of ms) = 8%nat
  /\ str_truthy (timeOnly_of ms) = true.
Proof.
  cbv zeta. unfold timeOnly_of.
  set (h := (ms / 3600000) mod 24). set (m := (ms / 60000) mod 60).
  set (s := (ms / 1000) mod 60).
  destruct (pad2_spec h) as (_ & Hh & Lh);
    [pose proof (Z.mod_pos_bound (ms / 3600000) 24); unfold h; lia|].
  destruct (pad2_spec m) as (_ & Hm & Lm);
    [pose proof (Z.mod_pos_bound (ms / 60000) 60); unfold m; lia|].
  destruct (pad2_spec s) as (_ & Hs & Ls);
    [pose proof (Z.mod_pos_bound (ms / 1000) 60); unfold s; lia|].
  change (":" ++ pad2 m ++ ":" ++ pad2 s)%string
    with (String ":" (pad2 m ++ String ":" (pad2 s)))%string.
  rewrite (split_on_prefix ":" (pad2 h) _ Hh),
    (split_on_prefix ":" (pad2 m) _ Hm), Hs.
  split; [reflexivity|].
  repeat (rewrite string_length_append; cbn [String.length]).
  rewrite Lh, Lm, Ls. split; [reflexivity|].
  destruct (pad2 h); [discriminate Lh|reflexivity].
Qed.



(** Hours, minutes and seconds add up to the second of the day. *)
Lemma time_of_day_parts (ms : Z) :
  (ms / 3600000) mod 24 * 3600000 + (ms / 60000) mod 60 * 60000
  + (ms / 1000) mod 60 * 1000
  = time_of_day ms.
Proof.
  unfold time_of_day.
  replace (ms / 3600000) with (ms / 1000 / 3600)
    by (rewrite Z.div_div by lia; reflexivity).
  replace (ms / 60000) with (ms / 1000 / 60)
    by (rewrite Z.div_div by lia; reflexivity).
  generalize (ms / 1000). intros u.
  Z.div_mod_to_equations. lia.
Qed.

(** The time left until the time of day [T], seen from the local
    instant [L] of day [D]. *)
Lemma until_time_of_day (T L D : Z) :
  D * msPerDay <= L < D * msPerDay + msPerDay ->
  0 <= T < msPerDay ->
  (D * msPerDay + T < L
   /\ (T - L) mod msPerDay = D * msPerDay + T + msPerDay - L)
  \/ (L <= D * msPerDay + T
      /\ (T - L) mod msPerDay = D * msPerDay + T - L).
Proof.
  unfold msPerDay. intros HL HT.
  destruct (Z_lt_le_dec (D * 86400000 + T) L) as [H|H]; [left|right];
    (split; [exact H|]).
  - replace (T - L) with (D * 86400000 + T + 86400000 - L + (- (D + 1)) * 86400000)
      by lia.
    rewrite Z.mod_add by lia. apply Z.mod_small. lia.
  - replace (T - L) with (D * 86400000 + T - L + (- D) * 86400000) by lia.
    rewrite Z.mod_add by lia. apply Z.mod_small. lia.
Qed.

Lemma local_day_bounds (L : Z) :
  L / msPerDay * msPerDay <= L < L / msPerDay * msPerDay + msPerDay.
Proof.
  unfold msPerDay. pose proof (Z.div_mod L 86400000 ltac:(lia)).
  pose proof (Z.mod_pos_bound L 86400000 ltac:(lia)). lia.
Qed.

Lemma countdown_bounds (d : Z) :
  0 <= d < msPerDay ->
  0 <= d / 3600000 <= 23 /\ 0 <= d mod 3600000 / 60000 <= 59.
Proof.
  unfold msPerDay. intros H.
  pose proof (Z.mod_pos_bound d 3600000 ltac:(lia)).
  split; split.
  - apply Z.div_pos; lia.
  - apply Z.lt_succ_r, Z.div_lt_upper_bound; lia.
  - apply Z.div_pos; lia.
  - apply Z.lt_succ_r, Z.div_lt_upper_bound; lia.
Qed.


(** X16. The time that [recordResetTime] stores reads back.  For every
    local time, [toTimeString().split(' ')[0]] is 8 characters long,
    [HH:MM:SS]; split at the colons and passed through [Number], as the
    countdown of the frontend does, it gives back the hour, the minute
    and the second of that time, which add up to its time of day. *)
Theorem timeOnly_of_reads_back (ms : Z) :
  let h := (ms / 3600000) mod 24 in
  let m := (ms / 60000) mod 60 in
  let s := (ms / 1000) mod 60 in
  String.length (timeOnly_of ms) = 8%nat
  /\ split_on ":" (timeOnly_of ms) = [pad2 h; pad2 m; pad2 s]
  /\ map to_number (split_on ":" (timeOnly_of ms)) = [Num h; Num m; Num s]
  /\ 0 <= h < 24 /\ 0 <= m < 60 /\ 0 <= s < 60
  /\ h * 3600000 + m * 60000 + s * 1000 = time_of_day ms.
Proof.
  cbv zeta.
  destruct (timeOnly_of_parts ms) as (Hparts & Hlen & _).
  pose proof (Z.mod_pos_bound (ms / 3600000) 24 ltac:(lia)) as Bh.
  pose proof (Z.mod_pos_bound (ms / 60000) 60 ltac:(lia)) as Bm.
  pose proof (Z.mod_pos_bound (ms / 1000) 60 ltac:(lia)) as Bs.
  destruct (pad2_spec ((ms / 3600000) mod 24)) as (Nh & _); [lia|].
  destruct (pad2_spec ((ms / 60000) mod 60)) as (Nm & _); [lia|].
  destruct (pad2_spec ((ms / 1000) mod 60)) as (Ns & _); [lia|].
  split; [exact Hlen|]. split; [exact Hparts|].
  split; [rewrite Hparts; cbn [map]; rewrite Nh, Nm, Ns; reflexivity|].
  split; [exact Bh|]. split; [exact Bm|]. split; [exact Bs|].
  apply time_of_day_parts.
Qed.


Lemma time_of_day_bounds (t : Z) : 0 <= time_of_day t < msPerDay.
Proof.
  unfold time_of_day, msPerDay.
  pose proof (Z.mod_pos_bound (t / 1000) 86400 ltac:(lia)). lia.
Qed.

(** The two dates that the countdown builds, in a zone that is steady
    over their days. *)
Lemma steady_dates (zone : time_zone) (tz today T : Z) :
  let D := (today + tz) / msPerDay in
  let resetToday := D * msPerDay + T - tz in
  steady_zone zone tz D ->
  0 <= T < msPerDay ->
  Z.abs today + 2 * msPerDay <= 8640000000000000 ->
  TimeClip (UTC zone (LocalTime zone today / msPerDay * msPerDay + T))
  = Num resetToday
  /\ setDate_next zone (Num resetToday) = Num (resetToday + msPerDay).
Proof.
  cbv zeta. intros Hsteady HT Hrange.
  pose proof (local_day_bounds (today + tz)) as Hday.
  set (D := (today + tz) / msPerDay) in *.
  assert (Htoday : utc_offset zone today = tz).
  { replace today with (today + tz - tz) at 1 by lia.
    apply Hsteady. unfold msPerDay in *. lia. }
  assert (Hlocal : local_offset zone (D * msPerDay + T) = tz)
    by (apply Hsteady; unfold msPerDay in *; lia).
  assert (Hreset : utc_offset zone (D * msPerDay + T - tz) = tz)
    by (apply Hsteady; unfold msPerDay in *; lia).
  assert (Hnext : local_offset zone (D * msPerDay + T + msPerDay) = tz)
    by (apply Hsteady; unfold msPerDay in *; lia).
  unfold setDate_next, LocalTime, UTC, TimeClip.
  rewrite Htoday. fold D. rewrite Hlocal, Hreset.
  replace (D * msPerDay + T - tz + tz + msPerDay)
    with (D * msPerDay + T + msPerDay) by lia.
  rewrite Hnext.
  destruct (Z.leb_spec (Z.abs (D * msPerDay + T - tz)) 8640000000000000)
    as [_|Hout]; [|unfold msPerDay in *; lia].
  destruct (Z.leb_spec (Z.abs (D * msPerDay + T + msPerDay - tz))
              8640000000000000) as [_|Hout]; [|unfold msPerDay in *; lia].
  split; [reflexivity|]. f_equal. lia.
Qed.

Lemma calculateTimeUntilReset_recorded (zone : time_zone)
      (tz now today t : Z) :
  let resetToday := (today + tz) / msPerDay * msPerDay + time_of_day t - tz in
  let timeDiff :=
    (if resetToday <? now then resetToday + msPerDay else resetToday) - now in
  steady_zone zone tz ((today + tz) / msPerDay) ->
  Z.abs today + 2 * msPerDay <= 8640000000000000 ->
  calculateTimeUntilReset zone now today (Some (timeOnly_of t))
  = Some (show_Z (timeDiff / 3600000) ++ "h "
            ++ show_Z (Z.rem timeDiff 3600000 / 60000) ++ "m")%string.
Proof.
  cbv zeta. intros Hsteady Hrange.
  destruct (timeOnly_of_parts t) as (Hparts & _ & Htruthy).
  destruct (pad2_spec ((t / 3600000) mod 24)) as (Nh & _);
    [pose proof (Z.mod_pos_bound (t / 3600000) 24 ltac:(lia)); lia|].
  destruct (pad2_spec ((t / 60000) mod 60)) as (Nm & _);
    [apply Z.mod_pos_bound; lia|].
  destruct (pad2_spec ((t / 1000) mod 60)) as (Ns & _);
    [apply Z.mod_pos_bound; lia|].
  destruct (steady_dates zone tz today (time_of_day t) Hsteady
              (time_of_day_bounds t) Hrange) as [Hset Hnext].
  unfold calculateTimeUntilReset. rewrite Htruthy. cbn [negb].
  rewrite Hparts. cbn [part_number nth_error]. rewrite Nh, Nm, Ns.
  cbn [setHours]. rewrite Z.add_0_r. rewrite (time_of_day_parts t), Hset.
  cbn [js_gt]. rewrite Hnext.
  destruct (_ <? now); reflexivity.
Qed.

Lemma countdown_arith (T L D tz now : Z) :
  L = now + tz ->
  D * msPerDay <= L < D * msPerDay + msPerDay ->
  0 <= T < msPerDay ->
  let resetToday := D * msPerDay + T - tz in
  (if resetToday <? now then resetToday + msPerDay else resetToday) - now
  = (T - L) mod msPerDay
  /\ (now + (T - L) mod msPerDay + tz) mod msPerDay = T.
Proof.
  intros -> HL BT. cbv zeta.
  destruct (until_time_of_day T (now + tz) D HL BT) as [[Hc Hd]|[Hc Hd]];
    rewrite Hd; unfold msPerDay in *.
  - destruct (Z.ltb_spec (D * 86400000 + T - tz) now) as [_|Hle]; [|lia].
    split; [lia|].
    replace (now + (D * 86400000 + T + 86400000 - (now + tz)) + tz)
      with (T + (D + 1) * 86400000) by lia.
    rewrite Z.mod_add by lia. apply Z.mod_small, BT.
  - destruct (Z.ltb_spec (D * 86400000 + T - tz) now) as [Hlt|_]; [lia|].
    split; [lia|].
    replace (now + (D * 86400000 + T - (now + tz)) + tz)
      with (T + D * 86400000) by lia.
    rewrite Z.mod_add by lia. apply Z.mod_small, BT.
Qed.

(** X17. The countdown of the frontend, for a reset time [HH:MM:SS]
    written by the scanner, in a browser whose zone keeps one offset
    [tz] over today and tomorrow (no change of daylight saving), the
    two clock readings falling on the same local day:
    [calculateTimeUntilReset] shows the whole hours and minutes of the
    time left until the local time of day next equals the recorded one,
    that is of [(recorded - (now + tz)) mod 24h]; it is between [0h 0m]
    and [23h 59m].  The recorded time is read as a time of the
    browser's zone, whatever the zone of the server that wrote it. *)
Theorem countdown_to_recorded_reset (zone : time_zone) (tz now today t : Z)
        (Hsteady : steady_zone zone tz ((today + tz) / msPerDay))
        (Hsame : (today + tz) / msPerDay = (now + tz) / msPerDay)
        (Hrange : Z.abs today + 2 * msPerDay <= 8640000000000000) :
  let timeDiff := (time_of_day t - (now + tz)) mod msPerDay in
  let hoursLeft := timeDiff / 3600000 in
  let minutesLeft := timeDiff mod 3600000 / 60000 in
  calculateTimeUntilReset zone now today (Some (timeOnly_of t))
  = Some (show_Z hoursLeft ++ "h " ++ show_Z minutesLeft ++ "m")%string
  /\ 0 <= hoursLeft <= 23 /\ 0 <= minutesLeft <= 59
  /\ (now + timeDiff + tz) mod msPerDay = time_of_day t.
Proof.
  cbv zeta.
  destruct (countdown_arith (time_of_day t) (now + tz)
              ((now + tz) / msPerDay) tz now eq_refl
              (local_day_bounds (now + tz)) (time_of_day_bounds t))
    as [Hdiff Hday].
  assert (Bd : 0 <= (time_of_day t - (now + tz)) mod msPerDay < msPerDay)
    by (apply Z.mod_pos_bound; reflexivity).
  destruct (countdown_bounds _ Bd) as [Bh Bm].
  split; [|split; [exact Bh|split; [exact Bm|exact Hday]]].
  rewrite (calculateTimeUntilReset_recorded zone tz now today t Hsteady Hrange).
  cbv zeta. rewrite Hsame, Hdiff.
  rewrite Z.rem_mod_nonneg; [reflexivity|apply Bd|reflexivity].
Qed.

Lemma countdown_to_recorded_reset_witness :
  calculateTimeUntilReset (fixed_zone 0) 36000000 36000000 (Some "12:34:56")
  = Some "2h 34m".
Proof.
  destruct (countdown_to_recorded_reset (fixed_zone 0) 0 36000000 36000000
              45296000) as (E & _).
  - intros L _. split; reflexivity.
  - reflexivity.
  - vm_compute. discriminate.
  - exact E.
Defined.

(** Where daylight saving ends between today and tomorrow the countdown
    runs over a day of 25 hours: in New York on 2023-11-05 at 00:30,
    for a reset at 00:15:00, it shows 24 hours and 45 minutes. *)
Example countdown_across_fall_back :
  calculateTimeUntilReset new_york_2023 1699158600000 1699158600000
    (Some "00:15:00")
  = Some "24h 45m".
Proof. reflexivity. Qed.

(* ------------------------------------------------------------------ *)
(** ** Starting and stopping the scanner *)


Lemma start_spec (this : NationScanner) (w : World) :
  exists w',
    start this w
    = (Ok tt,
       if isScanning this then this
       else {| isScanning := true; scanInterval := Some 3600000 |}, w')
    /\ (isScanning this = true ->
        w' = emit (EvLog LWarn "Scanner already running" NoMeta) w)
    /\ (isScanning this = false ->
        w' = run_world performScan
               (emit (EvLog LInfo "Starting nation scanner" NoMeta) w)).
Proof.
  unfold start. destruct (isScanning this).
  - eexists. split; [reflexivity|]. split; [reflexivity|discriminate].
  - pose proof (performScan_ok
                  (emit (EvLog LInfo "Starting nation scanner" NoMeta) w)) as H.
    unfold run_result, run_world in *.
    destruct (performScan _) as [[[]|e] w']; [|discriminate H].
    eexists. split; [reflexivity|]. split; [discriminate|reflexivity].
Qed.

(** X18. Starting and stopping the scanner, the calls running one after
    the other.  [start] never throws (its scan never does); on a scanner
    that is scanning it only logs a warning: no scan is run, no second
    timer is set.  On a stopped scanner it runs one scan cycle and sets
    the hourly timer.  [stop] leaves the scanner as newly constructed.
    So after any sequence of calls the timer is set exactly when
    [isScanning] is true. *)
Theorem scanner_timer_follows_flag (calls : list scanner_call)
        (this : NationScanner) (w : World)
        (Hinv : timer_matches_flag this = true) :
  timer_matches_flag (fst (run_calls calls this w)) = true
  /\ (forall w0, fst (fst (start this w0)) = Ok tt)
  /\ (isScanning this = true ->
      start this w
      = (Ok tt, this, emit (EvLog LWarn "Scanner already running" NoMeta) w))
  /\ (isScanning this = false ->
      snd (fst (start this w))
      = {| isScanning := true; scanInterval := Some 3600000 |}
      /\ snd (start this w)
         = run_world performScan
             (emit (EvLog LInfo "Starting nation scanner" NoMeta) w))
  /\ snd (fst (stop this w)) = new_NationScanner.
Proof.
  split; [|split; [|split; [|split]]].
  - revert this w Hinv. induction calls as [|c calls IH]; intros this w Hinv;
      cbn [run_calls]; [exact Hinv|].
    destruct c.
    + destruct (start_spec this w) as (w' & -> & _). apply IH.
      destruct (isScanning this); [exact Hinv|reflexivity].
    + unfold stop. apply IH. unfold timer_matches_flag.
      destruct (scanInterval this) eqn:E; cbn [scanInterval isScanning];
        rewrite ?E; reflexivity.
  - intros w0. destruct (start_spec this w0) as (w' & -> & _). reflexivity.
  - intros H. destruct (start_spec this w) as (w' & E & Hw & _).
    rewrite E, (Hw H), H. reflexivity.
  - intros H. destruct (start_spec this w) as (w' & E & _ & Hw).
    rewrite E, (Hw H), H. split; reflexivity.
  - unfold stop, new_NationScanner.
    destruct (scanInterval this) eqn:E; cbn [fst snd scanInterval];
      rewrite ?E; reflexivity.
Qed.

Lemma scanner_timer_follows_flag_witness :
  timer_matches_flag
    (fst (run_calls [CallStart; CallStart; CallStop; CallStart]
            new_NationScanner world_at_epoch)) = true.
Proof.
  destruct (scanner_timer_follows_flag
              [CallStart; CallStart; CallStop; CallStart]
              new_NationScanner world_at_epoch eq_refl) as (H & _).
  exact H.
Defined.

(** X21. The countdown without a usable reset time.  For [null] and for
    the empty string [calculateTimeUntilReset] returns [null].  For a
    non-empty text with fewer than three parts between colons the
    seconds are [undefined]: the date is invalid and the text shown is
    [NaNh NaNm]. *)
Theorem countdown_without_reset_time (zone : time_zone) (now today : Z)
        (text : string) :
  calculateTimeUntilReset zone now today None = None
  /\ calculateTimeUntilReset zone now today (Some "") = None
  /\ (text <> "" -> (List.length (split_on ":" text) < 3)%nat ->
      calculateTimeUntilReset zone now today (Some text) = Some "NaNh NaNm").
Proof.
  split; [reflexivity|]. split; [reflexivity|].
  intros Hne Hlen. unfold calculateTimeUntilReset.
  destruct text as [|c text]; [congruence|]. cbn [str_truthy negb].
  assert (H2 : part_number (split_on ":" (String c text)) 2 = NaN).
  { unfold part_number.
    destruct (split_on ":" (String c text)) as [|a [|b [|d l]]];
      cbn in Hlen |- *; try reflexivity. lia. }
  cbv zeta. rewrite H2. unfold setHours.
  destruct (part_number (split_on ":" (String c text)) 0),
    (part_number (split_on ":" (String c text)) 1); reflexivity.
Qed.

Lemma countdown_without_reset_time_witness :
  calculateTimeUntilReset new_york_2023 0 0 (Some "12:34") = Some "NaNh NaNm".
Proof.
  destruct (countdown_without_reset_time new_york_2023 0 0 "12:34")
    as (_ & _ & H).
  apply H; [discriminate|cbn; lia].
Defined.

(* ------------------------------------------------------------------ *)
(** ** The bot's lookup *)

Lemma digit_value_range (c : ascii) (d : Z) :
  digit_value 10 c = Some d -> 0 <= d <= 9.
Proof.
  unfold digit_value.
  destruct (Z.leb_spec 48 (Z.of_nat (nat_of_ascii c))) as [L|L];
    destruct (Z.leb_spec (Z.of_nat (nat_of_ascii c)) 57) as [U|U]; cbn;
    intros E; try discriminate E; injection E as <-; lia.
Qed.

Lemma read_digits_all (s : string) :
  all_digits s = true ->
  forall a, 0 <= a ->
            exists n,
              a * 10 ^ Z.of_nat (String.length s) <= n
              < (a + 1) * 10 ^ Z.of_nat (String.length s)
              /\ read_digits 10 s (Some a) = Some n.
Proof.
  induction s as [|c s IH]; intros Hall a Ha;
    cbn [read_digits all_digits String.length] in *.
  - exists a. split; [cbn; lia|reflexivity].
  - destruct (digit_value 10 c) as [d|] eqn:Hd; [|discriminate].
    pose proof (digit_value_range c d Hd) as Hr.
    destruct (IH Hall (a * 10 + d) ltac:(lia)) as (n & Hn & E).
    exists n. split; [|exact E].
    rewrite Nat2Z.inj_succ, Z.pow_succ_r by lia.
    assert (0 < 10 ^ Z.of_nat (String.length s)) by (apply Z.pow_pos_nonneg; lia).
    nia.
Qed.

(** X22. How the bot's [/reset] command reads what the user typed.  A
    text made of decimal digits only (at most 15, so that the number is
    exact) is looked up by id, with the number the digits spell: never
    [NaN], never negative; and the id a nation is shown with is read
    back as that id.  Any other text, a signed or padded number
    included, is looked up by name, with the pattern [%text%]. *)
Theorem reset_command_reads_ids (nationInput : string) (i : Z) :
  (digits_only nationInput = true ->
   (String.length nationInput <= 15)%nat ->
   exists n, 0 <= n < 2 ^ 53
             /\ reset_command_lookup nationInput = LookupById (Num n))
  /\ (0 <= i < 2 ^ 53 ->
      reset_command_lookup (show_Z i) = LookupById (Num i))
  /\ (digits_only nationInput = false ->
      reset_command_lookup nationInput
      = LookupByName ("%" ++ nationInput ++ "%"))
  /\ reset_command_lookup "-5" = LookupByName "%-5%"
  /\ reset_command_lookup " 5" = LookupByName "% 5%".
Proof.
  split; [|split; [|split; [|split; reflexivity]]].
  - intros Hd Hlen. unfold reset_command_lookup. rewrite Hd.
    unfold digits_only in Hd. apply andb_prop in Hd as [Hne Hall].
    assert (Hs : nationInput <> "") by (destruct nationInput; discriminate).
    destruct (all_digits_plain _ Hall Hs) as (Ht & Hsg & Hx & _).
    unfold parseInt_string. rewrite Ht, Hsg, Hx.
    destruct nationInput as [|c s]; [congruence|].
    cbn [read_digits all_digits String.length] in *.
    destruct (digit_value 10 c) as [d|] eqn:Hdv; [|discriminate].
    pose proof (digit_value_range c d Hdv) as Hr.
    destruct (read_digits_all s Hall d ltac:(lia)) as (n & Hn & E).
    rewrite E. exists n.
    assert (Hpow : 10 ^ Z.of_nat (String.length s) <= 10 ^ 14)
      by (apply Z.pow_le_mono_r; lia).
    assert (0 < 10 ^ Z.of_nat (String.length s))
      by (apply Z.pow_pos_nonneg; lia).
    split; [|do 2 f_equal; lia].
    change (2 ^ 53) with 9007199254740992.
    change (10 ^ 14) with 100000000000000 in Hpow. nia.
  - intros Hi. unfold reset_command_lookup, digits_only.
    rewrite (show_Z_truthy i) by lia. rewrite (parseInt_show_Z i) by lia.
    unfold show_Z. destruct (Z.ltb_spec i 0); [lia|].
    destruct (show_nonneg_reads i ltac:(lia)) as (k & (_ & Hall & _) & _).
    rewrite Hall. reflexivity.
  - intros Hd. unfold reset_command_lookup. rewrite Hd. reflexivity.
Qed.

Lemma reset_command_reads_ids_witness :
  reset_command_lookup "1234" = LookupById (Num 1234).
Proof.
  destruct (reset_command_reads_ids "" 1234) as (_ & H & _).
  apply H. cbn. lia.
Defined.
